(** * Face-profile enrollment and verification service

    A shallow embedding of the similarity engine ([verify_faces],
    [cosine_similarity], [aggregate_embeddings]), the profile store and the
    request handlers of the repository, followed by the properties of the
    specification that were checked against them.

    Python floats and float64 arrays are IEEE binary64 numbers: Rocq's
    primitive [float].  The arrays InsightFace returns are float32: binary32
    numbers, computed with the parameterised operations of [SpecFloat] at
    precision 24. *)

From Stdlib Require Import ZArith List Floats Lia Bool.
From stdpp Require Import base option list strings gmap pretty.

Set Warnings "-inexact-float".

(** ** The Python runtime: exceptions and results *)

Module Py.

(** The exceptions the modelled code raises or lets through. *)
Inductive exn : Type :=
| ValueError (msg : string)
| KeyError (key : string)
| cv2_error (msg : string)
| OperationalError (msg : string)
| OverflowError (msg : string)
| Exception (msg : string)
| HTTPException (status_code : Z) (detail : string).

(** A call either returns a value or raises. *)
Inductive outcome (A : Type) : Type :=
| Return (a : A)
| Raise (e : exn).
Arguments Return {A} a.
Arguments Raise {A} e.

Definition bind {A B : Type} (c : outcome A) (k : A -> outcome B) : outcome B :=
  match c with
  | Return a => k a
  | Raise e => Raise e
  end.

Definition raises {A : Type} (c : outcome A) : bool :=
  match c with
  | Return _ => false
  | Raise _ => true
  end.

(** [str(e)] of an exception. *)
Definition str_exn (e : exn) : string :=
  match e with
  | ValueError m | cv2_error m | OperationalError m | OverflowError m
  | Exception m => m
  | KeyError k => "'" ++ k ++ "'"
  | HTTPException c d => pretty c ++ ": " ++ d
  end.

End Py.

Export Py.

(** stdpp's monad notation [x ← c; k] sequences calls: the first exception
    raised ends the computation. *)
#[export] Instance outcome_ret : MRet outcome := @Return.
#[export] Instance outcome_bind : MBind outcome := fun A B k c => Py.bind c k.
#[export] Instance outcome_fmap : FMap outcome :=
  fun A B f c => Py.bind c (fun a => Return (f a)).

(** ** NumPy on one-dimensional float64 arrays *)

Module np.

Local Open Scope float_scope.

Definition ndarray : Type := list float.

(** The message of a shape error names both shapes. *)
Definition shape_str (n : nat) : string := "(" ++ pretty n ++ ",)".

(** The sign of a zero that [x * y + z] comes to, [sxy] being the sign of
    the product and [sz] that of [z], when rounding to nearest. *)
Definition fma_szero (sxy sz : bool) : bool :=
  if Bool.eqb sxy sz then sxy else false.

(** The fused multiply-add of IEEE 754: [x * y + z] with a single rounding,
    to nearest even. *)
Definition SFfma (x y z : spec_float) : spec_float :=
  match x, y with
  | S754_nan, _ | _, S754_nan => S754_nan
  | S754_infinity _, S754_zero _ | S754_zero _, S754_infinity _ => S754_nan
  | S754_infinity sx, S754_infinity sy
  | S754_infinity sx, S754_finite sy _ _
  | S754_finite sx _ _, S754_infinity sy =>
      match z with
      | S754_nan => S754_nan
      | S754_infinity sz => if Bool.eqb (xorb sx sy) sz then z else S754_nan
      | S754_zero _ | S754_finite _ _ _ => S754_infinity (xorb sx sy)
      end
  | S754_finite sx _ _, S754_zero sy
  | S754_zero sx, S754_finite sy _ _
  | S754_zero sx, S754_zero sy =>
      match z with
      | S754_zero sz => S754_zero (fma_szero (xorb sx sy) sz)
      | S754_nan | S754_infinity _ | S754_finite _ _ _ => z
      end
  | S754_finite sx mx ex, S754_finite sy my ey =>
      let s := xorb sx sy in
      let mp := cond_Zopp s (Z.pos (mx * my)) in
      let ep := (ex + ey)%Z in
      match z with
      | S754_nan => S754_nan
      | S754_infinity _ => z
      | S754_zero sz =>
          binary_normalize FloatOps.prec FloatOps.emax mp ep (fma_szero s sz)
      | S754_finite sz mz ez =>
          let e := Z.min ep ez in
          binary_normalize FloatOps.prec FloatOps.emax
            (mp * 2 ^ (ep - e) + cond_Zopp sz (Z.pos mz) * 2 ^ (ez - e))%Z e
            (fma_szero s sz)
      end
  end.

Definition fma (x y z : float) : float :=
  SF2Prim (SFfma (Prim2SF x) (Prim2SF y) (Prim2SF z)).

(** How a BLAS routine arrives at the dot product of two vectors: the
    products [a[i] * b[i]] are combined by additions and fused
    multiply-adds, in an arrangement of the routine's own. *)
Inductive reduction : Type :=
| Zero
| Mul (i : nat)
| Add (l r : reduction)
| Fma (i : nat) (acc : reduction).

Fixpoint reduce (r : reduction) (a b : ndarray) : float :=
  match r with
  | Zero => 0
  | Mul i => nth i a 0 * nth i b 0
  | Add l r => reduce l a b + reduce r a b
  | Fma i acc => fma (nth i a 0) (nth i b 0) (reduce acc a b)
  end.

(** NumPy hands the dot product of two float64 vectors to the BLAS routine
    [ddot] it was built with.  The arrangement that routine uses for vectors
    of a given length is the library's, and so a parameter. *)
Class Blas : Type := { ddot_order : nat -> reduction }.

Definition ddot `{Blas} (a b : ndarray) : float :=
  reduce (ddot_order (length a)) a b.

(** The plain loop [sum += a[i] * b[i]], from zero, in index order. *)
Fixpoint in_order (n : nat) : reduction :=
  match n with
  | O => Zero
  | S k => Add (in_order k) (Mul k)
  end.

Definition index_order : Blas := {| ddot_order := in_order |}.

Definition not_aligned (n m : nat) : exn :=
  ValueError ("shapes " ++ shape_str n ++ " and " ++ shape_str m
              ++ " not aligned: " ++ pretty n ++ " (dim 0) != "
              ++ pretty m ++ " (dim 0)").

Definition not_broadcast (n m : nat) : exn :=
  ValueError ("operands could not be broadcast together with shapes "
              ++ shape_str n ++ " " ++ shape_str m ++ " ").

(** [np.dot(a, b)] of two 1-D arrays: the lengths must agree. *)
Definition dot `{Blas} (a b : ndarray) : outcome float :=
  if (length a =? length b)%nat then Return (ddot a b)
  else Raise (not_aligned (length a) (length b)).

(** [np.linalg.norm(x)] of a 1-D real array: [sqrt(x.dot(x))]. *)
Definition linalg_norm `{Blas} (x : ndarray) : float := sqrt (ddot x x).

End np.

(** ** app/core/config.py *)

Module config.

(** The process environment, and Python's [float()] on a string of it.  The
    parser is a collaborator; all that is used of it is what it makes of the
    default's text. *)
Class Environ : Type := {
  environ : gmap string string;
  py_float : string -> float;
  py_float_default : py_float "0.6" = 0.6%float
}.

(** [os.getenv(key, default)]. *)
Definition getenv `{Environ} (key default : string) : string :=
  match environ !! key with
  | Some v => v
  | None => default
  end.

Definition SIMILARITY_THRESHOLD `{Environ} : float :=
  py_float (getenv "SIMILARITY_THRESHOLD" "0.6").

End config.

(** ** app/models/profile.py *)

Module models.

Record VerificationResult : Type := {
  is_match : bool;
  score : float
}.

Record Profile : Type := {
  id : Z;
  description : string;
  embedding : list float;
  created_at : Z
}.

End models.

Export models.


(** ** Binary32: the element type of the arrays InsightFace returns *)

Module F32.

Definition prec : Z := 24.
Definition emax : Z := 128.

Definition f32 : Type := spec_float.

Definition zero : f32 := S754_zero false.
Definition add : f32 -> f32 -> f32 := SFadd prec emax.
Definition sub : f32 -> f32 -> f32 := SFsub prec emax.
Definition mul : f32 -> f32 -> f32 := SFmul prec emax.
Definition div : f32 -> f32 -> f32 := SFdiv prec emax.
Definition sqrt : f32 -> f32 := SFsqrt prec emax.

(** An integer as a float32. *)
Definition of_Z (n : Z) : f32 := binary_normalize prec emax n 0 false.

(** A Python float rounded to float32 (NumPy's cast of a scalar operand). *)
Definition of_float (x : float) : f32 :=
  match Prim2SF x with
  | S754_finite s m e => binary_round prec emax s m e
  | y => y
  end.

(** [float(x)] and [x.tolist()]: every float32 is a Python float. *)
Definition to_float (x : f32) : float := SF2Prim x.

End F32.

(** ** Arrays of either element type *)

Module dtype.

(** What the aggregation uses of an array's element type: the cast of a
    Python scalar operand to it, and its sum and product. *)
Class Dtype (E : Type) : Type := {
  of_int : Z -> E;
  of_scalar : float -> E;
  dt_add : E -> E -> E;
  dt_mul : E -> E -> E
}.

(** An integer below 2^63 in magnitude as a float64 (Python's conversion of
    an [int] operand). *)
Definition float_of_Z (n : Z) : float :=
  if (n <? 0)%Z then PrimFloat.opp (PrimFloat.of_uint63 (Uint63.of_Z (- n)))
  else PrimFloat.of_uint63 (Uint63.of_Z n).

#[export] Instance float64 : Dtype float := {
  of_int := float_of_Z;
  of_scalar x := x;
  dt_add := PrimFloat.add;
  dt_mul := PrimFloat.mul
}.

#[export] Instance float32 : Dtype F32.f32 := {
  of_int := F32.of_Z;
  of_scalar := F32.of_float;
  dt_add := F32.add;
  dt_mul := F32.mul
}.

(** A Python value met while summing arrays: the integer [sum] starts from,
    or a 1-D array. *)
Inductive value (E : Type) : Type :=
| PyInt (n : Z)
| NdArray (a : list E).
Arguments PyInt {E} n.
Arguments NdArray {E} a.

Section Arrays.
Context {E : Type} `{Dtype E}.

(** [w * a] for a Python float [w]. *)
Definition scale (w : float) (a : list E) : list E :=
  map (dt_mul (of_scalar w)) a.

(** [a + b] on 1-D arrays, with NumPy's broadcasting: equal lengths add
    element by element, a length-one array is stretched over the other, any
    other pair of lengths is refused. *)
Definition add_arrays (a b : list E) : outcome (list E) :=
  if (length a =? length b)%nat then Return (zip_with dt_add a b)
  else match a, b with
       | [x], _ => Return (map (dt_add x) b)
       | _, [y] => Return (map (fun x => dt_add x y) a)
       | _, _ => Raise (np.not_broadcast (length a) (length b))
       end.

(** [acc + term] in the loop of [sum]: the accumulator is the starting
    integer before the first term and an array afterwards. *)
Definition add_value (acc : value E) (term : list E) : outcome (value E) :=
  match acc with
  | PyInt n => Return (NdArray (map (dt_add (of_int n)) term))
  | NdArray a => NdArray <$> add_arrays a term
  end.

End Arrays.

End dtype.

(** ** Python dictionaries

    A [dict] keeps its keys in insertion order, and the order in which the
    aggregation visits the models decides how the float sums round, so a
    dictionary that is iterated is an association list; its keys are
    distinct.  A dictionary that is only looked up is a [gmap]. *)

Module dict.

Definition dict (V : Type) : Type := list (string * V).

Definition keys {V : Type} (d : dict V) : list string := map fst d.

Fixpoint get {V : Type} (d : dict V) (key : string) : option V :=
  match d with
  | [] => None
  | (k, v) :: rest => if String.eqb k key then Some v else get rest key
  end.

(** [d[key]]. *)
Definition getitem {V : Type} (d : dict V) (key : string) : outcome V :=
  match get d key with
  | Some v => Return v
  | None => Raise (KeyError key)
  end.

(** [d[key] = v]: an existing key keeps its place. *)
Fixpoint setitem {V : Type} (d : dict V) (key : string) (v : V) : dict V :=
  match d with
  | [] => [(key, v)]
  | (k, v') :: rest =>
      if String.eqb k key then (k, v) :: rest else (k, v') :: setitem rest key v
  end.

Definition wf {V : Type} (d : dict V) : Prop := NoDup (keys d).

End dict.

(** ** Python's formatting of a float with [.kf] *)

Module fmt.

Local Open Scope Z_scope.

(** [n / d] rounded to the nearest integer, ties to even, for [0 <= n] and
    [0 < d]. *)
Definition div_half_even (n d : Z) : Z :=
  let q := n / d in
  match 2 * (n mod d) ?= d with
  | Lt => q
  | Gt => q + 1
  | Eq => if Z.even q then q else q + 1
  end.

(** The magnitude [m * 2^e], times [10^k], correctly rounded. *)
Definition scaled (k : nat) (m : positive) (e : Z) : Z :=
  if 0 <=? e then Z.pos m * 2 ^ e * 10 ^ Z.of_nat k
  else div_half_even (Z.pos m * 10 ^ Z.of_nat k) (2 ^ (- e)).

Fixpoint zeros (n : nat) : string :=
  match n with
  | O => ""
  | S n' => "0" ++ zeros n'
  end.

(** The digits of [n] with [k] of them after the point. *)
Definition fixed (k : nat) (n : Z) : string :=
  let int_part := pretty (n / 10 ^ Z.of_nat k) in
  let frac := pretty (n mod 10 ^ Z.of_nat k) in
  match k with
  | O => int_part
  | _ => int_part ++ "." ++ zeros (k - String.length frac) ++ frac
  end.

Definition sign (s : bool) : string := if s then "-" else "".

(** [f"{x:.kf}"]. *)
Definition format_f (k : nat) (x : spec_float) : string :=
  match x with
  | S754_nan => "nan"
  | S754_infinity s => sign s ++ "inf"
  | S754_zero s => sign s ++ fixed k 0
  | S754_finite s m e => sign s ++ fixed k (scaled k m e)
  end.

End fmt.

(** ** The embedding provider (InsightFace) and image decoding

    External collaborators: the image type, the decoder and the colour
    conversion are parameters, and a face-analysis model is any function from
    an image array to the faces it detects. *)

Module provider.

(** [bbox] is a float32 array of shape (4,): [x1, y1, x2, y2]. *)
Record box : Type := { b0 : F32.f32; b1 : F32.f32; b2 : F32.f32; b3 : F32.f32 }.

(** A landmark is a float32 array of shape (2,). *)
Definition point : Type := (F32.f32 * F32.f32)%type.

(** [kps] is a float32 array of shape (5, 2). *)
Record landmarks : Type := {
  k0 : point; k1 : point; k2 : point; k3 : point; k4 : point
}.

Record Face : Type := {
  bbox : box;
  kps : landmarks;
  embedding : list F32.f32
}.

(** Pillow either makes an image of the bytes it is given or raises; the
    message of the exception names the [BytesIO] object by its address, which
    is another one in every request. *)
Class Vision : Type := {
  Image : Type;
  pixels : Type;
  Image_load : list Byte.byte -> option Image;
  Image_error : Z -> list Byte.byte -> exn;
  np_array : Image -> pixels;
  cvtColor_RGB2BGR : pixels -> outcome pixels
}.

(** [Image.open(BytesIO(data))], the [BytesIO] object being at [address]. *)
Definition Image_open `{Vision} (address : Z) (data : list Byte.byte)
  : outcome Image :=
  match Image_load data with
  | Some image => Return image
  | None => Raise (Image_error address data)
  end.

(** [FaceAnalysis.get]. *)
Definition FaceAnalysis `{Vision} : Type := pixels -> outcome (list Face).

(** [np.linalg.norm(q - p)] of two landmarks, in float32. *)
Definition distance (p q : point) : F32.f32 :=
  let dx := F32.sub (fst q) (fst p) in
  let dy := F32.sub (snd q) (snd p) in
  F32.sqrt (F32.add (F32.add F32.zero (F32.mul dx dx)) (F32.mul dy dy)).

End provider.

(** ** app/core/face_analyzer.py *)

Module face_analyzer.

Local Open Scope float_scope.

Import config provider.

(** A [FaceAnalyzer] holds the prepared model. *)
Record FaceAnalyzer `{Vision} : Type := { face_app : FaceAnalysis }.

Section Analyzer.
Context `{Vision} `{Environ} `{np.Blas}.

Definition get_face_embedding (self : FaceAnalyzer) (image : Image)
  : outcome (option (list F32.f32)) :=
  let img_array := np_array image in
  img_bgr ← cvtColor_RGB2BGR img_array;
  faces ← face_app self img_bgr;
  match faces with
  | [] => Return None
  | face :: _ => Return (Some (embedding face))
  end.

(** The text [analyze_face] builds from one face and the number of faces. *)
Definition describe (face : Face) (n_faces : nat) : string :=
  let bbox := bbox face in
  let landmarks := kps face in
  let face_width := F32.sub (b2 bbox) (b0 bbox) in
  let face_height := F32.sub (b3 bbox) (b1 bbox) in
  let face_ratio := F32.div face_height face_width in
  let left_eye := k0 landmarks in
  let right_eye := k1 landmarks in
  let eye_distance := distance left_eye right_eye in
  let eye_face_ratio := F32.div eye_distance face_width in
  let nose := k2 landmarks in
  let nose_y_pos := F32.div (F32.sub (snd nose) (b1 bbox)) face_height in
  let left_mouth := k3 landmarks in
  let right_mouth := k4 landmarks in
  let mouth_width := distance left_mouth right_mouth in
  let mouth_face_ratio := F32.div mouth_width face_width in
  ("Face dimensions: " ++ fmt.format_f 2 face_ratio ++ " height/width ratio. "
   ++ "Eye spacing: " ++ fmt.format_f 3 eye_face_ratio ++ " relative to face width. "
   ++ "Nose positioned at " ++ fmt.format_f 3 nose_y_pos ++ " vertical face ratio. "
   ++ "Mouth width: " ++ fmt.format_f 3 mouth_face_ratio ++ " relative to face width. "
   ++ "Landmark confidence: " ++ pretty n_faces ++ " face(s) detected.")%string.

Definition analyze_face (self : FaceAnalyzer) (image : Image)
  : outcome (string * option (list float)) :=
  let img_array := np_array image in
  img_bgr ← cvtColor_RGB2BGR img_array;
  faces ← face_app self img_bgr;
  match faces with
  | [] => Return ("No face detected in the image."%string, None)
  | face :: _ =>
      let embedding := map F32.to_float (embedding face) in
      let description := describe face (length faces) in
      Return (description, Some embedding)
  end.

(** [verify_faces]: both lists become float64 arrays; the quotient is a NumPy
    scalar division, which yields NaN or an infinity on a zero divisor and
    raises nothing. *)
Definition verify_faces (probe_embedding ref_embedding : list float)
  : outcome VerificationResult :=
  let probe : np.ndarray := probe_embedding in
  let ref : np.ndarray := ref_embedding in
  d ← np.dot probe ref;
  let similarity := d / (np.linalg_norm probe * np.linalg_norm ref) in
  let score := similarity in
  let is_match := SIMILARITY_THRESHOLD <=? score in
  Return {| is_match := is_match; score := score |}.

End Analyzer.

End face_analyzer.

(** ** src/multiple.py *)

Module multiple.

Local Open Scope float_scope.

Import dict dtype provider.

(** The float sum of the builtin [sum]: its rounding depends on the
    interpreter (a plain running sum before CPython 3.12, a compensated one
    since), so it is a parameter. *)
Class FloatSum : Type := float_sum : list float -> float.

(** The running sum from the integer zero. *)
Definition running_sum : FloatSum := fun xs => fold_left PrimFloat.add xs 0.

Definition cosine_similarity `{np.Blas} (u v : np.ndarray) : outcome float :=
  d ← np.dot u v;
  Return (d / (np.linalg_norm u * np.linalg_norm v)).

(** One turn of the loop of [get_embeddings]: an exception of the model is
    logged and the model skipped. *)
Definition get_embeddings_step `{Vision} (img_np : pixels)
  (st : dict (list F32.f32) * bool) (app : string * FaceAnalysis)
  : dict (list F32.f32) * bool :=
  let '(embs, face_detected) := st in
  let '(name, fa) := app in
  match fa img_np with
  | Return (face :: _) => (setitem embs name (embedding face), true)
  | Return [] => (embs, face_detected)
  | Raise _ => (embs, face_detected)
  end.

Definition get_embeddings `{Vision} (apps : dict FaceAnalysis) (img_np : pixels)
  : outcome (dict (list F32.f32)) :=
  let '(embs, face_detected) :=
    fold_left (get_embeddings_step img_np) apps ([], false) in
  if negb face_detected
  then Raise (ValueError "No face detected by any available model")
  else Return embs.

Section Aggregate.
Context {E : Type} `{Dtype E} `{FloatSum}.

(** [weights.get(name, 0)]: the integer default acts as the float zero in
    the sum and in the quotient. *)
Definition weights_get (weights : gmap string float) (name : string) : float :=
  default 0 (weights !! name).

(** [{name: 1.0 / len(embs) for name in embs}]. *)
Definition equal_weights (embs : dict (list E)) : gmap string float :=
  list_to_map
    (map (fun name => (name, 1 / float_of_Z (Z.of_nat (length embs)))) (keys embs)).

(** [sum(normalized_weights[name] * embs[name] for name in embs)], from the
    accumulator reached so far: the generator yields a term, [sum] adds it. *)
Fixpoint sum_terms (normalized_weights : dict float) (embs : dict (list E))
  (acc : value E) (names : list string) : outcome (value E) :=
  match names with
  | [] => Return acc
  | name :: rest =>
      w ← getitem normalized_weights name;
      e ← getitem embs name;
      acc' ← add_value acc (scale w e);
      sum_terms normalized_weights embs acc' rest
  end.

Definition aggregate_embeddings (embs : dict (list E))
  (weights : option (gmap string float)) : outcome (value E) :=
  match embs with
  | [] => Raise (ValueError "No embeddings to aggregate")
  | _ =>
      let weights :=
        match weights with
        | None => equal_weights embs
        | Some w => w
        end in
      let total_weight := float_sum (map (weights_get weights) (keys embs)) in
      if total_weight =? 0 then Raise (ValueError "Total weight cannot be zero")
      else
        let normalized_weights : dict float :=
          map (fun name => (name, weights_get weights name / total_weight)) (keys embs) in
        sum_terms normalized_weights embs (PyInt 0) (keys embs)
  end.

End Aggregate.

End multiple.

(** ** app/core/database.py: the SQLite store

    One table, [profile], whose primary key is an INTEGER PRIMARY KEY and so
    the table's rowid.  The table, when it exists, is the list of its rows in
    ascending rowid order, which is the order a scan of the table returns.
    No route deletes or updates a row.  A key or a bound of a request is a
    Python [int] of any size, and SQLite holds signed 64-bit integers: the
    driver refuses to bind a larger one. *)

Module database.

Local Open Scope Z_scope.

Record db : Type := { profile_table : option (list Profile) }.

(** [SQLModel.metadata.drop_all(engine)]. *)
Definition drop_all (d : db) : db := {| profile_table := None |}.

(** [SQLModel.metadata.create_all(engine)]: a missing table is created
    empty, an existing one is left alone. *)
Definition create_all (d : db) : db :=
  {| profile_table := Some (default [] (profile_table d)) |}.

Definition create_db_and_tables (d : db) : db :=
  let d := drop_all d in
  create_all d.

Definition rows (d : db) : outcome (list Profile) :=
  match profile_table d with
  | Some rs => Return rs
  | None => Raise (OperationalError "no such table: profile")
  end.

(** The integers SQLite holds. *)
Definition int64 (n : Z) : bool := (- 2 ^ 63 <=? n) && (n <? 2 ^ 63).

(** What the sqlite3 driver raises when it is to bind another integer: the
    statement has been prepared by then, so a missing table is reported
    before. *)
Definition too_large : exn :=
  OverflowError "Python int too large to convert to SQLite INTEGER".

(** [session.get(Profile, pk)]. *)
Definition session_get (d : db) (pk : Z) : outcome (option Profile) :=
  rs ← rows d;
  if int64 pk then Return (find (fun p => id p =? pk) rs)
  else Raise too_large.

(** The rowid SQLite gives a new row: one more than the largest in use, 1 in
    an empty table. *)
Definition next_rowid (rs : list Profile) : Z :=
  1 + fold_right Z.max 0 (map id rs).

(** A row enters the table at the place of its rowid. *)
Fixpoint insert_row (p : Profile) (rs : list Profile) : list Profile :=
  match rs with
  | [] => [p]
  | r :: rest => if id p <? id r then p :: r :: rest else r :: insert_row p rest
  end.

(** [session.add(profile); session.commit(); session.refresh(profile)] for a
    profile built without an id: the stored row comes back with its id.
    Past the largest rowid there is none to give: SQLite then tries rowids at
    random and reports a full database when a hundred of them are taken.  No
    route sets an id and every start empties the table, so the application
    does not get there; the random search is left out, the insert fails at
    once. *)
Definition session_add (d : db) (description : string) (embedding : list float)
  (created_at : Z) : outcome (Profile * db) :=
  rs ← rows d;
  let profile := {| id := next_rowid rs; description := description;
                    embedding := embedding; created_at := created_at |} in
  if int64 (id profile)
  then Return (profile, {| profile_table := Some (insert_row profile rs) |})
  else Raise (OperationalError "database or disk is full").

(** [select(Profile).offset(skip).limit(limit)]: both bounds are bound to
    the statement, and SQLite reads a negative OFFSET as zero and a negative
    LIMIT as no limit. *)
Definition select_offset_limit (d : db) (skip limit : Z) : outcome (list Profile) :=
  rs ← rows d;
  if int64 limit && int64 skip then
    let after := drop (Z.to_nat skip) rs in
    Return (if limit <? 0 then after else take (Z.to_nat limit) after)
  else Raise too_large.

End database.

(** ** app/routers/profiles.py *)

Module profiles.

Local Open Scope Z_scope.

Import config provider database face_analyzer.

Section Routes.
Context `{Vision} `{Environ} `{np.Blas}.

(** [try: Image.open(BytesIO(...)) except Exception as e: raise
    HTTPException(400, ...)]; [address] is where the [BytesIO] object of the
    request lies. *)
Definition open_upload (file : list Byte.byte) (address : Z) : outcome Image :=
  match Image_open address file with
  | Return image => Return image
  | Raise e => Raise (HTTPException 400 ("Invalid image file: " ++ str_exn e))
  end.

(** POST /profiles; [now] is the clock read for [created_at]. *)
Definition create_profile (face_analyzer : FaceAnalyzer) (d : db)
  (file : list Byte.byte) (address : Z) (now : Z) : outcome (Profile * db) :=
  image ← open_upload file address;
  '(description, embedding) ← analyze_face face_analyzer image;
  match embedding with
  | None => Raise (HTTPException 400 "No face detected in image")
  | Some embedding => session_add d description embedding now
  end.

(** GET /profiles/{profile_id}. *)
Definition get_profile (d : db) (profile_id : Z) : outcome Profile :=
  profile ← session_get d profile_id;
  match profile with
  | None => Raise (HTTPException 404 "Profile not found")
  | Some profile => Return profile
  end.

(** GET /profiles; an absent query parameter takes its default. *)
Definition list_profiles (d : db) (skip limit : option Z) : outcome (list Profile) :=
  let skip := default 0 skip in
  let limit := default 100 limit in
  select_offset_limit d skip limit.

(** POST /verify/{profile_id}. *)
Definition verify_face (face_analyzer : FaceAnalyzer) (d : db) (profile_id : Z)
  (file : list Byte.byte) (address : Z) : outcome VerificationResult :=
  profile ← session_get d profile_id;
  match profile with
  | None => Raise (HTTPException 404 "Profile not found")
  | Some profile =>
      image ← open_upload file address;
      probe_embedding ← get_face_embedding face_analyzer image;
      match probe_embedding with
      | None => Raise (HTTPException 400 "No face detected in image")
      | Some probe_embedding =>
          verify_faces (map F32.to_float probe_embedding) (models.embedding profile)
      end
  end.

End Routes.

End profiles.

(** ** app/main.py *)

Module main.

Definition on_startup (d : database.db) : database.db :=
  database.create_db_and_tables d.

End main.

(** ** The words of the specification, and the notions the proofs use *)

Module spec.

Local Open Scope float_scope.

Import dict dtype multiple provider database face_analyzer profiles.

(** The score of the specification: [dot(u, v) / (norm(u) * norm(v))]. *)
Definition cosine `{np.Blas} (u v : list float) : float :=
  np.ddot u v / (np.linalg_norm u * np.linalg_norm v).

(** The threshold of the specification: a float, 0.6 by default, overridable
    through the configuration, here the text of the environment variable. *)
Definition threshold `{config.Environ} (configured : option string) : float :=
  match configured with
  | Some text => config.py_float text
  | None => 0.6
  end.

(** The specification's [verify]: the score, and
    [is_match = (score >= threshold)]. *)
Definition verify `{np.Blas} (probe ref : list float) (threshold : float)
  : VerificationResult :=
  {| is_match := threshold <=? cosine probe ref; score := cosine probe ref |}.

Section Aggregation.
Context {E : Type} `{Dtype E} `{FloatSum}.

(** The weights in force: those supplied, or the equal ones. *)
Definition weights_used (embs : dict (list E)) (weights : option (gmap string float))
  : gmap string float :=
  match weights with
  | None => equal_weights embs
  | Some w => w
  end.

(** The sum of the weights of the models present. *)
Definition weight_sum (embs : dict (list E)) (w : gmap string float) : float :=
  float_sum (map (weights_get w) (keys embs)).

(** The specification's [effective_weight[m]]. *)
Definition effective_weight (embs : dict (list E)) (w : gmap string float)
  (m : string) : float :=
  weights_get w m / weight_sum embs w.

(** The specification's [embeddings_by_model[m]]. *)
Definition embedding_of (embs : dict (list E)) (m : string) : list E :=
  default [] (get embs m).

(** Coordinate [i] of the sum over [models] of
    [effective_weight[m] * embeddings_by_model[m]], the sum starting from
    zero. *)
Definition weighted_at (embs : dict (list E)) (w : gmap string float)
  (models : list string) (i : nat) : E :=
  fold_left
    (fun acc m =>
       dt_add acc (dt_mul (of_scalar (effective_weight embs w m))
                          (nth i (embedding_of embs m) (of_int 0))))
    models (of_int 0).

(** The fused embedding of the specification, of dimension [dim]. *)
Definition fused (embs : dict (list E)) (w : gmap string float) (dim : nat) : list E :=
  map (weighted_at embs w (keys embs)) (seq 0 dim).

(** The table [normalized_weights] of the code. *)
Definition normalized (embs : dict (list E)) (w : gmap string float) : dict float :=
  map (fun name => (name, weights_get w name / weight_sum embs w)) (keys embs).

(** The names still to visit all have a weight and an embedding. *)
Definition known (nw : dict float) (embs : dict (list E)) (names : list string) : Prop :=
  forall n, n ∈ names -> (exists w, get nw n = Some w) /\ (exists e, get embs n = Some e).

(** An accumulator that any array can still be added to: the starting
    integer, or an array of length one. *)
Definition stretchable (acc : value E) : Prop :=
  match acc with
  | PyInt _ => True
  | NdArray a => length a = 1%nat
  end.

End Aggregation.

(** The fields a client supplies for a row. *)
Definition same_fields (p : Profile) (description : string)
  (embedding : list float) (created_at : Z) : Prop :=
  models.description p = description
  /\ models.embedding p = embedding
  /\ models.created_at p = created_at.

Section Uploads.
Context `{Vision}.

(** The profiles a sequence of uploads creates, in the order of the
    requests; a refused upload creates nothing.  An upload is its bytes, the
    address of its [BytesIO] object and the time of the request. *)
Fixpoint create_profiles (face_analyzer : FaceAnalyzer) (d : db)
  (uploads : list (list Byte.byte * Z * Z)) : list Profile * db :=
  match uploads with
  | [] => ([], d)
  | (file, address, now) :: rest =>
      match create_profile face_analyzer d file address now with
      | Return (p, d') =>
          let '(ps, d'') := create_profiles face_analyzer d' rest in
          (p :: ps, d'')
      | Raise _ => create_profiles face_analyzer d rest
      end
  end.

End Uploads.

Local Open Scope Z_scope.

(** The float a rounded mantissa [mr], between 2^52 and 2^53, makes with the
    exponent [e]. *)
Definition pack (sx : bool) (mr e : Z) : spec_float :=
  if mr <? 2 ^ 53
  then (if e <=? 971 then S754_finite sx (Z.to_pos mr) e else S754_infinity sx)
  else (if e + 1 <=? 971 then S754_finite sx (Z.to_pos (2 ^ 52)) (e + 1)
        else S754_infinity sx).

(** A normal positive binary64 number: 53 digits of mantissa, exponent in
    range. *)
Definition normal (m : positive) (e : Z) : Prop :=
  2 ^ 52 <= Z.pos m < 2 ^ 53 /\ -1074 <= e <= 971.

(** Two binary64 numbers inside the tolerance 1e-6 of the specification
    around one: 1 - 2^-20 and 1 + 2^-20. *)
Definition lo : spec_float := S754_finite false (2 ^ 53 - 2 ^ 33) (-53).
Definition hi : spec_float := S754_finite false (2 ^ 52 + 2 ^ 32) (-52).

Definition near_one (c : spec_float) : Prop :=
  SFleb lo c = true /\ SFleb c hi = true.

(** The same bounds as primitive floats. *)
Definition below_one : float := 0x1.ffffep-1.
Definition above_one : float := 0x1.00001p+0.

(** What a rounding record holds after [k] digits of [m0] were shifted
    out: the digits that are left, and where those shifted out lie against
    one half of the last place. *)
Definition shifted (m0 k : Z) (mrs : shr_record) : Prop :=
  let rem := m0 - shr_m mrs * 2 ^ k in
  0 <= rem < 2 ^ k
  /\ match shr_r mrs, shr_s mrs with
     | false, false => rem = 0
     | false, true => 0 < 2 * rem < 2 ^ k
     | true, false => 2 * rem = 2 ^ k
     | true, true => 2 ^ k < 2 * rem
     end.

End spec.

(** ** Concrete collaborators, for running the model *)

Module fixtures.

Import config provider.

Local Open Scope Z_scope.

(** A reader of plain decimals such as [0.6] (the point is character 46):
    the digits as an integer, divided by the power of ten of the digits
    after the point (correctly rounded while both are below 2^53). *)
Fixpoint read_decimal (s : string) (seen_point : bool) (mant : Z) (frac_digits : nat)
  : Z * nat :=
  match s with
  | EmptyString => (mant, frac_digits)
  | String c rest =>
      if Ascii.eqb c (Ascii.ascii_of_nat 46) then read_decimal rest true mant frac_digits
      else
        let d := (Z.of_nat (Ascii.nat_of_ascii c) - 48)%Z in
        read_decimal rest seen_point (10 * mant + d)%Z
          (if seen_point then S frac_digits else frac_digits)
  end.

Definition decimal_float (s : string) : float :=
  let '(m, k) := read_decimal s false 0%Z 0%nat in
  (PrimFloat.of_uint63 (Uint63.of_Z m)
   / PrimFloat.of_uint63 (Uint63.of_Z (10 ^ Z.of_nat k)))%float.

Lemma decimal_float_default : decimal_float "0.6" = 0.6%float.
Proof. vm_compute. reflexivity. Qed.

(** An environment that sets [vars]. *)
Definition environ_of (vars : gmap string string) : Environ :=
  {| environ := vars; py_float := decimal_float;
     py_float_default := decimal_float_default |}.

(** The environment of a process started with no variable set. *)
Definition bare_environ : Environ := environ_of ∅.

(** An environment that asks for a stricter threshold. *)
Definition strict_environ : Environ :=
  environ_of {[ "SIMILARITY_THRESHOLD"%string := "0.9"%string ]}.

(** A stand-in for the imaging stack: an upload is its bytes, an empty
    upload is not an image, and the colour conversion always succeeds. *)
Definition stub_vision : Vision :=
  {| Image := list Byte.byte;
     pixels := list Byte.byte;
     Image_load := fun file =>
       match file with
       | [] => None
       | _ => Some file
       end;
     Image_error := fun address _ =>
       Exception ("cannot identify image file <_io.BytesIO object at "
                  ++ pretty address ++ ">");
     np_array := fun image => image;
     cvtColor_RGB2BGR := fun img => Return img |}.

(** A model that finds [faces] in every image. *)
Definition finds (faces : list Face) : @FaceAnalysis stub_vision :=
  fun _ => Return faces.

(** A face from integer coordinates: the corners of its box, its five
    landmarks and its embedding. *)
Definition pt (x y : Z) : point := (F32.of_Z x, F32.of_Z y).

Definition face_of (x1 y1 x2 y2 : Z) (l_eye r_eye nose l_mouth r_mouth : Z * Z)
  (emb : list Z) : Face :=
  {| bbox := {| b0 := F32.of_Z x1; b1 := F32.of_Z y1;
                b2 := F32.of_Z x2; b3 := F32.of_Z y2 |};
     kps := {| k0 := pt l_eye.1 l_eye.2; k1 := pt r_eye.1 r_eye.2;
               k2 := pt nose.1 nose.2; k3 := pt l_mouth.1 l_mouth.2;
               k4 := pt r_mouth.1 r_mouth.2 |};
     embedding := map F32.of_Z emb |}.

Definition alice : Face :=
  face_of 0 0 100 120 (30, 40)%Z (70, 40)%Z (50, 66)%Z (35, 90)%Z (65, 90)%Z
    [3; 4; 0]%Z.

Definition bob : Face :=
  face_of 200 10 280 90 (220, 40)%Z (260, 40)%Z (240, 55)%Z (225, 70)%Z (255, 70)%Z
    [0; 1; 2]%Z.

(** The two models of the examples: [a] with the embedding [(2, 4)], [b] with
    [(4, 8)], as float64 arrays, summed by the running sum. *)
Definition two_models : dict.dict (list float) :=
  [("a"%string, [2; 4]%float); ("b"%string, [4; 8]%float)].

Definition two_faces : @face_analyzer.FaceAnalyzer stub_vision :=
  {| face_analyzer.face_app := finds [alice; bob] |}.

Definition one_face : @face_analyzer.FaceAnalyzer stub_vision :=
  {| face_analyzer.face_app := finds [alice] |}.

(** A running instance: a model that finds one face in every image, three
    uploads, and a store with a row left from an earlier run. *)
Definition camera : @face_analyzer.FaceAnalyzer stub_vision :=
  {| face_analyzer.face_app := finds [alice] |}.

(** A model that finds no face in any image. *)
Definition nobody : @face_analyzer.FaceAnalyzer stub_vision :=
  {| face_analyzer.face_app := finds [] |}.

Definition photo : list Byte.byte := [Byte.x89; Byte.x50; Byte.x4e; Byte.x47].

Definition three_uploads : list (list Byte.byte * Z * Z) :=
  [(photo, 4096%Z, 1000%Z); (photo, 8192%Z, 1001%Z); (photo, 4096%Z, 1002%Z)].

Definition old_store : database.db :=
  {| database.profile_table :=
       Some [Build_Profile 7 "left over" [1%float] 999] |}.

(** What the three uploads create in the store restarted over [old_store]. *)
Definition three_created : list Profile * database.db :=
  @spec.create_profiles stub_vision camera (main.on_startup old_store)
    three_uploads.

End fixtures.

(** ** The loop of [get_embeddings], said directly *)

Module outline.

Import dict provider.

Section Models.
Context `{Vision}.

(** What one model contributes for an image: the embedding of the first face
    it detects, nothing when it detects none or fails. *)
Definition first_embedding (img_np : pixels) (app : string * FaceAnalysis)
  : option (string * list F32.f32) :=
  match app.2 img_np with
  | Return (face :: _) => Some (app.1, embedding face)
  | Return [] => None
  | Raise _ => None
  end.

(** The contributions of the models, in the order of the models. *)
Definition detections (apps : dict FaceAnalysis) (img_np : pixels)
  : dict (list F32.f32) :=
  omap (first_embedding img_np) apps.

End Models.

End outline.

(** ** src/multiple.py: loading the models, and the endpoints

    Log lines are left out: they reach no caller. *)

Module service.

Local Open Scope float_scope.

Import dict dtype provider multiple.

(** What the [n]-th construction of a model in the process gives:
    [FaceAnalysis(name=..., providers=[...])] followed by
    [fa.prepare(ctx_id=0)]. *)
Class Loader `{Vision} : Type := {
  FaceAnalysis_prepare : string -> nat -> outcome FaceAnalysis
}.

(** An attribute read off a face: not there ([hasattr] is false), there with
    the value [None], or there with a value. *)
Inductive attribute (A : Type) : Type :=
| Missing
| Null
| Attr (a : A).
Arguments Missing {A}.
Arguments Null {A}.
Arguments Attr {A} a.

(** What the endpoints use besides the models: Pillow's [convert("RGB")],
    the detection score of a face, the bytes of a float32 array and
    [hashlib.sha256(b).hexdigest()]. *)
Class Runtime `{Vision} : Type := {
  convert_RGB : Image -> outcome Image;
  det_score : Face -> attribute F32.f32;
  tobytes : list F32.f32 -> list Byte.byte;
  sha256_hexdigest : list Byte.byte -> string
}.

Definition PREFERRED_MODELS : list string := ["buffalo_l"%string].

(** [range(n)]. *)
Definition range (n : Z) : list Z := map Z.of_nat (seq 0 (Z.to_nat n)).

Section Loading.
Context `{Loader}.

(** The loop of [initialize_model] over the attempts still to make, [made]
    constructions having been made in the process so far; the result comes
    with the number made afterwards. *)
Fixpoint initialize_model_loop (name : string) (max_retries : Z)
  (attempts : list Z) (made : nat) : option FaceAnalysis * nat :=
  match attempts with
  | [] => (None, made)
  | attempt :: rest =>
      match FaceAnalysis_prepare name made with
      | Return fa => (Some fa, S made)
      | Raise _ =>
          if (attempt =? max_retries - 1)%Z then (None, S made)
          else initialize_model_loop name max_retries rest (S made)
      end
  end.

Definition initialize_model (name : string) (max_retries : Z) (made : nat)
  : option FaceAnalysis * nat :=
  initialize_model_loop name max_retries (range max_retries) made.

(** One turn of [for name in PREFERRED_MODELS], with the default
    [max_retries] of 2. *)
Definition load_step (st : dict FaceAnalysis * nat) (name : string)
  : dict FaceAnalysis * nat :=
  let '(apps, made) := st in
  match initialize_model name 2 made with
  | (Some fa, made) => (setitem apps name fa, made)
  | (None, made) => (apps, made)
  end.

(** What importing the module ends in: the loaded [apps], or the
    [RuntimeError] that stops the service from starting. *)
Inductive imported : Type :=
| Apps (apps : dict FaceAnalysis)
| RuntimeError (msg : string).

Definition load_models (preferred : list string) : imported :=
  let '(apps, _) := fold_left load_step preferred ([], 0%nat) in
  match apps with
  | [] => RuntimeError "No face analysis models could be initialized"
  | _ => Apps apps
  end.

End Loading.

(** The response model [Profile], which is also the dictionary
    [analyze_face] returns. *)
Record Profile : Type := {
  embeddings : dict (list float);
  aggregated : list float;
  hash : string;
  landmarks : list (list float);
  models_used : list string;
  confidence_scores : dict float
}.

Record UploadFile : Type := {
  content_type : option string;
  content : list Byte.byte
}.

Record Comparison : Type := {
  similarities : dict float;
  models_compared : list string;
  same_person_likely : bool
}.

Record Health : Type := {
  status : string;
  models_available : list string;
  total_models : nat
}.

Record Models : Type := {
  loaded_models : list string;
  total_loaded : nat;
  attempted_models : list string
}.

Section Endpoints.
Context `{Runtime} `{FloatSum} `{np.Blas}.

(** [hash_embedding] of a float32 array, which [astype(np.float32)]
    leaves as it is. *)
Definition hash_embedding (emb : list F32.f32) : string :=
  sha256_hexdigest (tobytes emb).

(** [face.kps.tolist()]. *)
Definition kps_tolist (l : provider.landmarks) : list (list float) :=
  map (fun p : point => [F32.to_float p.1; F32.to_float p.2])
      [k0 l; k1 l; k2 l; k3 l; k4 l].

(** One turn of the second loop of [analyze_face]: the landmarks come from
    the first model that sees a face, the confidence from each that does;
    [float(None)] raises, and the exception is swallowed with what is left
    of the turn. *)
Definition additional_data (img : pixels) (st : list (list float) * dict float)
  (app : string * FaceAnalysis) : list (list float) * dict float :=
  let '(landmarks, confidence_scores) := st in
  let '(name, fa) := app in
  match fa img with
  | Return (face :: _) =>
      let landmarks :=
        match landmarks with
        | [] => kps_tolist (kps face)
        | _ :: _ => landmarks
        end in
      match det_score face with
      | Attr s => (landmarks, setitem confidence_scores name (F32.to_float s))
      | Null => (landmarks, confidence_scores)
      | Missing => (landmarks, setitem confidence_scores name 1)
      end
  | Return [] => st
  | Raise _ => st
  end.

(** The body of the [try] of [analyze_face]. *)
Definition analyze_face_try (apps : dict FaceAnalysis) (pil_img : Image)
  : outcome Profile :=
  rgb ← convert_RGB pil_img;
  let img := np_array rgb in
  embs ← get_embeddings apps img;
  match embs with
  | [] => Raise (ValueError "No embeddings could be extracted")
  | _ :: _ =>
      agg ← aggregate_embeddings embs None;
      let '(landmarks, confidence_scores) :=
        fold_left (additional_data img) apps ([], []) in
      match agg with
      | PyInt _ => Raise (Exception "'int' object has no attribute 'astype'")
      | NdArray agg =>
          let emb_hash := hash_embedding agg in
          Return {| embeddings := map (fun entry => (entry.1, map F32.to_float entry.2)) embs;
                    aggregated := map F32.to_float agg;
                    hash := emb_hash;
                    landmarks := landmarks;
                    models_used := keys embs;
                    confidence_scores := confidence_scores |}
      end
  end.

(** [analyze_face]: whatever the body raises comes out as a 422. *)
Definition analyze_face (apps : dict FaceAnalysis) (pil_img : Image)
  : outcome Profile :=
  match analyze_face_try apps pil_img with
  | Return profile_data => Return profile_data
  | Raise e => Raise (HTTPException 422 ("Face analysis failed: " ++ str_exn e))
  end.

(** GET /. *)
Definition root (apps : dict FaceAnalysis) : Health :=
  {| status := "healthy";
     models_available := keys apps;
     total_models := length apps |}.

(** GET /models. *)
Definition get_models (apps : dict FaceAnalysis) : Models :=
  {| loaded_models := keys apps;
     total_loaded := length apps;
     attempted_models := PREFERRED_MODELS |}.

(** [file.content_type and file.content_type.startswith('image/')]. *)
Definition is_image (file : UploadFile) : bool :=
  match content_type file with
  | Some t => String.prefix "image/" t
  | None => false
  end.

(** POST /create-profile; [address] is where the [BytesIO] object lies. *)
Definition create_profile (apps : dict FaceAnalysis) (file : UploadFile)
  (address : Z) : outcome Profile :=
  if negb (is_image file)
  then Raise (HTTPException 400 "File must be an image")
  else
    match (let image_data := content file in
           img ← Image_open address image_data;
           profile_data ← analyze_face apps img;
           Return profile_data) with
    | Return profile => Return profile
    | Raise e => Raise (HTTPException 500 ("Processing failed: " ++ str_exn e))
    end.

(** The loop [for model in profile1["embeddings"]] of [compare_faces]. *)
Fixpoint compare_models (embeddings1 embeddings2 : dict (list float))
  (similarities : dict float) (models : list string) : outcome (dict float) :=
  match models with
  | [] => Return similarities
  | model :: rest =>
      match get embeddings2 model with
      | Some _ =>
          emb1 ← getitem embeddings1 model;
          emb2 ← getitem embeddings2 model;
          s ← cosine_similarity emb1 emb2;
          compare_models embeddings1 embeddings2
            (setitem similarities ("model_" ++ model) s) rest
      | None => compare_models embeddings1 embeddings2 similarities rest
      end
  end.

(** The body of the [try] of [compare_faces]; the two [BytesIO] objects lie
    at [address1] and [address2]. *)
Definition compare_faces_try (apps : dict FaceAnalysis) (file1 file2 : UploadFile)
  (address1 address2 : Z) : outcome Comparison :=
  let img1_data := content file1 in
  let img2_data := content file2 in
  img1 ← Image_open address1 img1_data;
  img2 ← Image_open address2 img2_data;
  profile1 ← analyze_face apps img1;
  profile2 ← analyze_face apps img2;
  let agg1 := aggregated profile1 in
  let agg2 := aggregated profile2 in
  s ← cosine_similarity agg1 agg2;
  let similarities := setitem [] "aggregated" s in
  similarities ← compare_models (embeddings profile1) (embeddings profile2)
                   similarities (keys (embeddings profile1));
  aggregated_similarity ← getitem similarities "aggregated";
  Return {| similarities := similarities;
            models_compared := models_used profile1;
            same_person_likely := 0.6 <? aggregated_similarity |}.

(** POST /compare-faces. *)
Definition compare_faces (apps : dict FaceAnalysis) (file1 file2 : UploadFile)
  (address1 address2 : Z) : outcome Comparison :=
  match compare_faces_try apps file1 file2 address1 address2 with
  | Return r => Return r
  | Raise e => Raise (HTTPException 500 ("Comparison failed: " ++ str_exn e))
  end.

End Endpoints.

End service.

(** ** Stand-ins for the loader and the runtime, for running the endpoints *)

Module stubs.

Import provider service.

(** A loader whose first construction fails and whose later ones give a
    model that finds [fixtures.alice]. *)
Definition flaky_loader : @Loader fixtures.stub_vision :=
  {| FaceAnalysis_prepare := fun name made =>
       match made with
       | O => Raise (Exception "CUDAExecutionProvider is not available")
       | S _ => Return (fixtures.finds [fixtures.alice])
       end |}.

(** A runtime in which every image converts, every face has the detection
    score one, and the digest is a fixed text. *)
Definition plain_runtime : @Runtime fixtures.stub_vision :=
  {| convert_RGB := fun image => Return image;
     det_score := fun _ => Attr (F32.of_Z 1);
     tobytes := fun emb => repeat Byte.x00 (4 * length emb);
     sha256_hexdigest := fun _ => "digest"%string |}.

Definition png (data : list Byte.byte) : UploadFile :=
  {| content_type := Some "image/png"%string; content := data |}.

(** The [apps] of a service that loaded one model. *)
Definition one_model : dict.dict (@FaceAnalysis fixtures.stub_vision) :=
  [("buffalo_l"%string, fixtures.finds [fixtures.alice])].

(** A model that sees no face. *)
Definition blind : dict.dict (@FaceAnalysis fixtures.stub_vision) :=
  [("buffalo_l"%string, fixtures.finds [])].

End stubs.

(** * Properties *)

(** ** Binary64 facts: zeros, NaN and the infinities *)

Module float_facts.

Local Open Scope float_scope.

Lemma Prim2SF_zero : Prim2SF zero = S754_zero false.
Proof. reflexivity. Qed.

Lemma Prim2SF_infinity : Prim2SF infinity = S754_infinity false.
Proof. reflexivity. Qed.

Lemma is_zero_spec (x : float) :
  is_zero x = true <-> exists s, Prim2SF x = S754_zero s.
Proof.
  unfold is_zero. rewrite FloatAxioms.eqb_spec, Prim2SF_zero.
  destruct (Prim2SF x) as [s|s| |s m e]; cbn; split;
    try discriminate; eauto; try (intros [? ?]; discriminate);
    destruct s; cbn; discriminate.
Qed.

Lemma is_nan_spec (x : float) : is_nan x = true <-> Prim2SF x = S754_nan.
Proof.
  unfold is_nan. rewrite FloatAxioms.eqb_spec.
  destruct (Prim2SF x) as [s|s| |s m e]; cbn; split; try discriminate; eauto.
  - destruct s; discriminate.
  - unfold SFeqb, SFcompare.
    destruct s; rewrite Z.compare_refl, Pos.compare_cont_refl; discriminate.
Qed.

Lemma is_infinity_spec (x : float) :
  is_infinity x = true <-> exists s, Prim2SF x = S754_infinity s.
Proof.
  unfold is_infinity.
  rewrite FloatAxioms.eqb_spec, abs_spec, Prim2SF_infinity.
  destruct (Prim2SF x) as [s|s| |s m e]; cbn; split;
    try discriminate; eauto; intros [? ?]; discriminate.
Qed.

(** A product with a zero factor is a zero or NaN. *)
Lemma mul_zero_factor (a b : float) :
  is_zero a = true \/ is_zero b = true ->
  is_zero (a * b) = true \/ is_nan (a * b) = true.
Proof.
  rewrite !is_zero_spec, is_nan_spec, mul_spec. unfold SF64mul.
  intros [[s Hs]|[s Hs]]; rewrite Hs.
  - destruct (Prim2SF b); cbn; eauto.
  - destruct (Prim2SF a); cbn; eauto.
Qed.

(** A quotient by a zero or by NaN is NaN or an infinity. *)
Lemma div_zero_divisor (x d : float) :
  is_zero d = true \/ is_nan d = true ->
  is_nan (x / d) = true \/ is_infinity (x / d) = true.
Proof.
  rewrite is_zero_spec, !is_nan_spec, is_infinity_spec, div_spec.
  unfold SF64div.
  intros [[s Hs]|Hs]; rewrite Hs; destruct (Prim2SF x); cbn; eauto.
Qed.

(** NaN is below no threshold. *)
Lemma leb_nan (t x : float) : is_nan x = true -> (t <=? x) = false.
Proof.
  rewrite is_nan_spec, leb_spec. intros ->.
  unfold SFleb. destruct (Prim2SF t); reflexivity.
Qed.

End float_facts.

(** ** Binary64 rounding of square root, product and quotient

    The operations of [SpecFloat] at precision 53, on normal numbers: each
    returns the 53 leading digits of the exact result, or one more. *)

Module binary64.

Local Open Scope Z_scope.

Import spec.

(** The number of binary digits of a positive number. *)
Lemma digits2_bounds (p : positive) :
  2 ^ (Z.pos (digits2_pos p) - 1) <= Z.pos p < 2 ^ Z.pos (digits2_pos p).
Proof.
  induction p as [p IH|p IH|]; cbn [digits2_pos].
  - rewrite Pos2Z.inj_succ. change (Z.pos p~1) with (2 * Z.pos p + 1).
    replace (Z.succ (Z.pos (digits2_pos p)) - 1)
      with (Z.succ (Z.pos (digits2_pos p) - 1)) by lia.
    rewrite !Z.pow_succ_r; lia.
  - rewrite Pos2Z.inj_succ. change (Z.pos p~0) with (2 * Z.pos p).
    replace (Z.succ (Z.pos (digits2_pos p)) - 1)
      with (Z.succ (Z.pos (digits2_pos p) - 1)) by lia.
    rewrite !Z.pow_succ_r; lia.
  - cbn. lia.
Qed.

Lemma digits2_unique (p : positive) (d : Z) :
  2 ^ (d - 1) <= Z.pos p < 2 ^ d -> Z.pos (digits2_pos p) = d.
Proof.
  intros [Hlo Hhi]. pose proof (digits2_bounds p) as [Hlo' Hhi'].
  assert (Hd : 0 < d).
  { destruct (Z.ltb_spec 0 d) as [|Hle]; [assumption|].
    destruct (Z.eq_dec d 0) as [->|Hne]; [cbn in Hhi; lia|].
    rewrite Z.pow_neg_r in Hhi by lia. lia. }
  destruct (Z.lt_trichotomy (Z.pos (digits2_pos p)) d) as [Hlt|[Heq|Hgt]];
    [|exact Heq|].
  - assert (2 ^ Z.pos (digits2_pos p) <= 2 ^ (d - 1))
      by (apply Z.pow_le_mono_r; lia). lia.
  - assert (2 ^ d <= 2 ^ (Z.pos (digits2_pos p) - 1))
      by (apply Z.pow_le_mono_r; lia). lia.
Qed.

(** Shifting a rounding record right halves its mantissa. *)
Lemma shr_1_m (mrs : shr_record) :
  0 <= shr_m mrs -> shr_m (shr_1 mrs) = shr_m mrs / 2.
Proof.
  destruct mrs as [m r s]. cbn [shr_m]. intros Hm.
  destruct m as [|p|p]; [reflexivity| |lia].
  destruct p as [p|p|]; cbn [shr_1 shr_m].
  - change (Z.pos p~1) with (2 * Z.pos p + 1).
    apply Z.div_unique with (r := 1); lia.
  - change (Z.pos p~0) with (2 * Z.pos p).
    apply Z.div_unique with (r := 0); lia.
  - reflexivity.
Qed.

Lemma iter_shr_m (k : positive) (mrs : shr_record) :
  0 <= shr_m mrs ->
  shr_m (SpecFloat.iter_pos shr_1 k mrs) = shr_m mrs / 2 ^ Z.pos k.
Proof.
  revert mrs. induction k as [k IH|k IH|]; intros mrs Hm; cbn [SpecFloat.iter_pos].
  - assert (H1 : 0 <= shr_m (shr_1 mrs))
      by (rewrite shr_1_m by assumption; apply Z.div_pos; lia).
    assert (H2 : 0 <= shr_m (SpecFloat.iter_pos shr_1 k (shr_1 mrs)))
      by (rewrite IH by assumption; apply Z.div_pos; lia).
    rewrite IH, IH, shr_1_m by assumption.
    rewrite !Z.div_div by lia. f_equal.
    rewrite Pos2Z.inj_xI, <- Z.pow_add_r, <- Z.pow_succ_r by lia. f_equal. lia.
  - assert (H2 : 0 <= shr_m (SpecFloat.iter_pos shr_1 k mrs))
      by (rewrite IH by assumption; apply Z.div_pos; lia).
    rewrite IH, IH by assumption.
    rewrite !Z.div_div by lia. f_equal.
    rewrite Pos2Z.inj_xO, <- Z.pow_add_r by lia. f_equal. lia.
  - rewrite shr_1_m by assumption. reflexivity.
Qed.

Lemma round_nearest_even_range (m : Z) (l : location) :
  round_nearest_even m l = m \/ round_nearest_even m l = m + 1.
Proof.
  destruct l as [|[| |]]; cbn; auto. destruct (Z.even m); auto.
Qed.

Lemma loc_of_shr_record_of_loc (m : Z) (l : location) :
  loc_of_shr_record (shr_record_of_loc m l) = l.
Proof. destruct l as [|[| |]]; reflexivity. Qed.

Lemma shr_m_of_loc (m : Z) (l : location) : shr_m (shr_record_of_loc m l) = m.
Proof. destruct l as [|[| |]]; reflexivity. Qed.

(** In the normal range the exponent function takes off the precision. *)
Lemma fexp_normal (x : Z) : -1074 <= x - 53 -> fexp 53 1024 x = x - 53.
Proof. intros Hx. unfold fexp, emin. lia. Qed.

(** A mantissa of at least 53 digits is cut down to its 53 leading
    digits. *)
Lemma shr_fexp_normal (m e : Z) (l : location) :
  0 < m -> 53 <= Zdigits2 m -> -1074 <= e + Zdigits2 m - 53 ->
  exists mrs,
    shr_fexp 53 1024 m e l = (mrs, e + Zdigits2 m - 53)
    /\ shr_m mrs = m / 2 ^ (Zdigits2 m - 53)
    /\ (Zdigits2 m = 53 -> mrs = shr_record_of_loc m l).
Proof.
  intros Hm Hd Hrange. unfold shr_fexp.
  rewrite fexp_normal by lia.
  replace (Zdigits2 m + e - 53 - e) with (Zdigits2 m - 53) by lia.
  destruct (Zdigits2 m - 53) as [|k|k] eqn:Hk; [| |lia].
  - exists (shr_record_of_loc m l). cbn [shr]. split; [f_equal; lia|].
    split; [|reflexivity]. rewrite shr_m_of_loc, Z.pow_0_r, Z.div_1_r. reflexivity.
  - eexists. cbn [shr]. split; [f_equal; lia|]. split; [|lia].
    rewrite iter_shr_m; rewrite shr_m_of_loc; [reflexivity|lia].
Qed.

Lemma Zdigits2_unique (m d : Z) :
  0 < m -> 2 ^ (d - 1) <= m < 2 ^ d -> Zdigits2 m = d.
Proof.
  intros Hm Hb. destruct m as [|p|p]; try lia. apply digits2_unique, Hb.
Qed.

Lemma Zdigits2_bounds (m : Z) :
  0 < m -> 2 ^ (Zdigits2 m - 1) <= m < 2 ^ Zdigits2 m.
Proof. intros Hm. destruct m as [|p|p]; try lia. apply digits2_bounds. Qed.

(** The leading 53 digits of a mantissa. *)
Lemma leading_digits (m : Z) :
  0 < m -> 53 <= Zdigits2 m ->
  2 ^ 52 <= m / 2 ^ (Zdigits2 m - 53) < 2 ^ 53.
Proof.
  intros Hm Hd. pose proof (Zdigits2_bounds m Hm) as [Hlo Hhi].
  assert (Hpow : 0 < 2 ^ (Zdigits2 m - 53)) by (apply Z.pow_pos_nonneg; lia).
  split.
  - apply Z.div_le_lower_bound; [exact Hpow|].
    rewrite <- Z.pow_add_r by lia.
    replace (Zdigits2 m - 53 + 52) with (Zdigits2 m - 1) by lia. exact Hlo.
  - apply Z.div_lt_upper_bound; [exact Hpow|].
    rewrite <- Z.pow_add_r by lia.
    replace (Zdigits2 m - 53 + 53) with (Zdigits2 m) by lia. exact Hhi.
Qed.

(** Rounding in the normal range: the 53 leading digits, rounded to nearest
    by what was cut off. *)
Lemma binary_round_aux_normal (sx : bool) (mx ex : Z) (lx : location) :
  0 < mx -> 53 <= Zdigits2 mx -> -1074 <= ex + Zdigits2 mx - 53 ->
  exists l,
    (Zdigits2 mx = 53 -> l = lx)
    /\ binary_round_aux 53 1024 sx mx ex lx =
         pack sx (round_nearest_even (mx / 2 ^ (Zdigits2 mx - 53)) l)
              (ex + Zdigits2 mx - 53).
Proof.
  intros Hm Hd Hrange. unfold binary_round_aux.
  destruct (shr_fexp_normal mx ex lx Hm Hd Hrange) as [mrs [Hshr [Hmrs Hsame]]].
  rewrite Hshr. exists (loc_of_shr_record mrs). split.
  { intros H53. rewrite (Hsame H53). apply loc_of_shr_record_of_loc. }
  rewrite Hmrs.
  pose proof (leading_digits mx Hm Hd) as Hlead.
  set (m1 := mx / 2 ^ (Zdigits2 mx - 53)) in *.
  set (e1 := ex + Zdigits2 mx - 53) in *.
  set (mr := round_nearest_even m1 (loc_of_shr_record mrs)).
  assert (Hmr : 2 ^ 52 <= mr <= 2 ^ 53).
  { destruct (round_nearest_even_range m1 (loc_of_shr_record mrs)) as [Heq|Heq];
      unfold mr; rewrite Heq; lia. }
  unfold pack. destruct (Z.ltb_spec mr (2 ^ 53)) as [Hlt|Hge].
  - assert (Hdr : Zdigits2 mr = 53).
    { apply Zdigits2_unique; [lia|]. change (53 - 1) with 52. lia. }
    destruct (shr_fexp_normal mr e1 loc_Exact) as [mrs2 [Hshr2 [Hmrs2 _]]];
      [lia|lia|lia|].
    rewrite Hshr2, Hmrs2, Hdr. change (2 ^ (53 - 53)) with 1. rewrite Z.div_1_r.
    replace (e1 + 53 - 53) with e1 by lia.
    destruct mr as [|p|p]; try lia. reflexivity.
  - assert (Heq : mr = 2 ^ 53) by lia. rewrite Heq.
    destruct (shr_fexp_normal (2 ^ 53) e1 loc_Exact) as [mrs2 [Hshr2 [Hmrs2 _]]];
      [reflexivity
      |change (Zdigits2 (2 ^ 53)) with 54; lia
      |change (Zdigits2 (2 ^ 53)) with 54; lia|].
    rewrite Hshr2, Hmrs2.
    change (Zdigits2 (2 ^ 53)) with 54. change (2 ^ 53 / 2 ^ (54 - 53)) with (2 ^ 52).
    replace (e1 + 54 - 53) with (e1 + 1) by lia. reflexivity.
Qed.

Lemma normal_digits (m : positive) (e : Z) :
  normal m e -> Zdigits2 (Z.pos m) = 53.
Proof. intros [Hm _]. apply Zdigits2_unique; [lia|exact Hm]. Qed.

(** The square root of a normal number: its mantissa is the integer square
    root of the mantissa scaled to 105 or 106 digits, or one more. *)
Lemma sqrt_normal (m : positive) (e : Z) :
  normal m e ->
  let e' := e / 2 - 26 in
  let q := Z.sqrt (Z.pos m * 2 ^ (e - 2 * e')) in
  exists mn : positive,
    (Z.pos mn = q \/ Z.pos mn = q + 1)
    /\ 2 ^ 52 <= Z.pos mn < 2 ^ 53
    /\ SFsqrt 53 1024 (S754_finite false m e) = S754_finite false mn e'.
Proof.
  intros Hn e' q. pose proof Hn as [Hm He].
  pose proof (Z.div_mod e 2 ltac:(lia)) as Hdiv.
  pose proof (Z.mod_pos_bound e 2 ltac:(lia)) as Hmod.
  assert (Ht : e - 2 * e' = 52 \/ e - 2 * e' = 53) by (unfold e'; lia).
  set (M := Z.pos m * 2 ^ (e - 2 * e')) in *.
  assert (HM : 2 ^ 104 <= M <= (2 ^ 53 - 1) * 2 ^ 53).
  { unfold M. destruct Ht as [-> | ->]; lia. }
  assert (Hq : 2 ^ 52 <= q < 2 ^ 53).
  { unfold q. split.
    - apply Z.sqrt_le_square; lia.
    - apply Z.sqrt_lt_square; lia. }
  pose proof (Z.sqrtrem_spec M ltac:(lia)) as Hspec.
  pose proof (Z.sqrtrem_sqrt M) as Hfst.
  destruct (Z.sqrtrem M) as [q0 r] eqn:Hrem. cbn [fst] in Hfst. fold q in Hfst.
  subst q0. destruct Hspec as [HMq Hr].
  set (l := if r =? 0 then loc_Exact
            else loc_Inexact (if r <=? q then Lt else Gt)).
  assert (Hup : round_nearest_even q l = q \/
                (round_nearest_even q l = q + 1 /\ q < r)).
  { unfold l. destruct (Z.eqb_spec r 0); [left; reflexivity|].
    destruct (Z.leb_spec r q); [left; reflexivity|right; split; [reflexivity|lia]]. }
  assert (Hmr : 2 ^ 52 <= round_nearest_even q l < 2 ^ 53).
  { destruct Hup as [-> | [-> Hlt]]; [lia|].
    assert (q * q + q < M) by lia. nia. }
  exists (Z.to_pos (round_nearest_even q l)).
  rewrite Z2Pos.id by lia.
  split; [destruct Hup as [-> | [-> _]]; auto|]. split; [exact Hmr|].
  unfold SFsqrt, SFsqrt_core_binary.
  rewrite (normal_digits m e Hn), !Z.div2_div.
  assert (Hfexp : fexp 53 1024 ((53 + e + 1) / 2) = e').
  { replace (53 + e + 1) with (e + 27 * 2) by lia.
    rewrite Z.div_add by lia. rewrite fexp_normal; unfold e'; lia. }
  rewrite Hfexp. assert (Hmin : Z.min e' (e / 2) = e') by (unfold e'; lia).
  rewrite Hmin.
  assert (Hshift : match e - 2 * e' with
                   | 0 => Z.pos m
                   | Z.pos _ => Z.shiftl (Z.pos m) (e - 2 * e')
                   | Z.neg _ => 0
                   end = M).
  { unfold M. destruct Ht as [Ht | Ht]; rewrite Ht;
      rewrite Z.shiftl_mul_pow2 by lia; reflexivity. }
  rewrite Hshift, Hrem. fold l.
  destruct (binary_round_aux_normal false q e' l) as [l' [Hl' Hround]].
  - lia.
  - rewrite (Zdigits2_unique q 53); [lia|lia|exact Hq].
  - rewrite (Zdigits2_unique q 53); [unfold e'; lia|lia|exact Hq].
  - rewrite Hround, (Zdigits2_unique q 53) by (lia || exact Hq).
    rewrite (Hl' (Zdigits2_unique q 53 ltac:(lia) Hq)).
    change (2 ^ (53 - 53)) with 1. rewrite Z.div_1_r.
    replace (e' + 53 - 53) with e' by lia.
    unfold pack. destruct (Z.ltb_spec (round_nearest_even q l) (2 ^ 53)); [|lia].
    destruct (Z.leb_spec e' 971); [reflexivity|unfold e' in *; lia].
Qed.

(** The product of two positive numbers of 53 digits: the 53 leading digits
    of the product of the mantissas, or one more. *)
Lemma mul_normal (m1 m2 : positive) (e1 e2 : Z) :
  2 ^ 52 <= Z.pos m1 < 2 ^ 53 -> 2 ^ 52 <= Z.pos m2 < 2 ^ 53 ->
  let P := Z.pos m1 * Z.pos m2 in
  let k := Zdigits2 P - 53 in
  -1074 <= e1 + e2 + k ->
  exists md0,
    (md0 = P / 2 ^ k \/ md0 = P / 2 ^ k + 1)
    /\ (k = 52 \/ k = 53)
    /\ SFmul 53 1024 (S754_finite false m1 e1) (S754_finite false m2 e2) =
         pack false md0 (e1 + e2 + k).
Proof.
  intros H1 H2 P k Hrange.
  assert (HP : 2 ^ 104 <= P < 2 ^ 106) by (unfold P; nia).
  assert (HdP : Zdigits2 P = 105 \/ Zdigits2 P = 106).
  { destruct (Z.lt_ge_cases P (2 ^ 105)).
    - left. apply Zdigits2_unique; [lia|]. change (105 - 1) with 104. lia.
    - right. apply Zdigits2_unique; [lia|]. change (106 - 1) with 105. lia. }
  destruct (binary_round_aux_normal false P (e1 + e2) loc_Exact)
    as [l [_ Hround]]; [lia|lia|unfold k in Hrange; lia|].
  exists (round_nearest_even (P / 2 ^ k) l).
  split; [apply round_nearest_even_range|]. split; [unfold k; lia|].
  cbn [SFmul xorb]. change (Z.pos (m1 * m2)) with P.
  rewrite Hround. unfold k. f_equal. lia.
Qed.

(** The quotient of two positive numbers of 53 digits: the 53 leading digits
    of the quotient of the first mantissa, scaled by 2^53, by the second, or
    one more. *)
Lemma div_normal (m1 m2 : positive) (e1 e2 : Z) :
  2 ^ 52 <= Z.pos m1 < 2 ^ 53 -> 2 ^ 52 <= Z.pos m2 < 2 ^ 53 ->
  -1074 <= e1 - e2 - 53 ->
  let Q := Z.pos m1 * 2 ^ 53 / Z.pos m2 in
  let k := Zdigits2 Q - 53 in
  exists mc0,
    (mc0 = Q / 2 ^ k \/ mc0 = Q / 2 ^ k + 1)
    /\ SFdiv 53 1024 (S754_finite false m1 e1) (S754_finite false m2 e2) =
         pack false mc0 (e1 - e2 - 53 + k).
Proof.
  intros H1 H2 Hrange Q k.
  assert (HQ : 2 ^ 52 <= Q < 2 ^ 54).
  { unfold Q. split.
    - apply Z.div_le_lower_bound; lia.
    - apply Z.div_lt_upper_bound; lia. }
  assert (HdQ : Zdigits2 Q = 53 \/ Zdigits2 Q = 54).
  { destruct (Z.lt_ge_cases Q (2 ^ 53)).
    - left. apply Zdigits2_unique; [lia|]. change (53 - 1) with 52. lia.
    - right. apply Zdigits2_unique; [lia|]. change (54 - 1) with 53. lia. }
  unfold SFdiv, SFdiv_core_binary.
  rewrite (Zdigits2_unique (Z.pos m1) 53), (Zdigits2_unique (Z.pos m2) 53)
    by (lia || assumption).
  replace (53 + e1 - (53 + e2)) with (e1 - e2) by lia.
  rewrite fexp_normal by lia.
  replace (Z.min (e1 - e2 - 53) (e1 - e2)) with (e1 - e2 - 53) by lia.
  replace (e1 - e2 - (e1 - e2 - 53)) with 53 by lia.
  rewrite Z.shiftl_mul_pow2 by lia.
  assert (Hquot : fst (Z.div_eucl (Z.pos m1 * 2 ^ 53) (Z.pos m2)) = Q) by reflexivity.
  destruct (Z.div_eucl (Z.pos m1 * 2 ^ 53) (Z.pos m2)) as [q r].
  cbn [fst] in Hquot. subst q.
  destruct (binary_round_aux_normal false Q (e1 - e2 - 53)
              (new_location (Z.pos m2) r)) as [l [_ Hround]]; [lia|lia|lia|].
  exists (round_nearest_even (Q / 2 ^ k) l).
  split; [apply round_nearest_even_range|].
  cbn [xorb]. rewrite Hround. unfold k. f_equal. lia.
Qed.

Lemma compare_cont_le (a b : positive) :
  Z.pos a <= Z.pos b -> Pos.compare_cont Eq a b <> Gt.
Proof.
  intros Hle. change (Pos.compare_cont Eq a b) with (Pos.compare a b).
  rewrite Pos.compare_gt_iff. lia.
Qed.

(** A rounded mantissa within 2^30 units of one is within the tolerance. *)
Lemma pack_near_one (mr ec : Z) :
  2 ^ 52 <= mr <= 2 ^ 53 ->
  (ec = -52 /\ mr <= 2 ^ 52 + 2 ^ 30) \/ (ec = -53 /\ 2 ^ 53 - 2 ^ 30 <= mr) ->
  near_one (pack false mr ec).
Proof.
  intros Hmr Hcase. unfold pack, near_one, lo, hi.
  destruct (Z.ltb_spec mr (2 ^ 53)) as [Hlt|Hge].
  - destruct Hcase as [[-> Hup] | [-> Hdown]]; cbn [Z.leb Z.compare].
    + split; [reflexivity|]. unfold SFleb, SFcompare. cbn [Z.compare].
      pose proof (compare_cont_le (Z.to_pos mr) (2 ^ 52 + 2 ^ 32)) as Hc.
      rewrite Z2Pos.id in Hc by lia.
      destruct (Pos.compare_cont Eq (Z.to_pos mr) (2 ^ 52 + 2 ^ 32));
        [reflexivity|reflexivity|exfalso; apply Hc; [lia|reflexivity]].
    + split; [|reflexivity]. unfold SFleb, SFcompare. cbn [Z.compare].
      pose proof (compare_cont_le (2 ^ 53 - 2 ^ 33) (Z.to_pos mr)) as Hc.
      rewrite Z2Pos.id in Hc by lia.
      destruct (Pos.compare_cont Eq (2 ^ 53 - 2 ^ 33) (Z.to_pos mr));
        [reflexivity|reflexivity|exfalso; apply Hc; [lia|reflexivity]].
  - destruct Hcase as [[-> Hup] | [-> Hdown]]; [lia|].
    split; reflexivity.
Qed.

Lemma leading_digits_small (Q : Z) :
  2 ^ 52 <= Q < 2 ^ 54 ->
  (Q < 2 ^ 53 /\ Zdigits2 Q - 53 = 0 /\ Q / 2 ^ (Zdigits2 Q - 53) = Q)
  \/ (2 ^ 53 <= Q /\ Zdigits2 Q - 53 = 1
      /\ 2 * (Q / 2 ^ (Zdigits2 Q - 53)) <= Q <= 2 * (Q / 2 ^ (Zdigits2 Q - 53)) + 1).
Proof.
  intros HQ. destruct (Z.lt_ge_cases Q (2 ^ 53)) as [Hlt|Hge].
  - left. rewrite (Zdigits2_unique Q 53); [|lia|change (53 - 1) with 52; lia].
    change (2 ^ (53 - 53)) with 1. rewrite Z.div_1_r. lia.
  - right. rewrite (Zdigits2_unique Q 54); [|lia|change (54 - 1) with 53; lia].
    change (2 ^ (54 - 53)) with 2.
    pose proof (Z.div_mod Q 2 ltac:(lia)). pose proof (Z.mod_pos_bound Q 2 ltac:(lia)).
    lia.
Qed.

(** The quotient of two normal numbers whose values differ by a few units
    in the last place is within the tolerance around one. *)
Lemma div_near_one (m md : positive) (e ed : Z) :
  2 ^ 52 <= Z.pos m < 2 ^ 53 -> 2 ^ 52 <= Z.pos md < 2 ^ 53 ->
  (e - ed = 0 /\ -8 <= Z.pos m - Z.pos md <= 8)
  \/ (e - ed = 1 /\ -8 <= 2 * Z.pos m - Z.pos md <= 8)
  \/ (e - ed = -1 /\ -8 <= Z.pos m - 2 * Z.pos md <= 8) ->
  near_one (SFdiv 53 1024 (S754_finite false m e) (S754_finite false md ed)).
Proof.
  intros Hm Hmd Hclose.
  destruct (div_normal m md e ed Hm Hmd) as [mc0 [Hmc0 Hdiv]]; [lia|].
  rewrite Hdiv. clear Hdiv.
  set (Q := Z.pos m * 2 ^ 53 / Z.pos md) in *.
  assert (HQ : 2 ^ 52 <= Q < 2 ^ 54).
  { unfold Q. split.
    - apply Z.div_le_lower_bound; lia.
    - apply Z.div_lt_upper_bound; lia. }
  assert (Hlow : forall c, Z.pos md * c <= Z.pos m * 2 ^ 53 -> c <= Q)
    by (intros c Hc; apply Z.div_le_lower_bound; lia).
  assert (Hhigh : forall c, Z.pos m * 2 ^ 53 < Z.pos md * c -> Q < c)
    by (intros c Hc; apply Z.div_lt_upper_bound; lia).
  pose proof (leading_digits Q ltac:(lia)) as Hlead.
  destruct (leading_digits_small Q HQ) as [[Hlt [Hk HQk]] | [Hge [Hk HQk]]];
    rewrite Hk in *; (apply pack_near_one; [lia|]).
  - (* the quotient has 53 digits *)
    rewrite HQk in Hmc0.
    destruct Hclose as [[Hd Hc] | [[Hd Hc] | [Hd Hc]]].
    + right. pose proof (Hlow (2 ^ 53 - 32) ltac:(lia)). lia.
    + left. pose proof (Hhigh (2 ^ 52 + 32) ltac:(lia)). lia.
    + exfalso. pose proof (Hlow (2 ^ 54 - 64) ltac:(lia)). lia.
  - (* the quotient has 54 digits *)
    destruct Hclose as [[Hd Hc] | [[Hd Hc] | [Hd Hc]]].
    + left. pose proof (Hhigh (2 ^ 53 + 32) ltac:(lia)). lia.
    + exfalso. pose proof (Hhigh (2 ^ 52 + 32) ltac:(lia)). lia.
    + right. pose proof (Hlow (2 ^ 54 - 64) ltac:(lia)). lia.
Qed.

(** A normal number divided by the square of its square root. *)
Theorem self_ratio_normal (m : positive) (e : Z) :
  normal m e ->
  let s := S754_finite false m e in
  let n := SFsqrt 53 1024 s in
  near_one (SFdiv 53 1024 s (SFmul 53 1024 n n)).
Proof.
  intros Hn s n. pose proof Hn as [Hm He].
  destruct (sqrt_normal m e Hn) as [mn [Hmn [Hmnr Hsqrt]]].
  unfold n, s. rewrite Hsqrt. clear Hsqrt n.
  pose proof (Z.div_mod e 2 ltac:(lia)) as Hdiv.
  pose proof (Z.mod_pos_bound e 2 ltac:(lia)) as Hmod.
  set (e' := e / 2 - 26) in *.
  assert (Ht : e - 2 * e' = 52 \/ e - 2 * e' = 53) by (unfold e'; lia).
  set (t := e - 2 * e') in *.
  set (S := Z.pos m * 2 ^ t) in *.
  assert (HS : 0 <= S) by (unfold S; destruct Ht as [-> | ->]; lia).
  pose proof (Z.sqrt_spec S HS) as Hq. cbv zeta in Hq.
  set (q := Z.sqrt S) in *.
  set (P := Z.pos mn * Z.pos mn).
  (* the square of the root against the number *)
  assert (HPS : S - 2 ^ 54 < P <= S + 2 ^ 54).
  { replace (Z.succ q * Z.succ q) with (q * q + 2 * q + 1) in Hq by ring.
    unfold P. destruct Hmn as [Hmn | Hmn]; rewrite Hmn in *.
    - lia.
    - replace ((q + 1) * (q + 1)) with (q * q + 2 * q + 1) by ring. lia. }
  assert (HPmax : P <= 2 ^ 106 - 2 ^ 54 + 1).
  { unfold P. clear -Hmnr. assert (Hle : Z.pos mn <= 2 ^ 53 - 1) by lia.
    pose proof (Z.mul_le_mono_nonneg (Z.pos mn) (2 ^ 53 - 1) (Z.pos mn) (2 ^ 53 - 1)
                  ltac:(lia) Hle ltac:(lia) Hle). lia. }
  destruct (mul_normal mn mn e' e' Hmnr Hmnr) as [md0 [Hmd0 [Hk Hmul]]].
  { fold P. pose proof (Zdigits2_bounds P ltac:(unfold P; lia)) as HdP.
    assert (105 <= Zdigits2 P); [|unfold e'; lia].
    destruct (Z.lt_ge_cases (Zdigits2 P) 105) as [Hsmall|]; [|assumption].
    assert (2 ^ Zdigits2 P <= 2 ^ 104) by (apply Z.pow_le_mono_r; lia).
    unfold P in *. nia. }
  rewrite Hmul. clear Hmul. fold P in Hmd0, Hk |- *.
  set (k := Zdigits2 P - 53) in *.
  pose proof (leading_digits P ltac:(unfold P; lia) ltac:(unfold k in Hk; lia)) as Hf.
  fold k in Hf.
  assert (HfP : (P / 2 ^ k) * 2 ^ k <= P < (P / 2 ^ k + 1) * 2 ^ k).
  { assert (Hpos : 0 < 2 ^ k) by (destruct Hk as [-> | ->]; lia).
    pose proof (Z.div_mod P (2 ^ k) ltac:(lia)).
    pose proof (Z.mod_pos_bound P (2 ^ k) Hpos). lia. }
  set (f := P / 2 ^ k) in *.
  unfold pack.
  destruct (Z.ltb_spec md0 (2 ^ 53)) as [Hlt|Hge].
  - (* the product keeps its exponent *)
    assert (Hed : e' + e' + k <= 971) by (destruct Hk as [Hk | Hk]; lia).
    destruct (Z.leb_spec (e' + e' + k) 971); [|lia].
    apply div_near_one; [exact Hm|rewrite Z2Pos.id by lia; lia|].
    rewrite Z2Pos.id by lia. unfold S in *.
    destruct Ht as [Ht | Ht]; destruct Hk as [Hk | Hk]; rewrite Ht, Hk in *;
      destruct Hmd0 as [-> | ->]; lia.
  - (* the product rounds up to the next power of two *)
    assert (Hmd : md0 = 2 ^ 53) by lia.
    assert (Hk52 : k = 52).
    { destruct Hk as [Hk | Hk]; [exact Hk|]. rewrite Hk in *.
      destruct Hmd0 as [Heq | Heq]; lia. }
    rewrite Hk52 in *.
    destruct (Z.leb_spec (e' + e' + 52 + 1) 971); [|lia].
    apply div_near_one; [exact Hm|cbn; lia|].
    change (Z.pos (Z.to_pos (2 ^ 52))) with (2 ^ 52). unfold S in *.
    destruct Ht as [Ht | Ht]; rewrite Ht in *; destruct Hmd0 as [Heq | Heq]; lia.
Qed.

(** *** Below the normal range *)

Lemma shr_1_shifted (m0 k : Z) (mrs : shr_record) :
  0 <= k -> 0 <= shr_m mrs -> shifted m0 k mrs ->
  shifted m0 (k + 1) (shr_1 mrs) /\ 0 <= shr_m (shr_1 mrs).
Proof.
  intros Hk Hm. unfold shifted. rewrite Z.pow_add_r, Z.pow_1_r by lia.
  assert (Hpow : 0 < 2 ^ k) by (apply Z.pow_pos_nonneg; lia).
  set (X := 2 ^ k) in *.
  destruct mrs as [m r s]. cbn [shr_m shr_r shr_s] in *.
  destruct m as [|p|p]; [| |lia].
  - cbn [shr_1 shr_m shr_r shr_s orb]. destruct r, s; cbn [orb]; lia.
  - destruct p as [p|p|]; cbn [shr_1 shr_m shr_r shr_s].
    + change (Z.pos p~1) with (2 * Z.pos p + 1).
      destruct r, s; cbn [orb]; nia.
    + change (Z.pos p~0) with (2 * Z.pos p).
      destruct r, s; cbn [orb]; nia.
    + destruct r, s; cbn [orb]; nia.
Qed.

Lemma iter_shr_shifted (p : positive) (m0 k : Z) (mrs : shr_record) :
  0 <= k -> 0 <= shr_m mrs -> shifted m0 k mrs ->
  shifted m0 (k + Z.pos p) (SpecFloat.iter_pos shr_1 p mrs)
  /\ 0 <= shr_m (SpecFloat.iter_pos shr_1 p mrs).
Proof.
  revert k mrs. induction p as [p IH|p IH|]; intros k mrs Hk Hm Hs;
    cbn [SpecFloat.iter_pos].
  - destruct (shr_1_shifted m0 k mrs Hk Hm Hs) as [H1 H1m].
    destruct (IH (k + 1) _ ltac:(lia) H1m H1) as [H2 H2m].
    destruct (IH (k + 1 + Z.pos p) _ ltac:(lia) H2m H2) as [H3 H3m].
    change (Z.pos p~1) with (2 * Z.pos p + 1).
    replace (k + (2 * Z.pos p + 1)) with (k + 1 + Z.pos p + Z.pos p) by lia.
    auto.
  - destruct (IH k _ Hk Hm Hs) as [H2 H2m].
    destruct (IH (k + Z.pos p) _ ltac:(lia) H2m H2) as [H3 H3m].
    change (Z.pos p~0) with (2 * Z.pos p).
    replace (k + 2 * Z.pos p) with (k + Z.pos p + Z.pos p) by lia.
    auto.
  - apply shr_1_shifted; assumption.
Qed.

(** Rounding what is left by what was shifted out gives a nearest multiple
    of the last place. *)
Lemma round_shifted (m0 k : Z) (mrs : shr_record) :
  shifted m0 k mrs ->
  let mr := round_nearest_even (shr_m mrs) (loc_of_shr_record mrs) in
  - 2 ^ k <= 2 * (m0 - mr * 2 ^ k) <= 2 ^ k
  /\ shr_m mrs <= mr <= shr_m mrs + 1.
Proof.
  unfold shifted. destruct mrs as [m r s]. cbn [shr_m shr_r shr_s].
  set (X := 2 ^ k). intros [Hrem Hloc].
  destruct r, s; cbn [loc_of_shr_record round_nearest_even].
  - nia.
  - destruct (Z.even m); nia.
  - nia.
  - nia.
Qed.

(** A positive number that lies below the normal range is rounded to a
    nearest multiple of 2^-1074. *)
Lemma binary_round_aux_subnormal (sx : bool) (mx ex : Z) :
  0 < mx -> ex < -1074 -> Zdigits2 mx + ex - 53 < -1074 ->
  let k := -1074 - ex in
  exists mr,
    - 2 ^ k <= 2 * (mx - mr * 2 ^ k) <= 2 ^ k
    /\ 0 <= mr <= 2 ^ 52
    /\ binary_round_aux 53 1024 sx mx ex loc_Exact =
         match mr with
         | 0 => S754_zero sx
         | Z.pos p => S754_finite sx p (-1074)
         | Z.neg _ => S754_nan
         end.
Proof.
  intros Hm Hex Hd k. unfold binary_round_aux, shr_fexp.
  assert (Hfexp : fexp 53 1024 (Zdigits2 mx + ex) = -1074)
    by (unfold fexp, emin; lia).
  rewrite Hfexp. fold k.
  destruct k as [|kp|kp] eqn:Hk; [lia| |lia].
  cbn [shr shr_record_of_loc].
  destruct (iter_shr_shifted kp mx 0 {| shr_m := mx; shr_r := false; shr_s := false |})
    as [Hs Hnonneg]; [lia|cbn; lia| |].
  { unfold shifted. cbn. lia. }
  set (mrs := SpecFloat.iter_pos shr_1 kp _) in *.
  replace (0 + Z.pos kp) with (Z.pos kp) in Hs by lia.
  destruct (round_shifted mx (Z.pos kp) mrs Hs) as [Hnear Hmr].
  set (mr := round_nearest_even (shr_m mrs) (loc_of_shr_record mrs)) in *.
  assert (Hbound : mx < 2 ^ (52 + Z.pos kp)).
  { pose proof (Zdigits2_bounds mx Hm) as [_ Hhi].
    assert (2 ^ Zdigits2 mx <= 2 ^ (52 + Z.pos kp)) by (apply Z.pow_le_mono_r; lia).
    lia. }
  rewrite Z.pow_add_r in Hbound by lia.
  assert (Hpow : 0 < 2 ^ Z.pos kp) by (apply Z.pow_pos_nonneg; lia).
  assert (Hrange : 0 <= mr <= 2 ^ 52).
  { destruct Hs as [[Hlo Hhi] _]. split; [lia|].
    assert (shr_m mrs < 2 ^ 52) by nia. lia. }
  exists mr. split; [exact Hnear|]. split; [exact Hrange|].
  replace (ex + Z.pos kp) with (-1074) by lia.
  assert (Hd2 : Zdigits2 mr <= 53).
  { destruct (Z.eq_dec mr 0) as [->|Hnz]; [cbn; lia|].
    destruct (Z.le_gt_cases (Zdigits2 mr) 53) as [|Hgt]; [assumption|].
    pose proof (Zdigits2_bounds mr ltac:(lia)) as [Hlo _].
    assert (2 ^ 53 <= 2 ^ (Zdigits2 mr - 1)) by (apply Z.pow_le_mono_r; lia).
    lia. }
  assert (Hfexp2 : fexp 53 1024 (Zdigits2 mr + -1074) = -1074)
    by (unfold fexp, emin; lia).
  rewrite Hfexp2. change (-1074 - -1074) with 0. cbn [shr shr_record_of_loc shr_m].
  destruct mr as [|p|p]; reflexivity.
Qed.

(** A mantissa of [d] digits brought to 53 digits. *)
Lemma normalized_range (m d : Z) :
  0 < m -> Zdigits2 m = d -> d <= 53 ->
  2 ^ 52 <= m * 2 ^ (53 - d) < 2 ^ 53.
Proof.
  intros Hm Hd Hle. pose proof (Zdigits2_bounds m Hm) as [Hlo Hhi].
  rewrite Hd in Hlo, Hhi.
  assert (Hd1 : 1 <= d) by (destruct m; cbn in Hd; lia).
  assert (Hpow : 0 < 2 ^ (53 - d)) by (apply Z.pow_pos_nonneg; lia).
  assert (H1 : 2 ^ (d - 1) * 2 ^ (53 - d) = 2 ^ 52).
  { rewrite <- Z.pow_add_r by lia. f_equal. lia. }
  assert (H2 : 2 ^ d * 2 ^ (53 - d) = 2 ^ 53).
  { rewrite <- Z.pow_add_r by lia. f_equal. lia. }
  nia.
Qed.

(** The quotient of two positive numbers of at most 53 digits: the 53
    leading digits of the quotient of the mantissas brought to 53 digits, the
    first scaled by 2^53, or one more. *)
Lemma div_finite (m1 m2 : positive) (e1 e2 : Z) :
  let d1 := Zdigits2 (Z.pos m1) in
  let d2 := Zdigits2 (Z.pos m2) in
  d1 <= 53 -> d2 <= 53 ->
  -1074 <= d1 + e1 - (d2 + e2) - 53 ->
  let a := Z.pos m1 * 2 ^ (53 - d1) in
  let b := Z.pos m2 * 2 ^ (53 - d2) in
  let Q := a * 2 ^ 53 / b in
  let k := Zdigits2 Q - 53 in
  exists mc0,
    (mc0 = Q / 2 ^ k \/ mc0 = Q / 2 ^ k + 1)
    /\ SFdiv 53 1024 (S754_finite false m1 e1) (S754_finite false m2 e2) =
         pack false mc0 (d1 + e1 - (d2 + e2) - 53 + k).
Proof.
  intros d1 d2 Hd1 Hd2 Hrange a b Q k.
  pose proof (normalized_range (Z.pos m1) d1 ltac:(lia) eq_refl Hd1) as Ha.
  pose proof (normalized_range (Z.pos m2) d2 ltac:(lia) eq_refl Hd2) as Hb.
  fold a in Ha. fold b in Hb.
  assert (Hd1' : 1 <= d1) by (unfold d1; cbn; lia).
  assert (Hd2' : 1 <= d2) by (unfold d2; cbn; lia).
  assert (HQ : 2 ^ 52 <= Q < 2 ^ 54).
  { unfold Q. split.
    - apply Z.div_le_lower_bound; lia.
    - apply Z.div_lt_upper_bound; lia. }
  unfold SFdiv, SFdiv_core_binary. fold d1 d2.
  rewrite fexp_normal by lia.
  replace (Z.min (d1 + e1 - (d2 + e2) - 53) (e1 - e2))
    with (d1 + e1 - (d2 + e2) - 53) by lia.
  set (s := e1 - e2 - (d1 + e1 - (d2 + e2) - 53)).
  assert (Hs : s = 53 + d2 - d1) by (unfold s; lia).
  assert (Hshift : match s with
                   | 0 => Z.pos m1
                   | Z.pos _ => Z.shiftl (Z.pos m1) s
                   | Z.neg _ => 0
                   end = Z.pos m1 * 2 ^ s).
  { destruct s as [|sp|sp] eqn:Hsp; [lia| |lia].
    rewrite Z.shiftl_mul_pow2 by lia. reflexivity. }
  rewrite Hshift.
  assert (Hquot : Z.pos m1 * 2 ^ s / Z.pos m2 = Q).
  { unfold Q, a, b.
    rewrite <- (Z.div_mul_cancel_r (Z.pos m1 * 2 ^ s) (Z.pos m2) (2 ^ (53 - d2)))
      by (try apply Z.pow_nonzero; lia).
    f_equal. rewrite <- !Z.mul_assoc, <- !Z.pow_add_r by lia.
    do 2 f_equal. lia. }
  assert (Hfst : fst (Z.div_eucl (Z.pos m1 * 2 ^ s) (Z.pos m2)) = Q)
    by (rewrite <- Hquot; reflexivity).
  destruct (Z.div_eucl (Z.pos m1 * 2 ^ s) (Z.pos m2)) as [q r].
  cbn [fst] in Hfst. subst q.
  assert (HdQ : Zdigits2 Q = 53 \/ Zdigits2 Q = 54).
  { destruct (Z.lt_ge_cases Q (2 ^ 53)).
    - left. apply Zdigits2_unique; [lia|]. change (53 - 1) with 52. lia.
    - right. apply Zdigits2_unique; [lia|]. change (54 - 1) with 53. lia. }
  destruct (binary_round_aux_normal false Q (d1 + e1 - (d2 + e2) - 53)
              (new_location (Z.pos m2) r)) as [l [_ Hround]]; [lia|lia|lia|].
  exists (round_nearest_even (Q / 2 ^ k) l).
  split; [apply round_nearest_even_range|].
  cbn [xorb]. rewrite Hround. unfold k. f_equal. lia.
Qed.

(** A quotient of two mantissas of 53 digits that differ by a few units in
    the last place is within the tolerance around one. *)
Lemma quotient_near_one (a b delta mc0 : Z) :
  2 ^ 52 <= a < 2 ^ 53 -> 2 ^ 52 <= b < 2 ^ 53 ->
  (delta = 0 /\ -8 <= a - b <= 8)
  \/ (delta = 1 /\ -8 <= 2 * a - b <= 8)
  \/ (delta = -1 /\ -8 <= a - 2 * b <= 8) ->
  let Q := a * 2 ^ 53 / b in
  let k := Zdigits2 Q - 53 in
  mc0 = Q / 2 ^ k \/ mc0 = Q / 2 ^ k + 1 ->
  near_one (pack false mc0 (delta - 53 + k)).
Proof.
  intros Ha Hb Hclose Q k Hmc0.
  assert (HQ : 2 ^ 52 <= Q < 2 ^ 54).
  { unfold Q. split.
    - apply Z.div_le_lower_bound; lia.
    - apply Z.div_lt_upper_bound; lia. }
  assert (Hlow : forall c, b * c <= a * 2 ^ 53 -> c <= Q)
    by (intros c Hc; apply Z.div_le_lower_bound; lia).
  assert (Hhigh : forall c, a * 2 ^ 53 < b * c -> Q < c)
    by (intros c Hc; apply Z.div_lt_upper_bound; lia).
  pose proof (leading_digits Q ltac:(lia)) as Hlead.
  unfold k in *.
  destruct (leading_digits_small Q HQ) as [[Hlt [Hk HQk]] | [Hge [Hk HQk]]];
    rewrite Hk in *; (apply pack_near_one; [lia|]).
  - rewrite HQk in Hmc0.
    destruct Hclose as [[Hd Hc] | [[Hd Hc] | [Hd Hc]]].
    + right. pose proof (Hlow (2 ^ 53 - 32) ltac:(lia)). lia.
    + left. pose proof (Hhigh (2 ^ 52 + 32) ltac:(lia)). lia.
    + exfalso. pose proof (Hlow (2 ^ 54 - 64) ltac:(lia)). lia.
  - destruct Hclose as [[Hd Hc] | [[Hd Hc] | [Hd Hc]]].
    + left. pose proof (Hhigh (2 ^ 53 + 32) ltac:(lia)). lia.
    + exfalso. pose proof (Hhigh (2 ^ 52 + 32) ltac:(lia)). lia.
    + right. pose proof (Hlow (2 ^ 54 - 64) ltac:(lia)). lia.
Qed.

(** The square root of a positive subnormal number is a normal number: its
    mantissa is the integer square root of the mantissa scaled to 105 or 106
    digits, or one more. *)
Lemma sqrt_subnormal (m : positive) :
  Z.pos m < 2 ^ 52 ->
  let d := Zdigits2 (Z.pos m) in
  let e' := (d - 1073) / 2 - 53 in
  let t := -1074 - 2 * e' in
  let q := Z.sqrt (Z.pos m * 2 ^ t) in
  exists mn : positive,
    (Z.pos mn = q \/ Z.pos mn = q + 1)
    /\ 2 ^ 52 <= Z.pos mn < 2 ^ 53
    /\ (d + t = 105 \/ d + t = 106) /\ 54 <= t /\ 1 <= d <= 52
    /\ SFsqrt 53 1024 (S754_finite false m (-1074)) = S754_finite false mn e'.
Proof.
  intros Hm d e' t q.
  pose proof (Zdigits2_bounds (Z.pos m) ltac:(lia)) as [Hlo Hhi]. fold d in Hlo, Hhi.
  assert (Hd1 : 1 <= d) by (unfold d; cbn; lia).
  assert (Hd52 : d <= 52).
  { destruct (Z.le_gt_cases d 52) as [|Hgt]; [assumption|].
    assert (2 ^ 52 <= 2 ^ (d - 1)) by (apply Z.pow_le_mono_r; lia). lia. }
  pose proof (Z.div_mod (d - 1073) 2 ltac:(lia)) as Hdiv.
  pose proof (Z.mod_pos_bound (d - 1073) 2 ltac:(lia)) as Hmod.
  assert (Hdt : d + t = 105 \/ d + t = 106) by (unfold t, e'; lia).
  assert (Ht : 54 <= t) by (unfold t, e'; lia).
  set (T := 2 ^ t) in *.
  assert (HT : 2 ^ 54 <= T) by (apply Z.pow_le_mono_r; lia).
  set (M := Z.pos m * T) in *.
  assert (HC : 2 ^ (d - 1) * T = 2 ^ 104 \/ 2 ^ (d - 1) * T = 2 ^ 105).
  { unfold T. rewrite <- Z.pow_add_r by lia.
    destruct Hdt as [Hdt | Hdt]; [left|right]; f_equal; lia. }
  assert (Hpow : 2 ^ d = 2 * 2 ^ (d - 1)).
  { rewrite <- Z.pow_succ_r by lia. f_equal. lia. }
  assert (HM : 2 ^ 104 <= M <= (2 ^ 53 - 1) * 2 ^ 53).
  { unfold M. split.
    - assert (2 ^ (d - 1) * T <= Z.pos m * T) by nia. lia.
    - assert (Z.pos m * T <= (2 ^ d - 1) * T) by nia.
      rewrite Hpow in *. nia. }
  assert (Hq : 2 ^ 52 <= q < 2 ^ 53).
  { unfold q. fold T. fold M. split.
    - apply Z.sqrt_le_square; lia.
    - apply Z.sqrt_lt_square; lia. }
  pose proof (Z.sqrtrem_spec M ltac:(lia)) as Hspec.
  pose proof (Z.sqrtrem_sqrt M) as Hfst.
  destruct (Z.sqrtrem M) as [q0 r] eqn:Hrem. cbn [fst] in Hfst.
  unfold q in Hq. fold T in Hq. fold M in Hq.
  subst q0. destruct Hspec as [HMq Hr].
  set (q' := Z.sqrt M) in *.
  set (l := if r =? 0 then loc_Exact
            else loc_Inexact (if r <=? q' then Lt else Gt)).
  assert (Hup : round_nearest_even q' l = q' \/
                (round_nearest_even q' l = q' + 1 /\ q' < r)).
  { unfold l. destruct (Z.eqb_spec r 0); [left; reflexivity|].
    destruct (Z.leb_spec r q'); [left; reflexivity|right; split; [reflexivity|lia]]. }
  assert (Hmr : 2 ^ 52 <= round_nearest_even q' l < 2 ^ 53).
  { destruct Hup as [-> | [-> Hlt]]; [lia|].
    assert (q' * q' + q' < M) by lia. nia. }
  exists (Z.to_pos (round_nearest_even q' l)).
  rewrite Z2Pos.id by lia.
  split; [unfold q; fold T; fold M; fold q'; destruct Hup as [-> | [-> _]]; auto|].
  split; [exact Hmr|]. split; [exact Hdt|]. split; [exact Ht|]. split; [lia|].
  unfold SFsqrt, SFsqrt_core_binary. fold d.
  rewrite !Z.div2_div.
  replace (d + -1074 + 1) with (d - 1073) by lia.
  assert (Hfexp : fexp 53 1024 ((d - 1073) / 2) = e')
    by (rewrite fexp_normal; unfold e'; lia).
  rewrite Hfexp. change (-1074 / 2) with (-537).
  assert (Hmin : Z.min e' (-537) = e') by (unfold e'; lia).
  rewrite Hmin. fold t.
  assert (Hshift : match t with
                   | 0 => Z.pos m
                   | Z.pos _ => Z.shiftl (Z.pos m) t
                   | Z.neg _ => 0
                   end = M).
  { unfold M, T. destruct t as [|tp|tp] eqn:Htp; [lia| |lia].
    rewrite Z.shiftl_mul_pow2 by lia. reflexivity. }
  rewrite Hshift, Hrem. fold l.
  destruct (binary_round_aux_normal false q' e' l) as [l' [Hl' Hround]].
  - lia.
  - rewrite (Zdigits2_unique q' 53); [lia|lia|exact Hq].
  - rewrite (Zdigits2_unique q' 53); [unfold e'; lia|lia|exact Hq].
  - rewrite Hround, (Zdigits2_unique q' 53) by (lia || exact Hq).
    rewrite (Hl' (Zdigits2_unique q' 53 ltac:(lia) Hq)).
    change (2 ^ (53 - 53)) with 1. rewrite Z.div_1_r.
    replace (e' + 53 - 53) with e' by lia.
    unfold pack. destruct (Z.ltb_spec (round_nearest_even q' l) (2 ^ 53)); [|lia].
    destruct (Z.leb_spec e' 971); [reflexivity|unfold e' in *; lia].
Qed.

(** The quotient of a positive number by a number of the same exponent whose
    mantissa is the same, or one away at 51 digits and more. *)
Lemma div_neighbour (m mr : positive) (e : Z) :
  Z.pos m < 2 ^ 52 ->
  Z.pos mr = Z.pos m
  \/ (2 ^ 50 <= Z.pos m /\ Z.pos m - 1 <= Z.pos mr <= Z.pos m + 1) ->
  near_one (SFdiv 53 1024 (S754_finite false m e) (S754_finite false mr e)).
Proof.
  intros Hm Hclose.
  assert (Hd1 : Zdigits2 (Z.pos m) <= 53).
  { destruct (Z.le_gt_cases (Zdigits2 (Z.pos m)) 53) as [|Hgt]; [assumption|].
    pose proof (Zdigits2_bounds (Z.pos m) ltac:(lia)) as [Hlo _].
    assert (2 ^ 53 <= 2 ^ (Zdigits2 (Z.pos m) - 1)) by (apply Z.pow_le_mono_r; lia).
    lia. }
  assert (Hd2 : Zdigits2 (Z.pos mr) <= 53).
  { destruct (Z.le_gt_cases (Zdigits2 (Z.pos mr)) 53) as [|Hgt]; [assumption|].
    pose proof (Zdigits2_bounds (Z.pos mr) ltac:(lia)) as [Hlo _].
    assert (2 ^ 53 <= 2 ^ (Zdigits2 (Z.pos mr) - 1)) by (apply Z.pow_le_mono_r; lia).
    lia. }
  assert (Hrange : -1074 <= Zdigits2 (Z.pos m) + e - (Zdigits2 (Z.pos mr) + e) - 53).
  { assert (1 <= Zdigits2 (Z.pos m)) by (cbn; lia).
    assert (1 <= Zdigits2 (Z.pos mr)) by (cbn; lia). lia. }
  destruct (div_finite m mr e e Hd1 Hd2 Hrange) as [mc0 [Hmc0 Hdiv]].
  rewrite Hdiv. clear Hdiv.
  pose proof (normalized_range (Z.pos m) _ ltac:(lia) eq_refl Hd1) as Ha.
  pose proof (normalized_range (Z.pos mr) _ ltac:(lia) eq_refl Hd2) as Hb.
  replace (Zdigits2 (Z.pos m) + e - (Zdigits2 (Z.pos mr) + e) - 53
           + (Zdigits2 (Z.pos m * 2 ^ (53 - Zdigits2 (Z.pos m)) * 2 ^ 53
                        / (Z.pos mr * 2 ^ (53 - Zdigits2 (Z.pos mr)))) - 53))
    with (Zdigits2 (Z.pos m) - Zdigits2 (Z.pos mr) - 53
          + (Zdigits2 (Z.pos m * 2 ^ (53 - Zdigits2 (Z.pos m)) * 2 ^ 53
                       / (Z.pos mr * 2 ^ (53 - Zdigits2 (Z.pos mr)))) - 53))
    by lia.
  apply (quotient_near_one _ _ _ mc0 Ha Hb); [|exact Hmc0].
  destruct Hclose as [Heq | [Hbig Hnear]].
  - left. rewrite Heq. split; lia.
  - (* the digits of both mantissas, case by case *)
    assert (Hdm : Zdigits2 (Z.pos m) = 51 \/ Zdigits2 (Z.pos m) = 52).
    { destruct (Z.lt_ge_cases (Z.pos m) (2 ^ 51)).
      - left. apply Zdigits2_unique; [lia|]. change (51 - 1) with 50. lia.
      - right. apply Zdigits2_unique; [lia|]. change (52 - 1) with 51. lia. }
    assert (Hdr : (Z.pos mr < 2 ^ 50 /\ Zdigits2 (Z.pos mr) = 50)
                  \/ (2 ^ 50 <= Z.pos mr < 2 ^ 51 /\ Zdigits2 (Z.pos mr) = 51)
                  \/ (2 ^ 51 <= Z.pos mr < 2 ^ 52 /\ Zdigits2 (Z.pos mr) = 52)
                  \/ (2 ^ 52 <= Z.pos mr /\ Zdigits2 (Z.pos mr) = 53)).
    { destruct (Z.lt_ge_cases (Z.pos mr) (2 ^ 50)).
      - left. split; [assumption|].
        apply Zdigits2_unique; [lia|]. change (50 - 1) with 49. lia.
      - destruct (Z.lt_ge_cases (Z.pos mr) (2 ^ 51)).
        + right. left. split; [lia|].
          apply Zdigits2_unique; [lia|]. change (51 - 1) with 50. lia.
        + destruct (Z.lt_ge_cases (Z.pos mr) (2 ^ 52)).
          * right. right. left. split; [lia|].
            apply Zdigits2_unique; [lia|]. change (52 - 1) with 51. lia.
          * right. right. right. split; [lia|].
            apply Zdigits2_unique; [lia|]. change (53 - 1) with 52. lia. }
    pose proof (Zdigits2_bounds (Z.pos m) ltac:(lia)) as Hbm.
    destruct Hdm as [Hdm | Hdm];
      destruct Hdr as [[Hr Hdr] | [[Hr Hdr] | [[Hr Hdr] | [Hr Hdr]]]];
      rewrite Hdm, Hdr in *;
      change (53 - 50) with 3; change (53 - 51) with 2;
      change (53 - 52) with 1; change (53 - 53) with 0;
      change (51 - 1) with 50 in Hbm; change (52 - 1) with 51 in Hbm;
      lia.
Qed.

(** A positive subnormal number divided by the square of its square root. *)
Theorem self_ratio_subnormal (m : positive) :
  Z.pos m < 2 ^ 52 ->
  let s := S754_finite false m (-1074) in
  let n := SFsqrt 53 1024 s in
  near_one (SFdiv 53 1024 s (SFmul 53 1024 n n)).
Proof.
  intros Hm s n.
  destruct (sqrt_subnormal m Hm) as [mn [Hmn [Hmnr [Hdt [Ht [Hd Hsqrt]]]]]].
  unfold n, s. rewrite Hsqrt. clear Hsqrt n.
  set (d := Zdigits2 (Z.pos m)) in *.
  set (e' := (d - 1073) / 2 - 53) in *.
  set (t := -1074 - 2 * e') in *.
  set (T := 2 ^ t) in *.
  set (S := Z.pos m * T) in *.
  assert (HT : 2 ^ 54 <= T) by (apply Z.pow_le_mono_r; lia).
  assert (HS : 0 <= S) by (unfold S; lia).
  pose proof (Z.sqrt_spec S HS) as Hq. cbv zeta in Hq.
  set (q := Z.sqrt S) in *.
  set (P := Z.pos mn * Z.pos mn).
  assert (HPS : S - 2 ^ 54 < P <= S + 2 ^ 54).
  { replace (Z.succ q * Z.succ q) with (q * q + 2 * q + 1) in Hq by ring.
    unfold P. destruct Hmn as [Hmn | Hmn]; rewrite Hmn in *.
    - lia.
    - replace ((q + 1) * (q + 1)) with (q * q + 2 * q + 1) by ring. lia. }
  assert (HPbound : 0 < P < 2 ^ 106) by (unfold P; nia).
  assert (HdP : Zdigits2 P <= 106).
  { destruct (Z.le_gt_cases (Zdigits2 P) 106) as [|Hgt]; [assumption|].
    pose proof (Zdigits2_bounds P ltac:(lia)) as [Hlo _].
    assert (2 ^ 106 <= 2 ^ (Zdigits2 P - 1)) by (apply Z.pow_le_mono_r; lia).
    lia. }
  destruct (binary_round_aux_subnormal false P (e' + e'))
    as [mr [Hnear [Hmr Hmul]]]; [lia|unfold t in Ht; lia|unfold t in Ht; lia|].
  replace (-1074 - (e' + e')) with t in Hnear by (unfold t; lia).
  fold T in Hnear.
  cbn [SFmul xorb]. change (Z.pos (mn * mn)) with P. rewrite Hmul. clear Hmul.
  pose proof (Zdigits2_bounds (Z.pos m) ltac:(lia)) as Hbm. fold d in Hbm.
  assert (Hclose : mr = Z.pos m \/ (2 ^ 50 <= Z.pos m /\ Z.pos m - 1 <= mr <= Z.pos m + 1)).
  { destruct (Z.le_gt_cases 56 t) as [Hbig|Hsmall].
    - left. assert (HT56 : 2 ^ 56 <= T) by (apply Z.pow_le_mono_r; lia).
      unfold S in HPS. nia.
    - right. assert (Ht54 : t = 54) by (unfold t, e' in *; lia).
      assert (HT54 : T = 2 ^ 54) by (unfold T; rewrite Ht54; reflexivity).
      assert (Hd51 : d = 51 \/ d = 52) by lia.
      split.
      + destruct Hd51 as [Hd51 | Hd51]; rewrite Hd51 in Hbm;
          [change (51 - 1) with 50 in Hbm|change (52 - 1) with 51 in Hbm]; lia.
      + unfold S in HPS. rewrite HT54 in *. lia. }
  assert (Hpos : 0 < mr) by lia.
  destruct mr as [|pr|pr]; [lia| |lia].
  apply div_neighbour; [exact Hm|].
  destruct Hclose as [Heq | Hnb]; [left; exact Heq|right; exact Hnb].
Qed.

Lemma Prim2SF_below_one : Prim2SF below_one = lo.
Proof. reflexivity. Qed.

Lemma Prim2SF_above_one : Prim2SF above_one = hi.
Proof. reflexivity. Qed.

(** A float classified as positive normal is a normal number. *)
Lemma classify_normal (x : float) :
  classify x = PNormal ->
  exists m e, Prim2SF x = S754_finite false m e /\ normal m e.
Proof.
  rewrite classify_spec. pose proof (Prim2SF_valid x) as Hvalid.
  unfold SF64classify, SFclassify, FloatAxioms.valid_binary in *.
  destruct (Prim2SF x) as [[|]|[|]| |[|] m e]; try discriminate.
  - destruct (Z.eqb_spec (Z.pos (digits2_pos m)) FloatOps.prec); discriminate.
  - destruct (Z.eqb_spec (Z.pos (digits2_pos m)) FloatOps.prec) as [Hd|];
      [|discriminate].
    intros _. exists m, e. split; [reflexivity|].
    cbn [SpecFloat.valid_binary] in Hvalid. unfold bounded, canonical_mantissa in Hvalid.
    apply andb_true_iff in Hvalid as [Hcanon Hmax].
    apply Z.eqb_eq in Hcanon. apply Z.leb_le in Hmax.
    rewrite Hd in Hcanon. unfold fexp, emin, FloatOps.prec, FloatOps.emax in *.
    pose proof (digits2_bounds m) as Hb. rewrite Hd in Hb.
    change (53 - 1) with 52 in Hb. split; lia.
Qed.

(** A float classified as positive subnormal is a multiple of 2^-1074 below
    2^-1022. *)
Lemma classify_subnormal (x : float) :
  classify x = PSubn ->
  exists m, Prim2SF x = S754_finite false m (-1074) /\ Z.pos m < 2 ^ 52.
Proof.
  rewrite classify_spec. pose proof (Prim2SF_valid x) as Hvalid.
  unfold SF64classify, SFclassify, FloatAxioms.valid_binary in *.
  destruct (Prim2SF x) as [[|]|[|]| |[|] m e]; try discriminate.
  - destruct (Z.eqb_spec (Z.pos (digits2_pos m)) FloatOps.prec); discriminate.
  - destruct (Z.eqb_spec (Z.pos (digits2_pos m)) FloatOps.prec) as [|Hd];
      [discriminate|].
    intros _. cbn [SpecFloat.valid_binary] in Hvalid.
    unfold bounded, canonical_mantissa in Hvalid.
    apply andb_true_iff in Hvalid as [Hcanon Hmax].
    apply Z.eqb_eq in Hcanon.
    unfold fexp, emin, FloatOps.prec, FloatOps.emax in *.
    pose proof (digits2_bounds m) as [_ Hb].
    assert (He : e = -1074) by lia. subst e.
    exists m. split; [reflexivity|].
    assert (2 ^ Z.pos (digits2_pos m) <= 2 ^ 52) by (apply Z.pow_le_mono_r; lia).
    lia.
Qed.

(** A positive normal float divided by the square of its square root is
    within 2^-20 of one. *)
Theorem self_ratio_near_one (x : float) :
  classify x = PNormal ->
  (below_one <=? x / (sqrt x * sqrt x))%float = true
  /\ (x / (sqrt x * sqrt x) <=? above_one)%float = true.
Proof.
  intros Hnormal. destruct (classify_normal x Hnormal) as [m [e [Hx Hn]]].
  rewrite !leb_spec, div_spec, mul_spec, sqrt_spec, Hx.
  rewrite Prim2SF_below_one, Prim2SF_above_one.
  exact (self_ratio_normal m e Hn).
Qed.

(** So is a positive subnormal float, and with it every positive finite
    one. *)
Theorem self_ratio_positive (x : float) :
  classify x = PNormal \/ classify x = PSubn ->
  (below_one <=? x / (sqrt x * sqrt x))%float = true
  /\ (x / (sqrt x * sqrt x) <=? above_one)%float = true.
Proof.
  intros [Hnormal | Hsub]; [exact (self_ratio_near_one x Hnormal)|].
  destruct (classify_subnormal x Hsub) as [m [Hx Hm]].
  rewrite !leb_spec, div_spec, mul_spec, sqrt_spec, Hx.
  rewrite Prim2SF_below_one, Prim2SF_above_one.
  exact (self_ratio_subnormal m Hm).
Qed.

(** Every other float divided by the square of its square root is NaN. *)
Lemma self_ratio_nan (x : float) :
  classify x <> PNormal -> classify x <> PSubn ->
  is_nan (x / (sqrt x * sqrt x))%float = true.
Proof.
  rewrite float_facts.is_nan_spec, div_spec, mul_spec, sqrt_spec, classify_spec.
  unfold SF64classify, SFclassify.
  destruct (Prim2SF x) as [[|]|[|]| |[|] m e]; intros Hn Hs; try reflexivity.
  exfalso. destruct (Z.pos (digits2_pos m) =? FloatOps.prec); congruence.
Qed.

End binary64.

(** ** The similarity engine *)

Module similarity.

Local Open Scope float_scope.

Import config face_analyzer multiple float_facts spec.

Lemma dot_same_length `{np.Blas} (u v : list float) :
  length u = length v -> np.dot u v = Return (np.ddot u v).
Proof.
  intros Hlen. unfold np.dot. rewrite Hlen, Nat.eqb_refl. reflexivity.
Qed.

Lemma dot_mismatch `{np.Blas} (u v : list float) :
  length u <> length v ->
  np.dot u v = Raise (np.not_aligned (length u) (length v)).
Proof.
  intros Hlen. unfold np.dot.
  destruct (Nat.eqb_spec (length u) (length v)) as [Heq|_]; [contradiction|].
  reflexivity.
Qed.

Lemma cosine_similarity_same_length `{np.Blas} (u v : list float) :
  length u = length v -> cosine_similarity u v = Return (cosine u v).
Proof.
  intros Hlen. unfold cosine_similarity. rewrite (dot_same_length _ _ Hlen).
  reflexivity.
Qed.

Lemma verify_faces_same_length `{Environ} `{np.Blas} (probe ref : list float) :
  length probe = length ref ->
  verify_faces probe ref =
    Return {| is_match := SIMILARITY_THRESHOLD <=? cosine probe ref;
              score := cosine probe ref |}.
Proof.
  intros Hlen. unfold verify_faces. rewrite (dot_same_length _ _ Hlen).
  reflexivity.
Qed.

(** With a zero norm on either side the score is NaN or an infinity. *)
Lemma cosine_zero_norm `{np.Blas} (u v : list float) :
  is_zero (np.linalg_norm u) = true \/ is_zero (np.linalg_norm v) = true ->
  is_nan (cosine u v) = true \/ is_infinity (cosine u v) = true.
Proof.
  intros Hz. apply div_zero_divisor, mul_zero_factor, Hz.
Qed.

(** The threshold in force is the configured one. *)
Lemma threshold_configured `{Environ} :
  SIMILARITY_THRESHOLD = threshold (environ !! "SIMILARITY_THRESHOLD").
Proof.
  unfold SIMILARITY_THRESHOLD, getenv, threshold.
  destruct (environ !! "SIMILARITY_THRESHOLD"); [reflexivity|].
  apply py_float_default.
Qed.

(** C2. For a probe and a reference embedding of equal length,
    [verify_faces] returns the result the specification words: its score is
    [dot(probe, ref) / (norm(probe) * norm(ref))] and its [is_match] is true
    exactly when the score is at least the configured threshold, which is
    the number SIMILARITY_THRESHOLD holds in the environment and 0.6 when the
    environment has no such variable. *)
Theorem verify_faces_score_threshold `{Environ} `{np.Blas} (probe ref : list float) :
  length probe = length ref ->
  let configured := threshold (environ !! "SIMILARITY_THRESHOLD") in
  exists r : VerificationResult,
    verify_faces probe ref = Return r
    /\ r = verify probe ref configured
    /\ score r = np.ddot probe ref / (np.linalg_norm probe * np.linalg_norm ref)
    /\ (is_match r = true <-> (configured <=? score r) = true)
    /\ (environ !! "SIMILARITY_THRESHOLD" = None -> configured = 0.6)
    /\ (forall text, environ !! "SIMILARITY_THRESHOLD" = Some text ->
          configured = py_float text).
Proof.
  intros Hlen configured. eexists.
  split; [apply verify_faces_same_length, Hlen|].
  rewrite threshold_configured. fold configured.
  split; [reflexivity|]. split; [reflexivity|]. split; [reflexivity|].
  unfold configured, threshold. split.
  - intros ->. reflexivity.
  - intros text ->. reflexivity.
Qed.

Lemma verify_faces_score_threshold_witness :
  (exists r : VerificationResult,
     @verify_faces fixtures.bare_environ np.index_order [1; 2; 2] [2; 1; 2] = Return r
     /\ r = {| is_match := true; score := 8 / (3 * 3) |}
     /\ @threshold fixtures.bare_environ
          (@environ fixtures.bare_environ !! "SIMILARITY_THRESHOLD") = 0.6)
  /\ (exists r : VerificationResult,
        @verify_faces fixtures.strict_environ np.index_order [1; 2; 2] [2; 1; 2] = Return r
        /\ r = {| is_match := false; score := 8 / (3 * 3) |}
        /\ @threshold fixtures.strict_environ
             (@environ fixtures.strict_environ !! "SIMILARITY_THRESHOLD") = 0.9).
Proof.
  split.
  - destruct (@verify_faces_score_threshold fixtures.bare_environ np.index_order
                [1; 2; 2] [2; 1; 2] eq_refl) as [r [Hr [Hspec [_ [_ [Hunset _]]]]]].
    exists r. split; [exact Hr|]. split; [rewrite Hspec; vm_compute; reflexivity|].
    apply Hunset. reflexivity.
  - destruct (@verify_faces_score_threshold fixtures.strict_environ np.index_order
                [1; 2; 2] [2; 1; 2] eq_refl) as [r [Hr [Hspec [_ [_ [_ Hset]]]]]].
    exists r. split; [exact Hr|]. split; [rewrite Hspec; vm_compute; reflexivity|].
    rewrite (Hset "0.9"%string eq_refl). vm_compute. reflexivity.
Defined.

(** C1, as the code has it.  For equal-length vectors of which at least one
    has zero norm, [cosine_similarity] and [verify_faces] raise nothing: they
    return a score that is NaN or an infinity, and [verify_faces] reports no
    match when it is NaN. *)
Theorem zero_norm_score `{Environ} `{np.Blas} (u v : list float) :
  length u = length v ->
  is_zero (np.linalg_norm u) = true \/ is_zero (np.linalg_norm v) = true ->
  exists s : float,
    cosine_similarity u v = Return s
    /\ verify_faces u v =
         Return {| is_match := SIMILARITY_THRESHOLD <=? s; score := s |}
    /\ (is_nan s = true \/ is_infinity s = true)
    /\ (is_nan s = true -> (SIMILARITY_THRESHOLD <=? s) = false).
Proof.
  intros Hlen Hz. exists (cosine u v).
  split; [apply cosine_similarity_same_length, Hlen|].
  split; [apply verify_faces_same_length, Hlen|].
  split; [apply cosine_zero_norm, Hz|apply leb_nan].
Qed.

Lemma zero_norm_score_witness :
  exists s : float,
    @cosine_similarity np.index_order [0; 0] [3; 4] = Return s
    /\ @verify_faces fixtures.bare_environ np.index_order [0; 0] [3; 4] =
         Return {| is_match := @SIMILARITY_THRESHOLD fixtures.bare_environ <=? s;
                   score := s |}
    /\ (is_nan s = true \/ is_infinity s = true)
    /\ (is_nan s = true ->
        (@SIMILARITY_THRESHOLD fixtures.bare_environ <=? s) = false).
Proof.
  apply (@zero_norm_score fixtures.bare_environ np.index_order [0; 0] [3; 4]).
  - reflexivity.
  - left. vm_compute. reflexivity.
Defined.

(** C1 as stated fails: the all-zero probe against [3, 4] is answered with
    the score NaN and no match, by both variants, and not with an error. *)
Lemma zero_norm_returns_nan :
  length [0; 0] = length [3; 4]
  /\ @np.linalg_norm np.index_order [0; 0] = 0
  /\ @verify_faces fixtures.bare_environ np.index_order [0; 0] [3; 4] =
       Return {| is_match := false; score := nan |}
  /\ @cosine_similarity np.index_order [0; 0] [3; 4] = Return nan
  /\ raises (@verify_faces fixtures.bare_environ np.index_order [0; 0] [3; 4]) = false
  /\ raises (@cosine_similarity np.index_order [0; 0] [3; 4]) = false.
Proof. vm_compute. repeat split; reflexivity. Qed.

(** C6, as the code has it.  For every vector whose squared norm, as
    computed, is a positive finite number (it has neither overflowed to
    infinity nor come out as zero; it may be subnormal),
    [cosine_similarity(u, u)] and the score of [verify_faces(u, u)] are
    within 2^-20, less than 1e-6, of 1.0. *)
Theorem self_similarity `{Environ} `{np.Blas} (u : list float) :
  classify (np.ddot u u) = PNormal \/ classify (np.ddot u u) = PSubn ->
  exists c : float,
    cosine_similarity u u = Return c
    /\ verify_faces u u =
         Return {| is_match := SIMILARITY_THRESHOLD <=? c; score := c |}
    /\ (below_one <=? c) = true
    /\ (c <=? above_one) = true.
Proof.
  intros Hpositive. exists (cosine u u).
  split; [apply cosine_similarity_same_length; reflexivity|].
  split; [apply verify_faces_same_length; reflexivity|].
  exact (binary64.self_ratio_positive _ Hpositive).
Qed.

Lemma self_similarity_witness :
  (exists c : float,
     @cosine_similarity np.index_order [3; 4] [3; 4] = Return c
     /\ @verify_faces fixtures.bare_environ np.index_order [3; 4] [3; 4] =
          Return {| is_match := @SIMILARITY_THRESHOLD fixtures.bare_environ <=? c;
                    score := c |}
     /\ (below_one <=? c) = true
     /\ (c <=? above_one) = true)
  /\ (exists c : float,
        @cosine_similarity np.index_order [0x1p-520; 0x1p-520] [0x1p-520; 0x1p-520]
        = Return c
        /\ @verify_faces fixtures.bare_environ np.index_order
             [0x1p-520; 0x1p-520] [0x1p-520; 0x1p-520] =
             Return {| is_match := @SIMILARITY_THRESHOLD fixtures.bare_environ <=? c;
                       score := c |}
        /\ (below_one <=? c) = true
        /\ (c <=? above_one) = true).
Proof.
  split.
  - apply (@self_similarity fixtures.bare_environ np.index_order [3; 4]).
    left. vm_compute. reflexivity.
  - apply (@self_similarity fixtures.bare_environ np.index_order
             [0x1p-520; 0x1p-520]).
    right. vm_compute. reflexivity.
Defined.

(** For every other vector the similarity with itself is NaN: the proviso of
    C6 is the whole of what the code needs. *)
Lemma self_similarity_elsewhere `{np.Blas} (u : list float) :
  classify (np.ddot u u) <> PNormal -> classify (np.ddot u u) <> PSubn ->
  exists c : float, cosine_similarity u u = Return c /\ is_nan c = true.
Proof.
  intros Hn Hs. exists (cosine u u).
  split; [apply cosine_similarity_same_length; reflexivity|].
  exact (binary64.self_ratio_nan _ Hn Hs).
Qed.

(** C6 as stated fails: the squared norm of the non-zero vector [1e200]
    overflows and that of [1e-200] underflows to zero, and for both the
    similarity with itself is NaN, which is within no tolerance of 1.0. *)
Lemma self_similarity_overflow :
  (1e200 =? 0) = false
  /\ @cosine_similarity np.index_order [1e200] [1e200] = Return nan
  /\ (1e-200 =? 0) = false
  /\ @cosine_similarity np.index_order [1e-200] [1e-200] = Return nan
  /\ (0.999999 <=? nan) = false
  /\ (nan <=? 1.000001) = false.
Proof. vm_compute. repeat split; reflexivity. Qed.

End similarity.

(** ** Aggregation of the models' embeddings *)

Module aggregation.

Local Open Scope float_scope.

Import dict dtype multiple spec.

Section Aggregation.
Context {E : Type} `{Dtype E} `{FloatSum}.

Lemma get_keys {V : Type} (d : dict V) (name : string) :
  name ∈ keys d -> exists v, get d name = Some v.
Proof.
  induction d as [|[k v] d IH]; cbn; intros Hin.
  - inversion Hin.
  - destruct (String.eqb_spec k name) as [->|Hne]; [eauto|].
    apply IH. inversion Hin; subst; [contradiction|assumption].
Qed.

Lemma get_tabulate {V : Type} (f : string -> V) (names : list string) (name : string) :
  name ∈ names -> get (map (fun n => (n, f n)) names) name = Some (f name).
Proof.
  induction names as [|k names IH]; cbn; intros Hin.
  - inversion Hin.
  - destruct (String.eqb_spec k name) as [->|Hne]; [reflexivity|].
    apply IH. inversion Hin; subst; [contradiction|assumption].
Qed.

Lemma getitem_normalized (embs : dict (list E)) (w : gmap string float) (name : string) :
  name ∈ keys embs ->
  getitem (normalized embs w) name = Return (effective_weight embs w name).
Proof.
  intros Hin. unfold getitem, normalized.
  rewrite (get_tabulate (fun n => weights_get w n / weight_sum embs w) _ _ Hin).
  reflexivity.
Qed.

Lemma getitem_embedding (embs : dict (list E)) (name : string) :
  name ∈ keys embs ->
  getitem embs name = Return (embedding_of embs name).
Proof.
  intros Hin. destruct (get_keys embs name Hin) as [e He].
  unfold getitem, embedding_of. rewrite He. reflexivity.
Qed.

Lemma map_nth_seq {A B : Type} (g : A -> B) (l : list A) (d : A) :
  map g l = map (fun i => g (nth i l d)) (seq 0 (length l)).
Proof.
  induction l as [|x l IH]; cbn; [reflexivity|].
  f_equal. rewrite <- seq_shift, map_map. exact IH.
Qed.

Lemma zip_with_maps {A B C D : Type} (f : B -> C -> D) (g : A -> B) (h : A -> C)
  (l : list A) :
  zip_with f (map g l) (map h l) = map (fun i => f (g i) (h i)) l.
Proof. induction l as [|x l IH]; cbn; [reflexivity|]. f_equal. exact IH. Qed.

Lemma add_arrays_same_length (a b : list E) :
  length a = length b -> add_arrays a b = Return (zip_with dt_add a b).
Proof. intros Hlen. unfold add_arrays. rewrite Hlen, Nat.eqb_refl. reflexivity. Qed.

(** One more term: the accumulator holds the sum over the models visited so
    far, coordinate by coordinate. *)
Lemma sum_terms_weighted (embs : dict (list E)) (w : gmap string float) (dim : nat)
  (names visited : list string) :
  (forall m, m ∈ names -> m ∈ keys embs) ->
  (forall m, m ∈ names -> length (embedding_of embs m) = dim) ->
  sum_terms (normalized embs w) embs
    (NdArray (map (weighted_at embs w visited) (seq 0 dim))) names =
  Return (NdArray (map (weighted_at embs w (visited ++ names)) (seq 0 dim))).
Proof.
  revert visited. induction names as [|m names IH]; intros visited Hkeys Hdim.
  - rewrite app_nil_r. reflexivity.
  - assert (Hm : m ∈ m :: names) by constructor.
    cbn [sum_terms].
    rewrite (getitem_normalized _ _ _ (Hkeys m Hm)).
    rewrite (getitem_embedding _ _ (Hkeys m Hm)).
    cbn [mbind outcome_bind Py.bind add_value fmap outcome_fmap].
    unfold scale.
    rewrite (map_nth_seq _ (embedding_of embs m) (of_int 0)), (Hdim m Hm).
    rewrite add_arrays_same_length by (rewrite !length_map; reflexivity).
    rewrite zip_with_maps.
    cbn [mbind outcome_bind Py.bind fmap outcome_fmap].
    replace (visited ++ m :: names) with ((visited ++ [m]) ++ names)
      by (rewrite <- app_assoc; reflexivity).
    rewrite <- IH.
    + f_equal. f_equal. apply map_ext. intros i.
      unfold weighted_at. rewrite fold_left_app. reflexivity.
    + intros m' Hm'. apply Hkeys. constructor. exact Hm'.
    + intros m' Hm'. apply Hdim. constructor. exact Hm'.
Qed.

(** The first term meets the integer [sum] starts from. *)
Lemma sum_terms_from_zero (embs : dict (list E)) (w : gmap string float) (dim : nat)
  (names : list string) :
  names <> [] ->
  (forall m, m ∈ names -> m ∈ keys embs) ->
  (forall m, m ∈ names -> length (embedding_of embs m) = dim) ->
  sum_terms (normalized embs w) embs (PyInt 0) names =
  Return (NdArray (map (weighted_at embs w names) (seq 0 dim))).
Proof.
  destruct names as [|m names]; [congruence|]. intros _ Hkeys Hdim.
  assert (Hm : m ∈ m :: names) by constructor.
  cbn [sum_terms].
  rewrite (getitem_normalized _ _ _ (Hkeys m Hm)).
  rewrite (getitem_embedding _ _ (Hkeys m Hm)).
  cbn [mbind outcome_bind Py.bind add_value].
  unfold scale.
  rewrite (map_nth_seq _ (embedding_of embs m) (of_int 0)), (Hdim m Hm).
  rewrite map_map.
  change (m :: names) with ([m] ++ names).
  rewrite <- sum_terms_weighted.
  - reflexivity.
  - intros m' Hm'. apply Hkeys. constructor. exact Hm'.
  - intros m' Hm'. apply Hdim. constructor. exact Hm'.
Qed.

(** With equal lengths the code computes the fused embedding of the
    specification. *)
Lemma aggregate_equal_lengths (embs : dict (list E))
  (weights : option (gmap string float)) (dim : nat) :
  embs <> [] ->
  (forall m e, get embs m = Some e -> length e = dim) ->
  (weight_sum embs (weights_used embs weights) =? 0) = false ->
  aggregate_embeddings embs weights =
    Return (NdArray (fused embs (weights_used embs weights) dim)).
Proof.
  intros Hne Hdim Hsum. unfold aggregate_embeddings.
  destruct embs as [|entry embs']; [congruence|].
  set (embs := entry :: embs') in *.
  fold (weights_used embs weights).
  fold (weight_sum embs (weights_used embs weights)). rewrite Hsum.
  fold (normalized embs (weights_used embs weights)).
  apply sum_terms_from_zero.
  - destruct entry. discriminate.
  - trivial.
  - intros m Hm. destruct (get_keys embs m Hm) as [e He].
    unfold embedding_of. rewrite He. exact (Hdim m e He).
Qed.

Lemma equal_weights_get (embs : dict (list E)) (m : string) :
  m ∈ keys embs ->
  weights_get (equal_weights embs) m =
    1 / float_of_Z (Z.of_nat (length embs)).
Proof.
  unfold weights_get, equal_weights.
  generalize (1 / float_of_Z (Z.of_nat (length embs))).
  intros c. induction (keys embs) as [|k names IH]; intros Hin.
  - inversion Hin.
  - cbn [map list_to_map foldr]. cbn.
    destruct (decide (k = m)) as [->|Hne].
    + rewrite lookup_insert_eq. reflexivity.
    + rewrite lookup_insert_ne by exact Hne. apply IH.
      inversion Hin; subst; [contradiction|assumption].
Qed.

(** *** Lengths that NumPy cannot broadcast *)

Lemma length_scale (w : float) (e : list E) : length (scale w e) = length e.
Proof. apply length_map. Qed.

Lemma add_arrays_length (a b : list E) (c : list E) :
  add_arrays a b = Return c ->
  length c = (if (length a =? 1)%nat then length b else length a).
Proof.
  unfold add_arrays.
  destruct (Nat.eqb_spec (length a) (length b)) as [Heq|Hne].
  - intros [= <-]. rewrite length_zip_with, <- Heq, Nat.min_id.
    destruct (Nat.eqb_spec (length a) 1); congruence.
  - destruct a as [|x [|x' a']]; destruct b as [|y [|y' b']];
      cbn in *; try congruence; intros [= <-]; cbn; rewrite ?length_map; reflexivity.
Qed.

Lemma add_arrays_refused (a b : list E) :
  length a <> length b -> length a <> 1%nat -> length b <> 1%nat ->
  add_arrays a b = Raise (np.not_broadcast (length a) (length b)).
Proof.
  intros Hne Ha Hb. unfold add_arrays.
  destruct (Nat.eqb_spec (length a) (length b)) as [Heq|_]; [contradiction|].
  destruct a as [|x [|x' a']]; destruct b as [|y [|y' b']];
    cbn in *; congruence.
Qed.

Lemma add_arrays_accepted (a b : list E) :
  length a = length b \/ length a = 1%nat \/ length b = 1%nat ->
  exists c, add_arrays a b = Return c.
Proof.
  intros Hok. unfold add_arrays.
  destruct (Nat.eqb_spec (length a) (length b)) as [Heq|Hne]; [eauto|].
  destruct a as [|x [|x' a']]; destruct b as [|y [|y' b']];
    cbn in *; eauto; lia.
Qed.

Lemma known_tail (nw : dict float) (embs : dict (list E)) (n : string)
  (names : list string) :
  known nw embs (n :: names) -> known nw embs names.
Proof. intros Hk m Hm. apply Hk. constructor. exact Hm. Qed.

(** Once the accumulator has a length other than one, a later embedding of
    another length other than one stops the sum. *)
Lemma sum_terms_refused_from (nw : dict float) (embs : dict (list E))
  (names : list string) (a : list E) (n : string) (e : list E) :
  known nw embs names ->
  length a <> 1%nat ->
  n ∈ names -> get embs n = Some e ->
  length e <> length a -> length e <> 1%nat ->
  exists p q, sum_terms nw embs (NdArray a) names = Raise (np.not_broadcast p q).
Proof.
  revert a. induction names as [|n0 names IH]; intros a Hknown Ha Hin He Hlen He1.
  - inversion Hin.
  - destruct (Hknown n0) as [[w0 Hw0] [e0 He0]]; [constructor|].
    cbn [sum_terms]. unfold getitem. rewrite Hw0, He0.
    cbn [mbind outcome_bind Py.bind add_value fmap outcome_fmap].
    destruct (decide (length e0 = length a \/ length e0 = 1%nat)) as [Hok|Hbad].
    + destruct (add_arrays_accepted a (scale w0 e0)) as [c Hc].
      { rewrite length_scale. destruct Hok; [left|right;right]; congruence. }
      rewrite Hc. cbn [Py.bind].
      assert (Hlc : length c = length a).
      { rewrite (add_arrays_length _ _ _ Hc).
        destruct (Nat.eqb_spec (length a) 1); [contradiction|reflexivity]. }
      apply IH; try assumption.
      * apply (known_tail _ _ _ _ Hknown).
      * congruence.
      * inversion Hin; subst; [|assumption].
        rewrite He0 in He. injection He as ->. destruct Hok; contradiction.
      * congruence.
    + rewrite add_arrays_refused; rewrite ?length_scale.
      * cbn. eauto.
      * intros Heq. apply Hbad. left. congruence.
      * exact Ha.
      * intros Heq. apply Hbad. right. exact Heq.
Qed.

Lemma add_value_stretchable (acc : value E) (term : list E) :
  stretchable acc ->
  exists c, add_value acc term = Return (NdArray c) /\ length c = length term.
Proof.
  destruct acc as [k|a]; cbn [stretchable add_value]; intros Hs.
  - eexists. split; [reflexivity|]. apply length_map.
  - destruct (add_arrays_accepted a term) as [c Hc]; [right; left; exact Hs|].
    rewrite Hc. exists c. split; [reflexivity|].
    rewrite (add_arrays_length _ _ _ Hc), Hs. reflexivity.
Qed.

(** Two embeddings of different lengths, neither of length one, stop the
    sum whatever the other embeddings are. *)
Lemma sum_terms_refused (nw : dict float) (embs : dict (list E))
  (names : list string) (acc : value E) (n1 n2 : string) (e1 e2 : list E) :
  known nw embs names ->
  stretchable acc ->
  n1 ∈ names -> get embs n1 = Some e1 ->
  n2 ∈ names -> get embs n2 = Some e2 ->
  length e1 <> length e2 -> length e1 <> 1%nat -> length e2 <> 1%nat ->
  exists p q, sum_terms nw embs acc names = Raise (np.not_broadcast p q).
Proof.
  revert acc. induction names as [|n0 names IH];
    intros acc Hknown Hacc Hin1 He1 Hin2 He2 Hne H1 H2.
  - inversion Hin1.
  - destruct (Hknown n0) as [[w0 Hw0] [e0 He0]]; [constructor|].
    cbn [sum_terms]. unfold getitem. rewrite Hw0, He0.
    cbn [mbind outcome_bind Py.bind].
    destruct (add_value_stretchable acc (scale w0 e0) Hacc) as [c [Hc Hlc]].
    rewrite Hc. cbn [Py.bind]. rewrite length_scale in Hlc.
    assert (Hrest : forall n e, n ∈ n0 :: names -> get embs n = Some e ->
                      length e <> length e0 -> n ∈ names).
    { intros n e Hin He Hlen. inversion Hin; subst; [|assumption].
      rewrite He0 in He. injection He as ->. contradiction. }
    destruct (decide (length e0 = 1%nat)) as [Hone|Hmany].
    + apply IH; try assumption.
      * apply (known_tail _ _ _ _ Hknown).
      * cbn. congruence.
      * apply (Hrest n1 e1); [assumption..|congruence].
      * apply (Hrest n2 e2); [assumption..|congruence].
    + destruct (decide (length e1 = length e0)) as [Heq|Hdiff].
      * apply (sum_terms_refused_from nw embs names c n2 e2);
          try assumption; try congruence.
        -- apply (known_tail _ _ _ _ Hknown).
        -- apply (Hrest n2 e2); [assumption..|congruence].
      * apply (sum_terms_refused_from nw embs names c n1 e1);
          try assumption; try congruence.
        -- apply (known_tail _ _ _ _ Hknown).
        -- apply (Hrest n1 e1); assumption.
Qed.

Lemma get_in_keys {V : Type} (d : dict V) (name : string) (v : V) :
  get d name = Some v -> name ∈ keys d.
Proof.
  induction d as [|[k v'] d IH]; cbn; [discriminate|].
  destruct (String.eqb_spec k name) as [->|Hne]; intros Hget.
  - constructor.
  - constructor. apply IH. exact Hget.
Qed.

Lemma aggregate_refused (embs : dict (list E))
  (weights : option (gmap string float)) (n1 n2 : string) (e1 e2 : list E) :
  get embs n1 = Some e1 -> get embs n2 = Some e2 ->
  length e1 <> length e2 -> length e1 <> 1%nat -> length e2 <> 1%nat ->
  exists msg, aggregate_embeddings embs weights = Raise (ValueError msg).
Proof.
  intros He1 He2 Hne H1 H2. unfold aggregate_embeddings.
  destruct embs as [|entry embs']; [discriminate|].
  set (embs := entry :: embs') in *.
  destruct (_ =? 0); [eauto|].
  destruct (sum_terms_refused
              (map (fun name => (name, weights_get (weights_used embs weights) name
                                       / weight_sum embs (weights_used embs weights)))
                   (keys embs))
              embs (keys embs) (PyInt 0) n1 n2 e1 e2) as [p [q Hpq]];
    try assumption.
  - intros n Hn. split.
    + eexists. apply (get_tabulate (fun n => _ / _)). exact Hn.
    + apply get_keys. exact Hn.
  - exact I.
  - apply (get_in_keys _ _ _ He1).
  - apply (get_in_keys _ _ _ He2).
  - unfold np.not_broadcast in Hpq. eexists. exact Hpq.
Qed.

(** C5. For a non-empty mapping of embeddings of one length and weights whose
    sum over the models present is not zero, [aggregate_embeddings] returns
    the element-wise sum over the models of
    [effective_weight[m] * embedding[m]], where [effective_weight[m]] is
    [weights.get(m, 0)] divided by the sum of [weights.get(m, 0)] over the
    models present; when the weights are omitted every model present has the
    weight 1/N. *)
Theorem aggregate_weighted_sum (embs : dict (list E))
  (weights : option (gmap string float)) (dim : nat) :
  embs <> [] ->
  (forall m e, get embs m = Some e -> length e = dim) ->
  (weight_sum embs (weights_used embs weights) =? 0) = false ->
  aggregate_embeddings embs weights =
    Return (NdArray (fused embs (weights_used embs weights) dim))
  /\ (weights = None ->
      forall m, m ∈ keys embs ->
        weights_get (weights_used embs weights) m =
          1 / float_of_Z (Z.of_nat (length embs))).
Proof.
  intros Hne Hdim Hsum. split.
  - apply aggregate_equal_lengths; assumption.
  - intros -> m Hm. apply equal_weights_get, Hm.
Qed.

(** C4. [aggregate_embeddings] raises when the mapping is empty, raises when
    the weights of the models present sum to zero, and otherwise, the
    embeddings having one length, returns an array of that length. *)
Theorem aggregate_raises_or_returns (embs : dict (list E))
  (weights : option (gmap string float)) (dim : nat) :
  (embs = [] ->
   aggregate_embeddings embs weights =
     Raise (ValueError "No embeddings to aggregate"))
  /\ (embs <> [] ->
      (weight_sum embs (weights_used embs weights) =? 0) = true ->
      aggregate_embeddings embs weights =
        Raise (ValueError "Total weight cannot be zero"))
  /\ (embs <> [] ->
      (weight_sum embs (weights_used embs weights) =? 0) = false ->
      (forall m e, get embs m = Some e -> length e = dim) ->
      exists a, aggregate_embeddings embs weights = Return (NdArray a)
                /\ length a = dim).
Proof.
  split; [|split].
  - intros ->. reflexivity.
  - intros Hne Hsum. unfold aggregate_embeddings.
    destruct embs as [|entry embs']; [congruence|].
    fold (weights_used (entry :: embs') weights).
    fold (weight_sum (entry :: embs') (weights_used (entry :: embs') weights)).
    rewrite Hsum. reflexivity.
  - intros Hne Hsum Hdim. eexists. split.
    + apply aggregate_equal_lengths; eassumption.
    + unfold fused. rewrite length_map, length_seq. reflexivity.
Qed.

End Aggregation.

Lemma aggregate_weighted_sum_witness :
  @aggregate_embeddings float float64 running_sum fixtures.two_models None =
    Return (NdArray (@fused float float64 running_sum fixtures.two_models
                       (weights_used fixtures.two_models None) 2))
  /\ (@None (gmap string float) = None ->
      forall m, m ∈ keys fixtures.two_models ->
        weights_get (weights_used fixtures.two_models None) m =
          1 / float_of_Z (Z.of_nat (length fixtures.two_models))).
Proof.
  apply (@aggregate_weighted_sum float float64 running_sum fixtures.two_models None 2).
  - discriminate.
  - intros m e. unfold fixtures.two_models, get.
    repeat (destruct (String.eqb _ m); [intros [= <-]; reflexivity|]).
    discriminate.
  - vm_compute. reflexivity.
Defined.

Lemma aggregate_raises_or_returns_witness :
  @aggregate_embeddings float float64 running_sum [] None =
    Raise (ValueError "No embeddings to aggregate")
  /\ @aggregate_embeddings float float64 running_sum fixtures.two_models
       (Some {[ "c"%string := 1 ]}) =
     Raise (ValueError "Total weight cannot be zero")
  /\ exists a, @aggregate_embeddings float float64 running_sum fixtures.two_models
                 (Some {[ "a"%string := 1 ]}) = Return (NdArray a)
               /\ length a = 2%nat.
Proof.
  split; [|split].
  - apply (@aggregate_raises_or_returns float float64 running_sum [] None 0).
    reflexivity.
  - apply (@aggregate_raises_or_returns float float64 running_sum fixtures.two_models
             (Some {[ "c"%string := 1 ]}) 2).
    + discriminate.
    + vm_compute. reflexivity.
  - apply (@aggregate_raises_or_returns float float64 running_sum fixtures.two_models
             (Some {[ "a"%string := 1 ]}) 2).
    + discriminate.
    + vm_compute. reflexivity.
    + intros m e. unfold fixtures.two_models, get.
      repeat (destruct (String.eqb _ m); [intros [= <-]; reflexivity|]).
      discriminate.
Defined.

(** C3, as the code has it.  [verify_faces] answers embeddings of unequal
    lengths with NumPy's shape error and computes nothing;
    [aggregate_embeddings] raises a [ValueError] whenever two of the
    embeddings have different lengths of which neither is one. *)
Theorem unequal_lengths_refused `{config.Environ} `{np.Blas} {E : Type} `{Dtype E}
  `{FloatSum}
  (probe ref : list float) (embs : dict (list E))
  (weights : option (gmap string float)) (n1 n2 : string) (e1 e2 : list E) :
  (length probe <> length ref ->
   face_analyzer.verify_faces probe ref =
     Raise (np.not_aligned (length probe) (length ref)))
  /\ (get embs n1 = Some e1 -> get embs n2 = Some e2 ->
      length e1 <> length e2 -> length e1 <> 1%nat -> length e2 <> 1%nat ->
      exists msg, aggregate_embeddings embs weights = Raise (ValueError msg)).
Proof.
  split.
  - intros Hlen. unfold face_analyzer.verify_faces.
    rewrite (similarity.dot_mismatch _ _ Hlen). reflexivity.
  - apply aggregate_refused.
Qed.

Lemma unequal_lengths_refused_witness :
  @face_analyzer.verify_faces fixtures.bare_environ np.index_order [1; 2] [1; 2; 3] =
    Raise (np.not_aligned 2 3)
  /\ exists msg,
       @aggregate_embeddings float float64 running_sum
         [("a"%string, [1; 2]); ("b"%string, [1; 2; 3])] None =
       Raise (ValueError msg).
Proof.
  destruct (@unequal_lengths_refused fixtures.bare_environ np.index_order float float64
              running_sum [1; 2] [1; 2; 3]
              [("a"%string, [1; 2]); ("b"%string, [1; 2; 3])] None
              "a" "b" [1; 2] [1; 2; 3]) as [Hverify Haggregate].
  split.
  - apply Hverify. cbn. lia.
  - apply Haggregate; cbn; first [reflexivity | lia].
Defined.

(** C3 as stated fails for the aggregation: an embedding of length one next
    to one of length three is not refused, it is stretched over the other. *)
Lemma length_one_is_broadcast :
  length [1] <> length [1; 2; 3]
  /\ @aggregate_embeddings float float64 running_sum
       [("a"%string, [1]); ("b"%string, [1; 2; 3])] None =
     Return (NdArray [1; 1.5; 2]).
Proof. split; [cbn; lia|]. vm_compute. reflexivity. Qed.

End aggregation.

(** ** The profile store and the request handlers *)

Module store.

Local Open Scope Z_scope.

Import config provider database face_analyzer profiles spec.

Lemma int64_range (n : Z) : int64 n = true <-> - 2 ^ 63 <= n < 2 ^ 63.
Proof. unfold int64. rewrite andb_true_iff, Z.leb_le, Z.ltb_lt. reflexivity. Qed.

Lemma next_rowid_above (rs : list Profile) (r : Profile) :
  r ∈ rs -> id r < next_rowid rs.
Proof.
  unfold next_rowid. induction rs as [|r0 rs IH]; intros Hin.
  - inversion Hin.
  - cbn [map fold_right]. inversion Hin; subst; [lia|].
    specialize (IH ltac:(assumption)). lia.
Qed.

Lemma insert_row_last (p : Profile) (rs : list Profile) :
  (forall r, r ∈ rs -> id r < id p) -> insert_row p rs = rs ++ [p].
Proof.
  induction rs as [|r rs IH]; intros Hbelow; [reflexivity|].
  cbn [insert_row].
  destruct (Z.ltb_spec (id p) (id r)) as [Hlt|_].
  - specialize (Hbelow r ltac:(constructor)). lia.
  - cbn. f_equal. apply IH. intros r' Hr'. apply Hbelow. constructor. exact Hr'.
Qed.

(** A row that was stored went after every row already there, under the
    next rowid, which SQLite can hold. *)
Lemma session_add_returns (d : db) (description : string)
  (embedding : list float) (now : Z) (p : Profile) (d' : db) :
  session_add d description embedding now = Return (p, d') ->
  exists rs,
    profile_table d = Some rs
    /\ p = Build_Profile (next_rowid rs) description embedding now
    /\ d' = {| profile_table := Some (rs ++ [p]) |}
    /\ int64 (id p) = true.
Proof.
  unfold session_add, rows.
  destruct (profile_table d) as [rs|]; [|discriminate].
  cbn [mbind outcome_bind Py.bind id].
  destruct (int64 (next_rowid rs)) eqn:Hfits; [|discriminate].
  rewrite insert_row_last
    by (intros r Hr; cbn [id]; apply next_rowid_above, Hr).
  intros [= <- <-]. exists rs. repeat split; first [reflexivity|exact Hfits].
Qed.

(** No row has the key: the lookup finds none. *)
Lemma find_absent (rs : list Profile) (pk : Z) :
  (forall r, r ∈ rs -> id r <> pk) -> find (fun p => id p =? pk) rs = None.
Proof.
  induction rs as [|r rs IH]; intros Habsent; [reflexivity|].
  cbn [find]. destruct (Z.eqb_spec (id r) pk) as [Heq|_].
  - exfalso. apply (Habsent r); [constructor|exact Heq].
  - apply IH. intros r' Hr'. apply Habsent. constructor. exact Hr'.
Qed.

Section Handlers.
Context `{Vision} `{Environ} `{np.Blas}.



(** What a listing returns, and when the driver refuses its bounds. *)
Lemma list_profiles_rows (d : db) (rs : list Profile) (skip limit : option Z) :
  profile_table d = Some rs ->
  list_profiles d skip limit =
    if int64 (default 100 limit) && int64 (default 0 skip)
    then Return (if default 100 limit <? 0 then drop (Z.to_nat (default 0 skip)) rs
                 else take (Z.to_nat (default 100 limit))
                           (drop (Z.to_nat (default 0 skip)) rs))
    else Raise too_large.
Proof.
  intros Htable. unfold list_profiles, select_offset_limit, rows.
  rewrite Htable. reflexivity.
Qed.

(** C8. Every start of the application drops and rebuilds the tables: the
    store it leaves is empty whatever it held, so no profile stored before
    the restart is found or listed afterwards; a request is answered as by
    an empty store, with a 404, with the empty list, or with the refusal of
    a key or bound that SQLite cannot hold. *)
Theorem startup_empties_store (d : db) :
  profile_table (main.on_startup d) = Some []
  /\ (forall pk, session_get (main.on_startup d) pk =
                   if int64 pk then Return None else Raise too_large)
  /\ (forall pk, get_profile (main.on_startup d) pk =
                   if int64 pk then Raise (HTTPException 404 "Profile not found")
                   else Raise too_large)
  /\ (forall skip limit,
        list_profiles (main.on_startup d) skip limit =
          if int64 (default 100 limit) && int64 (default 0 skip)
          then Return [] else Raise too_large).
Proof.
  assert (Htable : profile_table (main.on_startup d) = Some []) by reflexivity.
  split; [exact Htable|]. split; [reflexivity|]. split.
  - intros pk. unfold get_profile, session_get, rows. rewrite Htable.
    cbn [mbind outcome_bind Py.bind find]. destruct (int64 pk); reflexivity.
  - intros skip limit. rewrite (list_profiles_rows _ [] _ _ Htable).
    rewrite drop_nil, take_nil.
    destruct (int64 _ && int64 _); [|reflexivity].
    destruct (default 100 limit <? 0); reflexivity.
Qed.

(** C9, as the code has it.  A verification request for a profile id that
    no profile of the store has is answered whatever the uploaded file
    holds, the profile being looked up before the image is decoded and the
    face extracted: with a 404 when the id is one SQLite can hold, and
    otherwise with the driver's refusal of the id; never with a 400. *)
Theorem verify_unknown_profile (fa : FaceAnalyzer) (d : db) (rs : list Profile)
  (profile_id : Z) (file : list Byte.byte) (address : Z) :
  profile_table d = Some rs ->
  (forall r, r ∈ rs -> id r <> profile_id) ->
  verify_face fa d profile_id file address =
    if int64 profile_id then Raise (HTTPException 404 "Profile not found")
    else Raise too_large.
Proof.
  intros Htable Habsent. unfold verify_face, session_get, rows.
  rewrite Htable. cbn [mbind outcome_bind Py.bind].
  destruct (int64 profile_id); [|reflexivity].
  cbn [mbind outcome_bind Py.bind].
  rewrite (find_absent rs _ Habsent). reflexivity.
Qed.


End Handlers.

Lemma verify_unknown_profile_witness :
  @verify_face fixtures.stub_vision fixtures.bare_environ np.index_order fixtures.camera
    fixtures.three_created.2 99999 [] 4096 =
  Raise (HTTPException 404 "Profile not found").
Proof.
  apply (@verify_unknown_profile fixtures.stub_vision fixtures.bare_environ
           np.index_order fixtures.camera fixtures.three_created.2
           fixtures.three_created.1).
  - vm_compute. reflexivity.
  - intros r Hr. vm_compute in Hr.
    repeat (apply elem_of_cons in Hr as [->|Hr]; [discriminate|]). inversion Hr.
Defined.

(** C9 as stated fails for an id that SQLite cannot hold: 2^63 is the id of
    no profile, and the request is answered with the driver's
    [OverflowError], a 500 and not a 404. *)
Lemma unknown_id_overflows :
  profile_table fixtures.three_created.2 = Some fixtures.three_created.1
  /\ Forall (fun r => id r <> 2 ^ 63) fixtures.three_created.1
  /\ @verify_face fixtures.stub_vision fixtures.bare_environ np.index_order fixtures.camera
       fixtures.three_created.2 (2 ^ 63) fixtures.photo 4096 =
     Raise (OverflowError "Python int too large to convert to SQLite INTEGER").
Proof.
  split; [vm_compute; reflexivity|]. split; [|vm_compute; reflexivity].
  vm_compute. repeat constructor; discriminate.
Qed.



End store.

(** ** Images with several faces *)

Module detection.

Import dict provider face_analyzer multiple.

Lemma get_setitem_same {V : Type} (d : dict V) (k : string) (v : V) :
  get (setitem d k v) k = Some v.
Proof.
  induction d as [|[k0 v0] d IH]; cbn.
  - rewrite String.eqb_refl. reflexivity.
  - destruct (String.eqb_spec k0 k) as [->|Hne]; cbn.
    + rewrite String.eqb_refl. reflexivity.
    + destruct (String.eqb_spec k0 k); [contradiction|exact IH].
Qed.

Lemma get_setitem_other {V : Type} (d : dict V) (k k' : string) (v : V) :
  k <> k' -> get (setitem d k v) k' = get d k'.
Proof.
  intros Hne. induction d as [|[k0 v0] d IH]; cbn.
  - destruct (String.eqb_spec k k'); [contradiction|reflexivity].
  - destruct (String.eqb_spec k0 k) as [->|Hne0]; cbn.
    + destruct (String.eqb_spec k k'); [contradiction|reflexivity].
    + destruct (String.eqb_spec k0 k'); [reflexivity|exact IH].
Qed.

Section Models.
Context `{Vision}.

(** The models not called [name] leave its entry alone, and a face once
    detected stays detected. *)
Lemma get_embeddings_step_other (img_np : pixels) (apps : dict FaceAnalysis)
  (embs : dict (list F32.f32)) (detected : bool) (name : string) :
  name ∉ keys apps ->
  get (fold_left (get_embeddings_step img_np) apps (embs, detected)).1 name
    = get embs name
  /\ (detected = true ->
      (fold_left (get_embeddings_step img_np) apps (embs, detected)).2 = true).
Proof.
  revert embs detected. induction apps as [|[k fa] apps IH]; intros embs detected Hnot.
  - cbn. split; [reflexivity|trivial].
  - assert (Hk : k <> name) by (intros ->; apply Hnot; constructor).
    assert (Hrest : name ∉ keys apps) by (intros Hin; apply Hnot; constructor; exact Hin).
    cbn [fold_left get_embeddings_step].
    destruct (fa img_np) as [[|face others]|e].
    + apply IH, Hrest.
    + destruct (IH (setitem embs k (embedding face)) true Hrest) as [Hget Hflag].
      rewrite Hget, (get_setitem_other _ _ _ _ Hk). split; [reflexivity|].
      intros _. apply Hflag. reflexivity.
    + apply IH, Hrest.
Qed.

(** The entry of a model that detects faces is the embedding of the first
    of them. *)
Lemma get_embeddings_entry (img_np : pixels) (apps : dict FaceAnalysis)
  (embs : dict (list F32.f32)) (detected : bool) (name : string)
  (fa : FaceAnalysis) (face : Face) (others : list Face) :
  wf apps ->
  get apps name = Some fa ->
  fa img_np = Return (face :: others) ->
  get (fold_left (get_embeddings_step img_np) apps (embs, detected)).1 name
    = Some (embedding face)
  /\ (fold_left (get_embeddings_step img_np) apps (embs, detected)).2 = true.
Proof.
  revert embs detected.
  induction apps as [|[k fa0] apps IH]; intros embs detected Hwf Hget Hfaces.
  - discriminate.
  - apply NoDup_cons in Hwf as [Hfresh Hwf].
    cbn [get] in Hget. cbn [fold_left get_embeddings_step].
    destruct (String.eqb_spec k name) as [->|Hne].
    + injection Hget as ->. rewrite Hfaces.
      destruct (get_embeddings_step_other img_np apps
                  (setitem embs name (embedding face)) true name Hfresh)
        as [Hkeep Hflag].
      rewrite Hkeep, get_setitem_same. split; [reflexivity|].
      apply Hflag. reflexivity.
    + destruct (fa0 img_np) as [[|face0 others0]|e]; apply IH; assumption.
Qed.

End Models.

Section FirstFace.
Context `{Vision} `{config.Environ}.

(** C10, as the code has it.  When the model detects the faces
    [face :: others] in an image, the probe embedding and the stored
    embedding are those of [face], and the description is the one of [face]
    closed by the number of faces detected; a model of the multi-model
    variant that detects them contributes the embedding of [face]. *)
Theorem first_face_used (self : FaceAnalyzer) (image : Image) (img_bgr : pixels)
  (face : Face) (others : list Face)
  (apps : dict FaceAnalysis) (name : string) (fa : FaceAnalysis) (img_np : pixels) :
  cvtColor_RGB2BGR (np_array image) = Return img_bgr ->
  face_app self img_bgr = Return (face :: others) ->
  wf apps -> get apps name = Some fa ->
  fa img_np = Return (face :: others) ->
  get_face_embedding self image = Return (Some (embedding face))
  /\ analyze_face self image =
       Return (describe face (S (length others)),
               Some (map F32.to_float (embedding face)))
  /\ exists embs, get_embeddings apps img_np = Return embs
                  /\ get embs name = Some (embedding face).
Proof.
  intros Hbgr Hfaces Hwf Hget Hfa. split; [|split].
  - unfold get_face_embedding. rewrite Hbgr. cbn [mbind outcome_bind Py.bind].
    rewrite Hfaces. reflexivity.
  - unfold analyze_face. rewrite Hbgr. cbn [mbind outcome_bind Py.bind].
    rewrite Hfaces. reflexivity.
  - unfold get_embeddings.
    destruct (get_embeddings_entry img_np apps [] false name fa face others
                Hwf Hget Hfa) as [Hentry Hflag].
    destruct (fold_left _ apps _) as [embs detected]. cbn in Hentry, Hflag.
    rewrite Hflag. cbn. eauto.
Qed.

End FirstFace.

Lemma first_face_used_witness :
  @get_face_embedding fixtures.stub_vision fixtures.two_faces fixtures.photo =
    Return (Some (embedding fixtures.alice))
  /\ @analyze_face fixtures.stub_vision fixtures.two_faces fixtures.photo =
       Return (describe fixtures.alice 2,
               Some (map F32.to_float (embedding fixtures.alice)))
  /\ exists embs,
       @get_embeddings fixtures.stub_vision
         [("buffalo_l"%string, fixtures.finds [fixtures.alice; fixtures.bob])]
         fixtures.photo = Return embs
       /\ get embs "buffalo_l" = Some (embedding fixtures.alice).
Proof.
  apply (@first_face_used fixtures.stub_vision fixtures.two_faces fixtures.photo fixtures.photo
           fixtures.alice [fixtures.bob]
           [("buffalo_l"%string, fixtures.finds [fixtures.alice; fixtures.bob])]
           "buffalo_l" (fixtures.finds [fixtures.alice; fixtures.bob])
           fixtures.photo).
  - reflexivity.
  - reflexivity.
  - repeat constructor. intros Hin. inversion Hin.
  - reflexivity.
  - reflexivity.
Defined.

(** C10 as stated fails for the description: the same first face is
    described differently when a second face is in the image, because the
    description ends with the number of faces detected. *)
Lemma description_counts_faces :
  exists emb,
    @analyze_face fixtures.stub_vision fixtures.one_face fixtures.photo =
      Return ("Face dimensions: 1.20 height/width ratio. Eye spacing: 0.400 relative to face width. Nose positioned at 0.550 vertical face ratio. Mouth width: 0.300 relative to face width. Landmark confidence: 1 face(s) detected."%string, emb)
    /\ @analyze_face fixtures.stub_vision fixtures.two_faces fixtures.photo =
      Return ("Face dimensions: 1.20 height/width ratio. Eye spacing: 0.400 relative to face width. Nose positioned at 0.550 vertical face ratio. Mouth width: 0.300 relative to face width. Landmark confidence: 2 face(s) detected."%string, emb)
    /\ @analyze_face fixtures.stub_vision fixtures.one_face fixtures.photo
       <> @analyze_face fixtures.stub_vision fixtures.two_faces fixtures.photo.
Proof.
  eexists. split; [vm_compute; reflexivity|].
  split; [vm_compute; reflexivity|]. vm_compute. discriminate.
Qed.

End detection.

(** ** Scores: symmetry, and an embedding against itself *)

Module scores.

Local Open Scope float_scope.

Import config face_analyzer multiple float_facts spec.

Lemma SFmul_comm (prec emax : Z) (x y : spec_float) :
  SFmul prec emax x y = SFmul prec emax y x.
Proof.
  destruct x as [sx|sx| |sx mx ex], y as [sy|sy| |sy my ey]; cbn;
    rewrite ?(xorb_comm sx sy); try reflexivity.
  rewrite (Pos.mul_comm mx my), (Z.add_comm ex ey). reflexivity.
Qed.

Lemma mul_comm (x y : float) : x * y = y * x.
Proof.
  apply Prim2SF_inj. rewrite !mul_spec. apply SFmul_comm.
Qed.

Lemma SFfma_comm (x y z : spec_float) : np.SFfma x y z = np.SFfma y x z.
Proof.
  destruct x as [sx|sx| |sx mx ex], y as [sy|sy| |sy my ey]; cbn;
    rewrite ?(xorb_comm sx sy); try reflexivity.
  rewrite (Pos.mul_comm mx my), (Z.add_comm ex ey). reflexivity.
Qed.

Lemma fma_comm (x y z : float) : np.fma x y z = np.fma y x z.
Proof. unfold np.fma. rewrite SFfma_comm. reflexivity. Qed.

(** Whatever the arrangement of the sum, each of its terms is a product of
    two elements of one index. *)
Lemma reduce_comm (r : np.reduction) (u v : list float) :
  np.reduce r u v = np.reduce r v u.
Proof.
  induction r as [|i|l IHl r IHr|i acc IH]; cbn [np.reduce].
  - reflexivity.
  - apply mul_comm.
  - rewrite IHl, IHr. reflexivity.
  - rewrite IH. apply fma_comm.
Qed.

Lemma ddot_comm `{np.Blas} (u v : list float) :
  length u = length v -> np.ddot u v = np.ddot v u.
Proof.
  intros Hlen. unfold np.ddot. rewrite Hlen. apply reduce_comm.
Qed.

Lemma cosine_comm `{np.Blas} (u v : list float) :
  length u = length v -> cosine u v = cosine v u.
Proof.
  intros Hlen. unfold cosine. rewrite (ddot_comm u v Hlen).
  rewrite (mul_comm (np.linalg_norm u)). reflexivity.
Qed.

(** The order of [SFcompare] on numbers of one sign is that of the pairs
    (exponent, mantissa), whatever the mantissas' sizes. *)
Lemma SFleb_trans (a b c : spec_float) :
  SFleb a b = true -> SFleb b c = true -> SFleb a c = true.
Proof.
  unfold SFleb, SFcompare.
  destruct a as [[|]|[|]| |[|] ma ea], b as [[|]|[|]| |[|] mb eb],
    c as [[|]|[|]| |[|] mc ec]; try discriminate; try reflexivity;
    change (Pos.compare_cont Eq) with Pos.compare;
    destruct (Z.compare_spec ea eb), (Z.compare_spec eb ec),
      (Z.compare_spec ea ec); cbn [CompOpp]; try discriminate; try reflexivity;
      try lia; subst;
    destruct (Pos.compare_spec ma mb), (Pos.compare_spec mb mc),
      (Pos.compare_spec ma mc); cbn [CompOpp]; try discriminate;
      try reflexivity; lia.
Qed.

Lemma leb_trans (a b c : float) :
  (a <=? b) = true -> (b <=? c) = true -> (a <=? c) = true.
Proof. rewrite !leb_spec. apply SFleb_trans. Qed.

(** The threshold in force when the variable is not set. *)
Lemma default_threshold `{Environ} :
  environ !! "SIMILARITY_THRESHOLD" = None -> SIMILARITY_THRESHOLD = 0.6.
Proof.
  intros Hunset. unfold SIMILARITY_THRESHOLD, getenv. rewrite Hunset.
  apply py_float_default.
Qed.

(** An embedding against itself, under a threshold of at most 1 - 2^-20. *)
Lemma verify_same `{Environ} `{np.Blas} (u : list float) :
  (SIMILARITY_THRESHOLD <=? below_one) = true ->
  classify (np.ddot u u) = PNormal ->
  exists c, verify_faces u u = Return {| is_match := true; score := c |}
            /\ (below_one <=? c) = true /\ (c <=? above_one) = true.
Proof.
  intros Hthreshold Hnormal. exists (cosine u u).
  destruct (binary64.self_ratio_near_one _ Hnormal) as [Hlo Hhi].
  rewrite similarity.verify_faces_same_length by reflexivity.
  fold (np.linalg_norm u) in Hlo, Hhi. fold (cosine u u) in Hlo, Hhi.
  rewrite (leb_trans _ _ _ Hthreshold Hlo). auto.
Qed.

(** X7. For embeddings of equal length the score is symmetric:
    [cosine_similarity] and [verify_faces] give the same result with the two
    arguments exchanged. *)
Theorem score_symmetric `{Environ} `{np.Blas} (u v : list float) :
  length u = length v ->
  cosine_similarity u v = cosine_similarity v u
  /\ verify_faces u v = verify_faces v u.
Proof.
  intros Hlen.
  rewrite !similarity.cosine_similarity_same_length,
    !similarity.verify_faces_same_length by congruence.
  rewrite (cosine_comm u v Hlen). split; reflexivity.
Qed.

Lemma score_symmetric_witness :
  @cosine_similarity np.index_order [1; 2; 2] [2; 1; 2] =
    @cosine_similarity np.index_order [2; 1; 2] [1; 2; 2]
  /\ @verify_faces fixtures.bare_environ np.index_order [1; 2; 2] [2; 1; 2] =
     @verify_faces fixtures.bare_environ np.index_order [2; 1; 2] [1; 2; 2].
Proof.
  apply (@score_symmetric fixtures.bare_environ np.index_order [1; 2; 2] [2; 1; 2]).
  reflexivity.
Defined.

(** X8. With no SIMILARITY_THRESHOLD in the environment, [verify_faces] of
    an embedding against itself is a match, the squared norm being a normal
    number. *)
Theorem same_embedding_matches `{Environ} `{np.Blas} (u : list float) :
  environ !! "SIMILARITY_THRESHOLD" = None ->
  classify (np.ddot u u) = PNormal ->
  exists r, verify_faces u u = Return r /\ is_match r = true.
Proof.
  intros Hunset Hnormal.
  destruct (verify_same u) as [c [Hverify _]]; [|exact Hnormal|].
  - rewrite (default_threshold Hunset). reflexivity.
  - eexists. split; [exact Hverify|reflexivity].
Qed.

Lemma same_embedding_matches_witness :
  exists r, @verify_faces fixtures.bare_environ np.index_order [3; 4] [3; 4] = Return r
            /\ is_match r = true.
Proof.
  apply (@same_embedding_matches fixtures.bare_environ np.index_order [3; 4]).
  - reflexivity.
  - vm_compute. reflexivity.
Defined.

End scores.

(** ** Products with one and sums with zero are exact *)

Module exact.

Local Open Scope Z_scope.

Lemma shr_1_double (m : Z) :
  0 < m ->
  shr_1 {| shr_m := 2 * m; shr_r := false; shr_s := false |} =
    {| shr_m := m; shr_r := false; shr_s := false |}.
Proof. destruct m as [|p|p]; [lia|reflexivity|lia]. Qed.

(** Shifting out [k] zero digits loses nothing. *)
Lemma iter_shr_exact (k : positive) (m : Z) :
  0 < m ->
  SpecFloat.iter_pos shr_1 k
    {| shr_m := m * 2 ^ Z.pos k; shr_r := false; shr_s := false |} =
    {| shr_m := m; shr_r := false; shr_s := false |}.
Proof.
  revert m. induction k as [k IH|k IH|]; intros m Hm; cbn [SpecFloat.iter_pos].
  - change (Z.pos k~1) with (2 * Z.pos k + 1).
    replace (m * 2 ^ (2 * Z.pos k + 1))
      with (2 * (m * 2 ^ Z.pos k * 2 ^ Z.pos k)).
    + assert (0 < 2 ^ Z.pos k) by (apply Z.pow_pos_nonneg; lia).
      rewrite shr_1_double by nia. rewrite IH by nia. apply IH, Hm.
    + rewrite Z.pow_add_r, Z.pow_1_r by lia.
      replace (2 * Z.pos k) with (Z.pos k + Z.pos k) by lia.
      rewrite Z.pow_add_r by lia. ring.
  - change (Z.pos k~0) with (2 * Z.pos k).
    replace (m * 2 ^ (2 * Z.pos k)) with (m * 2 ^ Z.pos k * 2 ^ Z.pos k).
    + assert (0 < 2 ^ Z.pos k) by (apply Z.pow_pos_nonneg; lia).
      rewrite IH by nia. apply IH, Hm.
    + replace (2 * Z.pos k) with (Z.pos k + Z.pos k) by lia.
      rewrite Z.pow_add_r by lia. ring.
  - rewrite Z.pow_1_r, (Z.mul_comm m 2). apply shr_1_double, Hm.
Qed.

Lemma Zdigits2_shift (m k : Z) :
  0 < m -> 0 <= k -> Zdigits2 (m * 2 ^ k) = Zdigits2 m + k.
Proof.
  intros Hm Hk. pose proof (binary64.Zdigits2_bounds m Hm) as [Hlo Hhi].
  assert (H2 : 0 < 2 ^ k) by (apply Z.pow_pos_nonneg; lia).
  assert (Hd : 0 < Zdigits2 m) by (destruct m; cbn; lia).
  apply binary64.Zdigits2_unique; [nia|].
  replace (Zdigits2 m + k - 1) with (Zdigits2 m - 1 + k) by lia.
  rewrite !Z.pow_add_r by lia. nia.
Qed.

(** A canonical number whose mantissa carries [k] more zero digits rounds to
    itself. *)
Lemma binary_round_aux_shifted (prec emax : Z) (s : bool) (m k : positive) (e : Z) :
  bounded prec emax m e = true ->
  binary_round_aux prec emax s (Z.pos m * 2 ^ Z.pos k) (e - Z.pos k) loc_Exact =
    S754_finite s m e.
Proof.
  unfold bounded, canonical_mantissa. intros Hb.
  apply andb_true_iff in Hb as [Hcan He]. apply Z.eqb_eq in Hcan.
  unfold binary_round_aux, shr_fexp.
  rewrite Zdigits2_shift by lia.
  replace (Zdigits2 (Z.pos m) + Z.pos k + (e - Z.pos k))
    with (Z.pos (digits2_pos m) + e) by (cbn [Zdigits2]; lia).
  rewrite Hcan.
  replace (e - (e - Z.pos k)) with (Z.pos k) by lia.
  cbn [shr shr_record_of_loc]. rewrite iter_shr_exact by lia.
  cbn [shr_m loc_of_shr_record round_nearest_even Zdigits2].
  replace (e - Z.pos k + Z.pos k) with e by lia.
  rewrite Hcan, Z.sub_diag. cbn [shr shr_record_of_loc shr_m].
  rewrite He. reflexivity.
Qed.

(** The product of one, written with the mantissa [2^k] and the exponent
    [-k], and a valid number is that number. *)
Lemma SFmul_one (prec emax : Z) (k : positive) (x : spec_float) :
  SpecFloat.valid_binary prec emax x = true ->
  SFmul prec emax (S754_finite false (Z.to_pos (2 ^ Z.pos k)) (- Z.pos k)) x = x.
Proof.
  destruct x as [s|s| |s m e]; try reflexivity.
  cbn [SpecFloat.valid_binary SFmul xorb]. intros Hb.
  rewrite Pos2Z.inj_mul, Z2Pos.id by (apply Z.pow_pos_nonneg; lia).
  rewrite Z.mul_comm, (Z.add_comm (- Z.pos k) e).
  apply (binary_round_aux_shifted prec emax s m k e Hb).
Qed.

Local Open Scope float_scope.

Lemma mul_one_l (x : float) : 1 * x = x.
Proof.
  apply Prim2SF_inj. rewrite mul_spec.
  exact (SFmul_one FloatOps.prec FloatOps.emax 52 (Prim2SF x) (Prim2SF_valid x)).
Qed.

(** Zero plus a number is that number, a negative zero apart. *)
Lemma add_zero_l (x : float) : 0 + x = if is_zero x then 0 else x.
Proof.
  apply Prim2SF_inj. rewrite add_spec.
  destruct (is_zero x) eqn:Hz.
  - apply float_facts.is_zero_spec in Hz as [s ->]. destruct s; reflexivity.
  - destruct (Prim2SF x) as [s|s| |s m e] eqn:Hx; try reflexivity.
    assert (is_zero x = true) by (apply float_facts.is_zero_spec; eauto).
    congruence.
Qed.

Lemma F32_mul_one_l (x : F32.f32) :
  SpecFloat.valid_binary F32.prec F32.emax x = true ->
  F32.mul (F32.of_float 1) x = x.
Proof. exact (SFmul_one F32.prec F32.emax 23 x). Qed.

Lemma F32_add_zero_l (x : F32.f32) :
  F32.add (F32.of_Z 0) x = match x with S754_zero _ => S754_zero false | _ => x end.
Proof. destruct x as [[|]|s| |s m e]; reflexivity. Qed.

End exact.

(** ** Aggregation: outcomes, weights and small cases *)

Module fusion.

Local Open Scope float_scope.

Import dict dtype multiple spec.

Section Aggregation.
Context {E : Type} `{Dtype E} `{FloatSum}.

(** With a weight and an embedding for every name, the sum stops on a
    refused addition only, and what it returns is what it was given or an
    array. *)
Lemma sum_terms_outcome (nw : dict float) (embs : dict (list E))
  (names : list string) (acc : value E) :
  known nw embs names ->
  (exists p q, sum_terms nw embs acc names = Raise (np.not_broadcast p q))
  \/ (names = [] /\ sum_terms nw embs acc names = Return acc)
  \/ (exists a, sum_terms nw embs acc names = Return (NdArray a)).
Proof.
  revert acc. induction names as [|n names IH]; intros acc Hknown.
  - right. left. split; reflexivity.
  - destruct (Hknown n) as [[w Hw] [e He]]; [constructor|].
    cbn [sum_terms]. unfold getitem. rewrite Hw, He.
    cbn [mbind outcome_bind Py.bind].
    assert (Hadd : (exists p q, add_value acc (scale w e) = Raise (np.not_broadcast p q))
                   \/ exists c, add_value acc (scale w e) = Return (NdArray c)).
    { destruct acc as [k|a]; cbn [add_value]; [eauto|].
      unfold add_arrays. destruct (_ =? _)%nat; [cbn; eauto|].
      destruct a as [|x [|y a]], (scale w e) as [|u [|t l]]; cbn; eauto. }
    destruct Hadd as [[p [q Hpq]]|[c Hc]]; rewrite ?Hpq, ?Hc; cbn [Py.bind].
    + left. eauto.
    + destruct (IH (NdArray c) (aggregation.known_tail _ _ _ _ Hknown))
        as [Hr|[[_ Hr]|Hr]]; eauto.
Qed.

Lemma aggregate_error_or_array (embs : dict (list E))
  (weights : option (gmap string float)) :
  (exists msg, aggregate_embeddings embs weights = Raise (ValueError msg))
  \/ (exists a, aggregate_embeddings embs weights = Return (NdArray a)).
Proof.
  unfold aggregate_embeddings. destruct embs as [|entry embs']; [eauto|].
  set (embs := entry :: embs').
  destruct (_ =? 0); [eauto|].
  match goal with |- context [sum_terms ?nw _ _ _] => set (table := nw) end.
  destruct (sum_terms_outcome table embs (keys embs) (PyInt 0))
    as [[p [q Hr]]|[[Hnil _]|[a Hr]]].
  - intros n Hn. split.
    + eexists. apply (aggregation.get_tabulate (fun n => _ / _)). exact Hn.
    + apply aggregation.get_keys. exact Hn.
  - left. unfold np.not_broadcast in Hr. eauto.
  - destruct entry. discriminate.
  - right. eauto.
Qed.

(** X9. Whatever the embeddings and the weights, [aggregate_embeddings]
    either raises a [ValueError] or returns an array: it raises no
    [KeyError], and never returns the integer the sum starts from. *)
Theorem aggregate_outcomes (embs : dict (list E)) (weights : option (gmap string float)) :
  (exists msg, aggregate_embeddings embs weights = Raise (ValueError msg))
  \/ (exists a, aggregate_embeddings embs weights = Return (NdArray a)).
Proof. exact (aggregate_error_or_array embs weights). Qed.

(** X10. Two weight tables that agree on the models present give the same
    aggregation: a weight for a model that has no embedding is never used. *)
Theorem absent_weights_ignored (embs : dict (list E)) (w w' : gmap string float) :
  (forall m, m ∈ keys embs -> weights_get w m = weights_get w' m) ->
  aggregate_embeddings embs (Some w) = aggregate_embeddings embs (Some w').
Proof.
  intros Hsame. unfold aggregate_embeddings. destruct embs as [|entry embs']; [reflexivity|].
  set (embs := entry :: embs') in *.
  assert (Hsum : map (weights_get w) (keys embs) = map (weights_get w') (keys embs)).
  { apply map_ext_in. intros m Hm. apply Hsame, list_elem_of_In, Hm. }
  rewrite Hsum.
  assert (Htable : map (fun name => (name, weights_get w name
                                         / float_sum (map (weights_get w') (keys embs))))
                     (keys embs)
                   = map (fun name => (name, weights_get w' name
                                         / float_sum (map (weights_get w') (keys embs))))
                     (keys embs)).
  { apply map_ext_in. intros m Hm. rewrite (Hsame m) by apply list_elem_of_In, Hm.
    reflexivity. }
  rewrite Htable. reflexivity.
Qed.

(** X11. For two models, the weights 1 and 1 give what the omitted weights
    give, the sum of the embeddings weighted by one half each; the sum of the
    weights being exact. *)
Theorem unit_weights_average (a b : string) (ea eb : list E) :
  a <> b ->
  float_sum [1; 1] = 2 ->
  float_sum [0.5; 0.5] = 1 ->
  aggregate_embeddings [(a, ea); (b, eb)] (Some {[ a := 1; b := 1 ]})
  = aggregate_embeddings [(a, ea); (b, eb)] None
  /\ aggregate_embeddings [(a, ea); (b, eb)] None
     = sum_terms [(a, 0.5); (b, 0.5)] [(a, ea); (b, eb)] (PyInt 0) [a; b].
Proof.
  intros Hab Hunit Hhalf.
  assert (Hnone : aggregate_embeddings [(a, ea); (b, eb)] None
                  = sum_terms [(a, 0.5); (b, 0.5)] [(a, ea); (b, eb)] (PyInt 0) [a; b]).
  { unfold aggregate_embeddings. cbn [keys map fst].
    rewrite !(aggregation.equal_weights_get [(a, ea); (b, eb)])
      by (cbn; set_solver).
    change (1 / float_of_Z (Z.of_nat (length [(a, ea); (b, eb)]))) with 0.5.
    rewrite Hhalf. reflexivity. }
  split; [|exact Hnone]. rewrite Hnone.
  unfold aggregate_embeddings. cbn [keys map fst].
  unfold weights_get.
  rewrite lookup_insert_eq, lookup_insert_ne, lookup_singleton_eq by exact Hab.
  cbn [default from_option Datatypes.id]. rewrite Hunit. reflexivity.
Qed.

End Aggregation.

Lemma absent_weights_ignored_witness :
  @aggregate_embeddings float float64 running_sum fixtures.two_models
    (Some {[ "a"%string := 1; "b"%string := 3 ]})
  = @aggregate_embeddings float float64 running_sum fixtures.two_models
      (Some {[ "a"%string := 1; "b"%string := 3; "c"%string := 5 ]}).
Proof.
  apply (@absent_weights_ignored float float64 running_sum).
  intros m Hm. unfold fixtures.two_models in Hm. cbn [keys map fst] in Hm.
  apply elem_of_cons in Hm as [->|Hm]; [vm_compute; reflexivity|].
  apply elem_of_cons in Hm as [->|Hm]; [vm_compute; reflexivity|].
  inversion Hm.
Defined.

Lemma unit_weights_average_witness :
  @aggregate_embeddings float float64 running_sum fixtures.two_models
    (Some {[ "a"%string := 1; "b"%string := 1 ]})
  = @aggregate_embeddings float float64 running_sum fixtures.two_models None
  /\ @aggregate_embeddings float float64 running_sum fixtures.two_models None
     = @sum_terms float float64 [("a"%string, 0.5); ("b"%string, 0.5)]
         fixtures.two_models (PyInt 0) ["a"%string; "b"%string].
Proof.
  apply (@unit_weights_average float float64 running_sum "a" "b" [2; 4] [4; 8]).
  - discriminate.
  - reflexivity.
  - reflexivity.
Defined.

(** One model alone, under any element type: zero plus one times each
    element. *)
Lemma single_model_terms `{FloatSum} {E : Type} `{Dtype E} (m : string) (a : list E) :
  float_sum [1] = 1 ->
  aggregate_embeddings [(m, a)] None =
    Return (NdArray (map (fun x => dt_add (of_int 0) (dt_mul (of_scalar 1) x)) a)).
Proof.
  intros Hone. unfold aggregate_embeddings. cbn [keys map fst].
  rewrite !(aggregation.equal_weights_get [(m, a)]) by (cbn; set_solver).
  change (1 / float_of_Z (Z.of_nat (length [(m, a)]))) with 1.
  rewrite Hone. change (1 =? 0) with false. change (1 / 1) with 1.
  cbn [sum_terms]. unfold getitem. cbn [get]. rewrite String.eqb_refl.
  cbn [mbind outcome_bind Py.bind add_value]. unfold scale.
  rewrite map_map. reflexivity.
Qed.

Lemma single_model_float32 `{FloatSum} (m : string) (v32 : list F32.f32) :
  float_sum [1] = 1 ->
  Forall (fun x => SpecFloat.valid_binary F32.prec F32.emax x = true) v32 ->
  aggregate_embeddings [(m, v32)] None =
    Return (NdArray (map (fun x => match x with
                                   | S754_zero _ => S754_zero false
                                   | _ => x
                                   end) v32)).
Proof.
  intros Hone Hvalid. rewrite single_model_terms by exact Hone. do 2 f_equal.
  apply map_ext_in. intros x Hx.
  cbn [dt_add dt_mul of_int of_scalar float32].
  rewrite exact.F32_mul_one_l.
  - apply exact.F32_add_zero_l.
  - rewrite Forall_forall in Hvalid. apply Hvalid, list_elem_of_In, Hx.
Qed.

(** X12. One model alone, with the weights omitted, is returned as it is but
    for a negative zero, which comes back positive: for float64 arrays, and
    for float32 arrays of float32 numbers; the sum of the one weight 1.0
    being 1.0. *)
Theorem single_model_unchanged `{FloatSum} (m : string) (v : list float)
  (v32 : list F32.f32) :
  float_sum [1] = 1 ->
  Forall (fun x => SpecFloat.valid_binary F32.prec F32.emax x = true) v32 ->
  aggregate_embeddings [(m, v)] None =
    Return (NdArray (map (fun x => if is_zero x then 0 else x) v))
  /\ aggregate_embeddings [(m, v32)] None =
       Return (NdArray (map (fun x => match x with
                                      | S754_zero _ => S754_zero false
                                      | _ => x
                                      end) v32)).
Proof.
  intros Hone Hvalid. split.
  - rewrite single_model_terms by exact Hone. do 2 f_equal. apply map_ext. intros x.
    cbn [dt_add dt_mul of_int of_scalar float64].
    rewrite exact.mul_one_l. apply exact.add_zero_l.
  - apply single_model_float32; assumption.
Qed.

Lemma single_model_unchanged_witness :
  @aggregate_embeddings float float64 running_sum
    [("buffalo_l"%string, [2; -0; 4])] None =
    Return (NdArray [2; 0; 4])
  /\ @aggregate_embeddings F32.f32 float32 running_sum
       [("buffalo_l"%string, provider.embedding fixtures.alice)] None =
       Return (NdArray (provider.embedding fixtures.alice)).
Proof.
  apply (@single_model_unchanged running_sum "buffalo_l" [2; -0; 4]
           (provider.embedding fixtures.alice)).
  - reflexivity.
  - repeat constructor.
Defined.

End fusion.

(** ** The store: identities, lookups and pages *)

Module enrolment.

Local Open Scope Z_scope.

Import config provider database face_analyzer profiles spec.

Lemma find_last (rs : list Profile) (p : Profile) :
  (forall r, r ∈ rs -> id r <> id p) ->
  find (fun q => id q =? id p) (rs ++ [p]) = Some p.
Proof.
  induction rs as [|r rs IH]; intros Hfresh; cbn.
  - rewrite Z.eqb_refl. reflexivity.
  - destruct (Z.eqb_spec (id r) (id p)) as [Heq|_].
    + exfalso. apply (Hfresh r); [constructor|exact Heq].
    + apply IH. intros r' Hr'. apply Hfresh. constructor. exact Hr'.
Qed.

Lemma find_other (rs : list Profile) (p : Profile) (pk : Z) :
  pk <> id p ->
  find (fun q => id q =? pk) (rs ++ [p]) = find (fun q => id q =? pk) rs.
Proof.
  intros Hne. induction rs as [|r rs IH]; cbn.
  - destruct (Z.eqb_spec (id p) pk); [congruence|reflexivity].
  - destruct (id r =? pk); [reflexivity|exact IH].
Qed.

Lemma max_of_seq (a k : nat) :
  fold_right Z.max 0 (map Z.of_nat (seq a k)) =
    if Nat.eqb k 0 then 0 else Z.of_nat (a + k - 1).
Proof.
  revert a. induction k as [|k IH]; intros a; [reflexivity|].
  cbn [seq map fold_right Nat.eqb]. rewrite IH.
  destruct k as [|k]; cbn [Nat.eqb]; lia.
Qed.

Lemma next_rowid_counted (rs : list Profile) :
  map id rs = map Z.of_nat (seq 1 (length rs)) ->
  next_rowid rs = Z.of_nat (S (length rs)).
Proof.
  intros Hids. unfold next_rowid. rewrite Hids, max_of_seq.
  destruct (length rs); cbn [Nat.eqb]; lia.
Qed.

(** X4. For bounds that are not negative and that SQLite can hold, the sums
    [skip + size] and [size + size'] included, the page of [size] profiles
    from [skip] followed by the page of [size'] profiles from [skip + size]
    is the page of [size + size'] profiles from [skip]: paging loses and
    repeats nothing. *)
Theorem pages_compose (d : db) (rs : list Profile) (skip size size' : Z) :
  profile_table d = Some rs ->
  0 <= skip -> 0 <= size -> 0 <= size' ->
  skip + size < 2 ^ 63 -> size + size' < 2 ^ 63 ->
  exists page page',
    list_profiles d (Some skip) (Some size) = Return page
    /\ list_profiles d (Some (skip + size)) (Some size') = Return page'
    /\ list_profiles d (Some skip) (Some (size + size')) = Return (page ++ page').
Proof.
  intros Htable Hskip Hsize Hsize' Hpage Hpages.
  rewrite !(store.list_profiles_rows d rs) by exact Htable.
  cbn [default from_option Datatypes.id].
  rewrite !(proj2 (store.int64_range _)) by lia. cbn [andb].
  destruct (Z.ltb_spec size 0); [lia|].
  destruct (Z.ltb_spec size' 0); [lia|].
  destruct (Z.ltb_spec (size + size') 0); [lia|].
  eexists _, _. split; [reflexivity|]. split; [reflexivity|].
  f_equal. rewrite !Z2Nat.inj_add by lia.
  rewrite <- drop_drop.
  symmetry. apply take_take_drop.
Qed.

Lemma pages_compose_witness :
  exists page page',
    list_profiles fixtures.three_created.2 (Some 0) (Some 1) = Return page
    /\ list_profiles fixtures.three_created.2 (Some (0 + 1)) (Some 2) = Return page'
    /\ list_profiles fixtures.three_created.2 (Some 0) (Some (1 + 2))
       = Return (page ++ page').
Proof.
  refine (pages_compose fixtures.three_created.2 fixtures.three_created.1 0 1 2
            _ _ _ _ _ _).
  - vm_compute. reflexivity.
  - lia.
  - lia.
  - lia.
  - lia.
  - lia.
Defined.

Section Handlers.
Context `{Vision} `{Environ} `{np.Blas}.

(** Whether an upload opens does not depend on where its buffer lies. *)
Lemma open_upload_loaded (file : list Byte.byte) (address : Z) (image : Image) :
  open_upload file address = Return image <-> Image_load file = Some image.
Proof.
  unfold open_upload, Image_open.
  destruct (Image_load file) as [image'|]; split; congruence.
Qed.

(** What a successful [create_profile] did: the image opened, the model found
    a first face, and the row went after the rows already there under the
    next rowid, which SQLite can hold. *)
Lemma create_profile_returns (fa : FaceAnalyzer) (d : db) (file : list Byte.byte)
  (address now : Z) (p : Profile) (d' : db) :
  create_profile fa d file address now = Return (p, d') ->
  exists image description emb rs,
    Image_load file = Some image
    /\ analyze_face fa image = Return (description, Some emb)
    /\ profile_table d = Some rs
    /\ p = Build_Profile (next_rowid rs) description emb now
    /\ d' = {| profile_table := Some (rs ++ [p]) |}
    /\ int64 (id p) = true.
Proof.
  unfold create_profile.
  destruct (open_upload file address) as [image|e] eqn:Hopen; [|discriminate].
  apply open_upload_loaded in Hopen.
  cbn [mbind outcome_bind Py.bind].
  destruct (analyze_face fa image) as [[description [emb|]]|e] eqn:Hanalyze;
    cbn [mbind outcome_bind Py.bind]; try discriminate.
  intros Hadd.
  destruct (store.session_add_returns d description emb now p d' Hadd)
    as [rs [Htable [Hp [Hd' Hfits]]]].
  exists image, description, emb, rs. repeat split; assumption.
Qed.

(** X1. A profile that [create_profile] returned is what [get_profile]
    returns, in the store it left, under the id it was given. *)
Theorem create_then_get (fa : FaceAnalyzer) (d : db) (file : list Byte.byte)
  (address now : Z) (p : Profile) (d' : db) :
  create_profile fa d file address now = Return (p, d') ->
  get_profile d' (id p) = Return p.
Proof.
  intros Hcreate.
  destruct (create_profile_returns fa d file address now p d' Hcreate)
    as [image [description [emb [rs [_ [_ [Htable [Hp [Hd' Hfits]]]]]]]]].
  unfold get_profile, session_get, rows. rewrite Hd'. cbn [profile_table].
  cbn [mbind outcome_bind Py.bind]. rewrite Hfits.
  cbn [mbind outcome_bind Py.bind]. rewrite find_last; [reflexivity|].
  intros r Hr. pose proof (store.next_rowid_above rs r Hr).
  rewrite Hp. cbn [id]. lia.
Qed.

(** X2. The id [create_profile] gives was not in use before, and the
    creation changes the answer of [get_profile] for no other id. *)
Theorem create_keeps_others (fa : FaceAnalyzer) (d : db) (file : list Byte.byte)
  (address now : Z) (p : Profile) (d' : db) :
  create_profile fa d file address now = Return (p, d') ->
  get_profile d (id p) = Raise (HTTPException 404 "Profile not found")
  /\ forall pk, pk <> id p -> get_profile d' pk = get_profile d pk.
Proof.
  intros Hcreate.
  destruct (create_profile_returns fa d file address now p d' Hcreate)
    as [image [description [emb [rs [_ [_ [Htable [Hp [Hd' Hfits]]]]]]]]].
  unfold get_profile, session_get, rows. rewrite Hd', Htable.
  cbn [profile_table mbind outcome_bind Py.bind]. split.
  - rewrite Hfits. cbn [mbind outcome_bind Py.bind].
    destruct (find (fun q => id q =? id p) rs) as [r|] eqn:Hfind; [|reflexivity].
    apply find_some in Hfind as [Hin Heq]. apply Z.eqb_eq in Heq.
    pose proof (store.next_rowid_above rs r (proj2 (list_elem_of_In _ _) Hin)).
    rewrite Hp in Heq. cbn [id] in Heq. lia.
  - intros pk Hpk. destruct (int64 pk); [|reflexivity].
    cbn [mbind outcome_bind Py.bind].
    rewrite find_other by exact Hpk. reflexivity.
Qed.

(** The rows of a store whose ids count up from 1 keep doing so under any
    sequence of uploads, and the created profiles are the rows added. *)
Lemma create_profiles_counted (fa : FaceAnalyzer)
  (uploads : list (list Byte.byte * Z * Z)) (d : db) (rs : list Profile) :
  profile_table d = Some rs ->
  map id rs = map Z.of_nat (seq 1 (length rs)) ->
  let '(created, d') := create_profiles fa d uploads in
  profile_table d' = Some (rs ++ created)
  /\ map id created = map Z.of_nat (seq (S (length rs)) (length created)).
Proof.
  revert d rs. induction uploads as [|[[file address] now] rest IH];
    intros d rs Htable Hids.
  - cbn [create_profiles]. rewrite app_nil_r. split; [exact Htable|reflexivity].
  - cbn [create_profiles].
    destruct (create_profile fa d file address now) as [[p d1]|e] eqn:Hcreate.
    + destruct (create_profile_returns fa d file address now p d1 Hcreate)
        as [image [description [emb [rs0 [_ [_ [Htable0 [Hp [Hd1 _]]]]]]]]].
      assert (rs0 = rs) as -> by congruence.
      assert (Hidp : id p = Z.of_nat (S (length rs))).
      { rewrite Hp. cbn [id]. apply next_rowid_counted, Hids. }
      specialize (IH d1 (rs ++ [p])).
      destruct (create_profiles fa d1 rest) as [created d2].
      destruct IH as [Htable2 Hcreated].
      * rewrite Hd1. reflexivity.
      * rewrite length_app, map_app, Hids. cbn [length map].
        rewrite Nat.add_1_r, seq_S, map_app, Hidp. reflexivity.
      * split.
        -- rewrite Htable2, <- app_assoc. reflexivity.
        -- cbn [map length seq]. rewrite Hidp. f_equal.
           rewrite Hcreated, length_app. cbn [length].
           rewrite Nat.add_1_r. reflexivity.
    + apply IH; assumption.
Qed.

(** X3. After a start-up, whatever the store held before, the profiles
    created by a sequence of uploads get the ids 1, 2, 3, ... in the order of
    the requests, and the list from the start with the limit -1, which is no
    limit, is exactly them. *)
Theorem fresh_ids_count_up (fa : FaceAnalyzer) (d : db)
  (uploads : list (list Byte.byte * Z * Z)) :
  let '(created, d') := create_profiles fa (main.on_startup d) uploads in
  map id created = map Z.of_nat (seq 1 (length created))
  /\ list_profiles d' None (Some (-1)) = Return created.
Proof.
  pose proof (create_profiles_counted fa uploads (main.on_startup d) []
                eq_refl eq_refl) as Hcounted.
  destruct (create_profiles fa (main.on_startup d) uploads) as [created d'].
  destruct Hcounted as [Htable Hids]. split; [exact Hids|].
  rewrite (store.list_profiles_rows d' created) by exact Htable.
  reflexivity.
Qed.

(** The embedding [analyze_face] returns is the one [get_face_embedding]
    returns, as Python floats. *)
Lemma analyze_face_found (fa : FaceAnalyzer) (image : Image) (description : string)
  (emb : list float) :
  analyze_face fa image = Return (description, Some emb) ->
  exists probe, get_face_embedding fa image = Return (Some probe)
                /\ emb = map F32.to_float probe.
Proof.
  unfold analyze_face, get_face_embedding.
  destruct (cvtColor_RGB2BGR (np_array image)) as [img_bgr|e]; [|discriminate].
  cbn [mbind outcome_bind Py.bind].
  destruct (face_app fa img_bgr) as [[|face others]|e]; try discriminate.
  cbn [mbind outcome_bind Py.bind]. intros [= _ <-]. eauto.
Qed.

Lemma analyze_face_none (fa : FaceAnalyzer) (image : Image) :
  get_face_embedding fa image = Return None ->
  analyze_face fa image = Return ("No face detected in the image."%string, None).
Proof.
  unfold analyze_face, get_face_embedding.
  destruct (cvtColor_RGB2BGR (np_array image)) as [img_bgr|e]; [|discriminate].
  cbn [mbind outcome_bind Py.bind].
  destruct (face_app fa img_bgr) as [[|face others]|e]; try discriminate.
  reflexivity.
Qed.

(** X5. With the default threshold, the upload a profile was created from
    verifies against that profile, wherever the buffer of the second request
    lies: [verify_face] returns a match with a score within 2^-20 of one,
    the squared norm of the stored embedding being a normal number. *)
Theorem enroll_then_verify (fa : FaceAnalyzer) (d : db) (file : list Byte.byte)
  (address address' now : Z) (p : Profile) (d' : db) :
  environ !! "SIMILARITY_THRESHOLD" = None ->
  create_profile fa d file address now = Return (p, d') ->
  classify (np.ddot (models.embedding p) (models.embedding p)) = PNormal ->
  exists r, verify_face fa d' (id p) file address' = Return r
            /\ is_match r = true
            /\ (below_one <=? score r)%float = true
            /\ (score r <=? above_one)%float = true.
Proof.
  intros Hunset Hcreate Hnormal.
  destruct (create_profile_returns fa d file address now p d' Hcreate)
    as [image [description [emb [rs [Hload [Hanalyze [Htable [Hp [Hd' Hfits]]]]]]]]].
  destruct (analyze_face_found fa image description emb Hanalyze)
    as [probe [Hprobe Hemb]].
  unfold verify_face, session_get, rows. rewrite Hd'. cbn [profile_table].
  cbn [mbind outcome_bind Py.bind]. rewrite Hfits.
  cbn [mbind outcome_bind Py.bind]. rewrite find_last.
  - rewrite (proj2 (open_upload_loaded file address' image) Hload).
    cbn [mbind outcome_bind Py.bind]. rewrite Hprobe.
    cbn [mbind outcome_bind Py.bind].
    assert (Hstored : models.embedding p = map F32.to_float probe)
      by (rewrite Hp; exact Hemb).
    rewrite <- Hstored.
    destruct (scores.verify_same (models.embedding p))
      as [c [Hverify [Hlo Hhi]]].
    + rewrite (scores.default_threshold Hunset). reflexivity.
    + exact Hnormal.
    + rewrite Hverify. eexists. split; [reflexivity|]. cbn [is_match score]. auto.
  - intros r Hr. pose proof (store.next_rowid_above rs r Hr).
    rewrite Hp. cbn [id]. lia.
Qed.

(** X6. An upload that Pillow cannot open, or in which the model detects no
    face, is answered with the status 400 by [create_profile] and, for every
    profile there is, by [verify_face]: with the detail "No face detected in
    image" by both when no face is detected, and, when the upload cannot be
    opened, with "Invalid image file: " followed by the text of the error
    Pillow raised for the buffer of that request. *)
Theorem unusable_upload_is_400 (fa : FaceAnalyzer) (d : db) (file : list Byte.byte)
  (address address' now : Z) :
  (Image_load file = None ->
   create_profile fa d file address now =
     Raise (HTTPException 400
              ("Invalid image file: " ++ str_exn (Image_error address file)))
   /\ forall pk p, get_profile d pk = Return p ->
        verify_face fa d pk file address' =
          Raise (HTTPException 400
                   ("Invalid image file: " ++ str_exn (Image_error address' file))))
  /\ (forall image,
        Image_load file = Some image ->
        get_face_embedding fa image = Return None ->
        create_profile fa d file address now =
          Raise (HTTPException 400 "No face detected in image")
        /\ forall pk p, get_profile d pk = Return p ->
             verify_face fa d pk file address' =
               Raise (HTTPException 400 "No face detected in image")).
Proof.
  assert (Hfound : forall pk p, get_profile d pk = Return p ->
                     session_get d pk = Return (Some p)).
  { intros pk p. unfold get_profile.
    destruct (session_get d pk) as [[q|]|e]; cbn [mbind outcome_bind Py.bind];
      congruence. }
  split.
  - intros Hload.
    unfold create_profile, verify_face, open_upload, Image_open. rewrite Hload.
    split; [reflexivity|].
    intros pk p Hp. rewrite (Hfound pk p Hp). reflexivity.
  - intros image Hload Hnone.
    unfold create_profile, verify_face, open_upload, Image_open. rewrite Hload.
    cbn [mbind outcome_bind Py.bind].
    rewrite (analyze_face_none fa image Hnone), Hnone. split; [reflexivity|].
    intros pk p Hp. rewrite (Hfound pk p Hp). reflexivity.
Qed.

End Handlers.

Lemma create_then_get_witness :
  exists p d',
    @create_profile fixtures.stub_vision fixtures.camera
      (main.on_startup fixtures.old_store) fixtures.photo 4096 1000 = Return (p, d')
    /\ get_profile d' (id p) = Return p.
Proof.
  eexists _, _. split; [reflexivity|].
  apply (@create_then_get fixtures.stub_vision fixtures.camera
           (main.on_startup fixtures.old_store) fixtures.photo 4096 1000).
  reflexivity.
Defined.

Lemma create_keeps_others_witness :
  exists p d',
    @create_profile fixtures.stub_vision fixtures.camera
      fixtures.three_created.2 fixtures.photo 4096 1003 = Return (p, d')
    /\ get_profile fixtures.three_created.2 (id p)
       = Raise (HTTPException 404 "Profile not found")
    /\ forall pk, pk <> id p ->
         get_profile d' pk = get_profile fixtures.three_created.2 pk.
Proof.
  eexists _, _. split; [reflexivity|].
  apply (@create_keeps_others fixtures.stub_vision fixtures.camera
           fixtures.three_created.2 fixtures.photo 4096 1003).
  reflexivity.
Defined.

Lemma enroll_then_verify_witness :
  exists p d',
    @create_profile fixtures.stub_vision fixtures.camera
      (main.on_startup fixtures.old_store) fixtures.photo 4096 1000 = Return (p, d')
    /\ exists r,
         @verify_face fixtures.stub_vision fixtures.bare_environ np.index_order
           fixtures.camera d' (id p) fixtures.photo 8192 = Return r
         /\ is_match r = true
         /\ (below_one <=? score r)%float = true
         /\ (score r <=? above_one)%float = true.
Proof.
  eexists _, _. split; [reflexivity|].
  apply (@enroll_then_verify fixtures.stub_vision fixtures.bare_environ np.index_order
           fixtures.camera (main.on_startup fixtures.old_store) fixtures.photo
           4096 8192 1000).
  - reflexivity.
  - reflexivity.
  - vm_compute. reflexivity.
Defined.

Lemma unusable_upload_is_400_witness :
  (@create_profile fixtures.stub_vision fixtures.camera
     fixtures.three_created.2 [] 4096 1000 =
     Raise (HTTPException 400
              "Invalid image file: cannot identify image file <_io.BytesIO object at 4096>")
   /\ forall pk p, get_profile fixtures.three_created.2 pk = Return p ->
        @verify_face fixtures.stub_vision fixtures.bare_environ np.index_order
          fixtures.camera fixtures.three_created.2 pk [] 8192 =
        Raise (HTTPException 400
                 "Invalid image file: cannot identify image file <_io.BytesIO object at 8192>"))
  /\ (@create_profile fixtures.stub_vision fixtures.nobody
        fixtures.three_created.2 fixtures.photo 4096 1000 =
        Raise (HTTPException 400 "No face detected in image")
      /\ forall pk p, get_profile fixtures.three_created.2 pk = Return p ->
           @verify_face fixtures.stub_vision fixtures.bare_environ np.index_order
             fixtures.nobody fixtures.three_created.2 pk fixtures.photo 8192 =
           Raise (HTTPException 400 "No face detected in image")).
Proof.
  split.
  - apply (@unusable_upload_is_400 fixtures.stub_vision fixtures.bare_environ
             np.index_order fixtures.camera fixtures.three_created.2 [] 4096 8192 1000).
    reflexivity.
  - destruct (@unusable_upload_is_400 fixtures.stub_vision fixtures.bare_environ
                np.index_order fixtures.nobody fixtures.three_created.2 fixtures.photo
                4096 8192 1000) as [_ Hfaceless].
    eapply Hfaceless; vm_compute; reflexivity.
Defined.

End enrolment.

(** ** Detection: which models contribute *)

Module contributions.

Import dict provider face_analyzer multiple outline.

Lemma setitem_fresh {V : Type} (d : dict V) (k : string) (v : V) :
  k ∉ keys d -> setitem d k v = d ++ [(k, v)].
Proof.
  induction d as [|[k0 v0] d IH]; intros Hfresh; [reflexivity|].
  cbn [setitem app]. destruct (String.eqb_spec k0 k) as [->|Hne].
  - exfalso. apply Hfresh. constructor.
  - rewrite IH; [reflexivity|]. intros Hin. apply Hfresh. constructor. exact Hin.
Qed.

Section Models.
Context `{Vision}.

Lemma detections_cons (img_np : pixels) (k : string) (fa : FaceAnalysis)
  (apps : dict FaceAnalysis) :
  detections ((k, fa) :: apps) img_np =
    match fa img_np with
    | Return (face :: _) => (k, embedding face) :: detections apps img_np
    | _ => detections apps img_np
    end.
Proof.
  unfold detections.
  change (omap (first_embedding img_np) ((k, fa) :: apps))
    with (match first_embedding img_np (k, fa) with
          | Some y => y :: omap (first_embedding img_np) apps
          | None => omap (first_embedding img_np) apps
          end).
  unfold first_embedding at 1. cbn [fst snd].
  destruct (fa img_np) as [[|face others]|e]; reflexivity.
Qed.

(** The loop appends the contributions of the models still to run. *)
Lemma get_embeddings_loop (img_np : pixels) (apps : dict FaceAnalysis)
  (embs : dict (list F32.f32)) (detected : bool) :
  wf apps ->
  (forall k, k ∈ keys apps -> k ∉ keys embs) ->
  fold_left (get_embeddings_step img_np) apps (embs, detected) =
    (embs ++ detections apps img_np,
     match detections apps img_np with [] => detected | _ :: _ => true end).
Proof.
  revert embs detected.
  induction apps as [|[k fa] apps IH]; intros embs detected Hwf Hfresh.
  - cbn. rewrite app_nil_r. reflexivity.
  - apply NoDup_cons in Hwf as [Hk Hwf].
    cbn [fold_left get_embeddings_step]. rewrite detections_cons.
    change ((k, fa).1) with k in Hk. fold (keys apps) in Hk, Hwf. fold (wf apps) in Hwf.
    assert (Hrest : forall k', k' ∈ keys apps -> k' ∉ keys embs).
    { intros k' Hin. apply Hfresh. constructor. exact Hin. }
    destruct (fa img_np) as [[|face others]|e].
    + apply IH; [exact Hwf|exact Hrest].
    + rewrite setitem_fresh by (apply Hfresh; constructor).
      rewrite IH; [|exact Hwf|].
      * rewrite <- app_assoc. cbn [app].
        destruct (detections apps img_np); reflexivity.
      * intros k' Hin. unfold keys. rewrite map_app. cbn [map fst].
        intros Hin'. apply elem_of_app in Hin' as [Hin'|Hin'].
        -- exact (Hrest k' Hin Hin').
        -- apply list_elem_of_singleton in Hin' as ->. apply Hk. exact Hin.
    + apply IH; [exact Hwf|exact Hrest].
Qed.

Lemma get_embeddings_found (apps : dict FaceAnalysis) (img_np : pixels) :
  wf apps ->
  get_embeddings apps img_np =
    match detections apps img_np with
    | [] => Raise (ValueError "No face detected by any available model")
    | found => Return found
    end.
Proof.
  intros Hwf. unfold get_embeddings.
  assert (Hloop : fold_left (get_embeddings_step img_np) apps ([], false) =
                    (detections apps img_np,
                     match detections apps img_np with [] => false | _ :: _ => true end)).
  { apply (get_embeddings_loop img_np apps [] false Hwf).
    intros k _ Hin. inversion Hin. }
  destruct (fold_left _ apps _) as [embs detected].
  injection Hloop as -> ->. destruct (detections apps img_np); reflexivity.
Qed.

(** X13. Over models with distinct names, [get_embeddings] returns the
    embedding of the first face of each model that detects one, in the order
    of the models; a model that detects none or raises is left out; when no
    model contributes it raises the [ValueError]. *)
Theorem get_embeddings_detections (apps : dict FaceAnalysis) (img_np : pixels) :
  wf apps ->
  get_embeddings apps img_np =
    match detections apps img_np with
    | [] => Raise (ValueError "No face detected by any available model")
    | found => Return found
    end.
Proof. exact (get_embeddings_found apps img_np). Qed.

End Models.

Lemma get_embeddings_detections_witness :
  @get_embeddings fixtures.stub_vision
    [("buffalo_l"%string, fixtures.finds [fixtures.alice; fixtures.bob]);
     ("antelopev2"%string, fixtures.finds []);
     ("buffalo_s"%string, fun _ => Raise (Exception "model file missing"));
     ("buffalo_m"%string, fixtures.finds [fixtures.bob])]
    fixtures.photo =
  Return [("buffalo_l"%string, embedding fixtures.alice);
          ("buffalo_m"%string, embedding fixtures.bob)].
Proof.
  apply (@get_embeddings_detections fixtures.stub_vision
           [("buffalo_l"%string, fixtures.finds [fixtures.alice; fixtures.bob]);
            ("antelopev2"%string, fixtures.finds []);
            ("buffalo_s"%string, fun _ => Raise (Exception "model file missing"));
            ("buffalo_m"%string, fixtures.finds [fixtures.bob])]
           fixtures.photo).
  unfold wf. apply (bool_decide_unpack _). vm_compute. exact I.
Defined.

End contributions.

(** ** Loading the models *)

Module loading.

Import dict provider multiple service.

Lemma keys_setitem {V : Type} (d : dict V) (k : string) (v : V) :
  keys (setitem d k v) = if bool_decide (k ∈ keys d) then keys d else keys d ++ [k].
Proof.
  induction d as [|[k0 v0] d IH]; [reflexivity|].
  cbn [setitem]. destruct (String.eqb_spec k0 k) as [->|Hne].
  - cbn [keys map fst]. rewrite bool_decide_eq_true_2 by constructor. reflexivity.
  - cbn [keys map fst] in *. fold (keys d) in *. fold (keys (setitem d k v)). rewrite IH.
    destruct (bool_decide_reflect (k ∈ keys d)) as [Hin|Hout].
    + rewrite bool_decide_eq_true_2 by (constructor; exact Hin). reflexivity.
    + rewrite bool_decide_eq_false_2; [reflexivity|].
      intros Hin. apply elem_of_cons in Hin as [->|Hin]; contradiction.
Qed.

Lemma wf_setitem {V : Type} (d : dict V) (k : string) (v : V) :
  wf d -> wf (setitem d k v).
Proof.
  unfold wf. rewrite keys_setitem. intros Hwf.
  destruct (bool_decide_reflect (k ∈ keys d)) as [Hin|Hout]; [exact Hwf|].
  apply NoDup_app. split; [exact Hwf|]. split.
  - intros x Hx Hx'. apply list_elem_of_singleton in Hx' as ->. contradiction.
  - apply NoDup_singleton.
Qed.

Section Loading.
Context `{Loader}.

(** The loop over the attempts [a, a+1, ..., a+k-1], of which the last is
    the last of all. *)
Lemma initialize_model_loop_spec (name : string) (max_retries : Z) (k a made : nat) :
  (k = 0 \/ Z.of_nat (a + k) = max_retries)%nat ->
  let result := initialize_model_loop name max_retries (map Z.of_nat (seq a k)) made in
  (made <= result.2 <= made + k)%nat
  /\ (forall i, (made <= i)%nat ->
        (i < match result.1 with Some _ => pred result.2 | None => result.2 end)%nat ->
        raises (FaceAnalysis_prepare name i) = true)
  /\ match result.1 with
     | Some fa => (made < result.2)%nat
                  /\ FaceAnalysis_prepare name (pred result.2) = Return fa
     | None => result.2 = (made + k)%nat
     end.
Proof.
  revert a made. induction k as [|k IH]; intros a made Hlast; cbn zeta.
  - cbn. split; [lia|]. split; [intros i H1 H2; lia|lia].
  - cbn [seq map initialize_model_loop].
    destruct (FaceAnalysis_prepare name made) as [fa|e] eqn:Hmade.
    + cbn [fst snd pred]. split; [lia|]. split; [intros i H1 H2; lia|].
      split; [lia|exact Hmade].
    + destruct (Z.eqb_spec (Z.of_nat a) (max_retries - 1)) as [Heq|Hne].
      * assert (k = 0)%nat as -> by lia.
        cbn [fst snd]. split; [lia|]. split; [|lia].
        intros i H1 H2. assert (i = made) as -> by lia. rewrite Hmade. reflexivity.
      * specialize (IH (S a) (S made)). cbn zeta in IH.
        destruct IH as [Hbound [Hfail Hresult]]; [lia|].
        set (result := initialize_model_loop name max_retries
                         (map Z.of_nat (seq (S a) k)) (S made)) in *.
        split; [lia|]. split.
        -- intros i H1 H2. destruct (decide (i = made)) as [->|Hi].
           ++ rewrite Hmade. reflexivity.
           ++ apply Hfail; [lia|exact H2].
        -- destruct (result.1) as [fa|]; [|lia].
           destruct Hresult as [Hlt Hfa]. split; [lia|exact Hfa].
Qed.

(** X14. [initialize_model] constructs the model until a construction
    succeeds, at most [max_retries] times: it returns the first model that
    came up, and [None] after [max_retries] failures (at once when
    [max_retries] is not positive). *)
Theorem initialize_model_first_success (name : string) (max_retries : Z) (made : nat) :
  let result := initialize_model name max_retries made in
  (made <= result.2 <= made + Z.to_nat max_retries)%nat
  /\ (forall i, (made <= i)%nat ->
        (i < match result.1 with Some _ => pred result.2 | None => result.2 end)%nat ->
        raises (FaceAnalysis_prepare name i) = true)
  /\ match result.1 with
     | Some fa => (made < result.2)%nat
                  /\ FaceAnalysis_prepare name (pred result.2) = Return fa
     | None => result.2 = (made + Z.to_nat max_retries)%nat
     end.
Proof.
  apply (initialize_model_loop_spec name max_retries (Z.to_nat max_retries) 0 made).
  destruct (Z.to_nat max_retries) eqn:Hn; [left; reflexivity|right; lia].
Qed.

Lemma load_step_wf (apps : dict FaceAnalysis) (made : nat) (name : string) :
  wf apps -> wf (load_step (apps, made) name).1.
Proof.
  intros Hwf. unfold load_step.
  destruct (initialize_model name 2 made) as [[fa|] made']; cbn [fst].
  - apply wf_setitem, Hwf.
  - exact Hwf.
Qed.

Lemma load_step_keys (apps : dict FaceAnalysis) (made : nat) (name : string) (k : string) :
  k ∈ keys (load_step (apps, made) name).1 -> k ∈ keys apps \/ k = name.
Proof.
  unfold load_step.
  destruct (initialize_model name 2 made) as [[fa|] made']; cbn [fst]; [|auto].
  rewrite keys_setitem. destruct (bool_decide (name ∈ keys apps)); [auto|].
  intros Hin. apply elem_of_app in Hin as [Hin|Hin]; [auto|].
  apply list_elem_of_singleton in Hin. auto.
Qed.

Lemma load_loop_wf (preferred : list string) (st : dict FaceAnalysis * nat) :
  wf st.1 ->
  wf (fold_left load_step preferred st).1
  /\ forall k, k ∈ keys (fold_left load_step preferred st).1 ->
       k ∈ keys st.1 \/ k ∈ preferred.
Proof.
  revert st. induction preferred as [|name preferred IH]; intros [apps made] Hwf.
  - cbn. auto.
  - cbn [fold_left]. destruct (IH (load_step (apps, made) name)) as [Hwf' Hkeys].
    + apply load_step_wf, Hwf.
    + split; [exact Hwf'|]. intros k Hk.
      destruct (Hkeys k Hk) as [Hin|Hin].
      * destruct (load_step_keys apps made name k Hin) as [Hin'| ->].
        -- left. exact Hin'.
        -- right. constructor.
      * right. constructor. exact Hin.
Qed.

(** X15. A service that starts has at least one model, under distinct
    names taken from the preferred ones. *)
Theorem loaded_models_preferred (preferred : list string) (apps : dict FaceAnalysis) :
  load_models preferred = Apps apps ->
  apps <> [] /\ wf apps /\ forall name, name ∈ keys apps -> name ∈ preferred.
Proof.
  unfold load_models.
  destruct (load_loop_wf preferred ([], 0%nat)) as [Hwf Hkeys]; [apply NoDup_nil; exact I|].
  destruct (fold_left load_step preferred ([], 0%nat)) as [loaded made].
  cbn [fst] in Hwf, Hkeys. destruct loaded as [|entry loaded]; [discriminate|].
  intros [= <-]. split; [discriminate|]. split; [exact Hwf|].
  intros name Hname. destruct (Hkeys name Hname) as [Hin|Hin]; [inversion Hin|exact Hin].
Qed.

Lemma load_buffalo_l :
  load_models PREFERRED_MODELS =
    match FaceAnalysis_prepare "buffalo_l" 0 with
    | Return fa => Apps [("buffalo_l"%string, fa)]
    | Raise _ =>
        match FaceAnalysis_prepare "buffalo_l" 1 with
        | Return fa => Apps [("buffalo_l"%string, fa)]
        | Raise _ => RuntimeError "No face analysis models could be initialized"
        end
    end.
Proof.
  unfold load_models, PREFERRED_MODELS. cbn [fold_left load_step].
  unfold initialize_model. change (range 2) with [0%Z; 1%Z].
  cbn [initialize_model_loop].
  destruct (FaceAnalysis_prepare "buffalo_l" 0) as [fa|e]; [reflexivity|].
  change (0 =? 2 - 1)%Z with false. cbn iota.
  destruct (FaceAnalysis_prepare "buffalo_l" 1) as [fa|e']; reflexivity.
Qed.

(** X16. With the preferred models of the source, the service starts exactly
    when the first or the second construction of [buffalo_l] succeeds, and
    stops with the [RuntimeError] otherwise; a service that started reports
    the one model [buffalo_l] on both of its information endpoints. *)
Theorem service_starts_with_buffalo_l :
  load_models PREFERRED_MODELS =
    match FaceAnalysis_prepare "buffalo_l" 0 with
    | Return fa => Apps [("buffalo_l"%string, fa)]
    | Raise _ =>
        match FaceAnalysis_prepare "buffalo_l" 1 with
        | Return fa => Apps [("buffalo_l"%string, fa)]
        | Raise _ => RuntimeError "No face analysis models could be initialized"
        end
    end
  /\ forall apps,
       load_models PREFERRED_MODELS = Apps apps ->
       root apps = {| status := "healthy";
                      models_available := ["buffalo_l"%string];
                      total_models := 1 |}
       /\ get_models apps = {| loaded_models := ["buffalo_l"%string];
                               total_loaded := 1;
                               attempted_models := ["buffalo_l"%string] |}.
Proof.
  split; [exact load_buffalo_l|].
  intros apps. rewrite load_buffalo_l.
  destruct (FaceAnalysis_prepare "buffalo_l" 0) as [fa|e].
  - intros [= <-]. split; reflexivity.
  - destruct (FaceAnalysis_prepare "buffalo_l" 1) as [fa|e']; [|discriminate].
    intros [= <-]. split; reflexivity.
Qed.

End Loading.

Lemma loaded_models_preferred_witness :
  [("buffalo_l"%string, fixtures.finds [fixtures.alice])] <> []
  /\ wf [("buffalo_l"%string, fixtures.finds [fixtures.alice])]
  /\ forall name,
       name ∈ keys [("buffalo_l"%string, fixtures.finds [fixtures.alice])] ->
       name ∈ PREFERRED_MODELS.
Proof.
  apply (@loaded_models_preferred fixtures.stub_vision stubs.flaky_loader
           PREFERRED_MODELS).
  reflexivity.
Defined.

End loading.

(** ** The endpoints of src/multiple.py *)

Module endpoints.

Local Open Scope float_scope.

Import dict dtype provider multiple outline service spec.

Lemma SFltb_leb_trans (a b c : spec_float) :
  SFltb a b = true -> SFleb b c = true -> SFltb a c = true.
Proof.
  unfold SFltb, SFleb, SFcompare.
  destruct a as [[|]|[|]| |[|] ma ea], b as [[|]|[|]| |[|] mb eb],
    c as [[|]|[|]| |[|] mc ec]; try discriminate; try reflexivity;
    change (Pos.compare_cont Eq) with Pos.compare;
    destruct (Z.compare_spec ea eb), (Z.compare_spec eb ec),
      (Z.compare_spec ea ec); cbn [CompOpp]; try discriminate; try reflexivity;
      try lia; subst;
    destruct (Pos.compare_spec ma mb), (Pos.compare_spec mb mc),
      (Pos.compare_spec ma mc); cbn [CompOpp]; try discriminate;
      try reflexivity; lia.
Qed.

Lemma ltb_leb_trans (a b c : float) :
  (a <? b) = true -> (b <=? c) = true -> (a <? c) = true.
Proof. rewrite !ltb_spec, leb_spec. apply SFltb_leb_trans. Qed.

(** The key of a model's score is not the key of the aggregated one. *)
Lemma model_key (model : string) : ("model_" ++ model)%string <> "aggregated"%string.
Proof. discriminate. Qed.

(** Comparing the embeddings of one profile with themselves stops at no
    model and leaves the other scores alone. *)
Lemma compare_models_same `{np.Blas} (embeddings : dict (list float))
  (models : list string)
  (similarities : dict float) :
  (forall m, m ∈ models -> m ∈ keys embeddings) ->
  exists similarities',
    compare_models embeddings embeddings similarities models = Return similarities'
    /\ get similarities' "aggregated" = get similarities "aggregated".
Proof.
  revert similarities. induction models as [|model rest IH]; intros similarities Hin.
  - exists similarities. split; reflexivity.
  - destruct (aggregation.get_keys embeddings model) as [emb Hemb];
      [apply Hin; constructor|].
    cbn [compare_models]. unfold getitem. rewrite Hemb.
    cbn [mbind outcome_bind Py.bind].
    rewrite similarity.cosine_similarity_same_length by reflexivity.
    cbn [mbind outcome_bind Py.bind].
    destruct (IH (setitem similarities ("model_" ++ model) (cosine emb emb)))
      as [similarities' [Hrun Hget]].
    + intros m Hm. apply Hin. constructor. exact Hm.
    + exists similarities'. split; [exact Hrun|].
      rewrite Hget. apply detection.get_setitem_other, model_key.
Qed.

Section Endpoints.
Context `{Runtime} `{FloatSum} `{np.Blas}.

(** Whether Pillow opens a buffer does not depend on where it lies. *)
Lemma Image_open_loaded (address : Z) (data : list Byte.byte) (img : Image) :
  Image_open address data = Return img <-> Image_load data = Some img.
Proof.
  unfold Image_open. destruct (Image_load data) as [img'|]; split; congruence.
Qed.

Lemma analyze_face_returns (apps : dict FaceAnalysis) (pil_img : Image) (r : Profile) :
  wf apps ->
  analyze_face apps pil_img = Return r ->
  exists rgb agg,
    convert_RGB pil_img = Return rgb
    /\ detections apps (np_array rgb) <> []
    /\ aggregate_embeddings (detections apps (np_array rgb)) None = Return (NdArray agg)
    /\ embeddings r = map (fun entry => (entry.1, map F32.to_float entry.2))
                          (detections apps (np_array rgb))
    /\ aggregated r = map F32.to_float agg
    /\ hash r = hash_embedding agg
    /\ models_used r = keys (detections apps (np_array rgb)).
Proof.
  intros Hwf. unfold analyze_face, analyze_face_try.
  destruct (convert_RGB pil_img) as [rgb|e] eqn:Hrgb; [|discriminate].
  cbn [mbind outcome_bind Py.bind].
  rewrite (contributions.get_embeddings_found apps (np_array rgb) Hwf).
  destruct (detections apps (np_array rgb)) as [|entry found] eqn:Hfound;
    [discriminate|].
  cbn [mbind outcome_bind Py.bind].
  destruct (aggregate_embeddings (entry :: found) None) as [[n|agg]|e] eqn:Hagg;
    cbn [Py.bind]; destruct (fold_left _ apps _) as [landmarks confidence];
    try discriminate.
  intros [= <-]. exists rgb, agg. rewrite Hfound. cbn.
  repeat split; first [reflexivity | assumption | discriminate].
Qed.

(** X17. A profile that [analyze_face] returns lists exactly the models that
    detected a face, in the order of the models, each with the embedding of
    its first face as Python floats; there is at least one. *)
Theorem analyze_face_models (apps : dict FaceAnalysis) (pil_img : Image) (r : Profile) :
  wf apps ->
  analyze_face apps pil_img = Return r ->
  exists rgb,
    convert_RGB pil_img = Return rgb
    /\ embeddings r = map (fun entry => (entry.1, map F32.to_float entry.2))
                          (detections apps (np_array rgb))
    /\ models_used r = keys (detections apps (np_array rgb))
    /\ models_used r = keys (embeddings r)
    /\ models_used r <> [].
Proof.
  intros Hwf Hreturn.
  destruct (analyze_face_returns apps pil_img r Hwf Hreturn)
    as [rgb [agg [Hrgb [Hne [_ [Hembs [_ [_ Hused]]]]]]]].
  exists rgb. split; [exact Hrgb|]. split; [exact Hembs|]. split; [exact Hused|].
  split.
  - rewrite Hused, Hembs. unfold keys. rewrite map_map. reflexivity.
  - rewrite Hused. destruct (detections apps (np_array rgb)); [congruence|discriminate].
Qed.

(** X18. With one model loaded, as the source has it, an image with a face
    gives a profile whose aggregated embedding is the embedding of that
    model, a negative zero turned positive. *)
Theorem one_model_aggregated (name : string) (fa : FaceAnalysis) (pil_img rgb : Image)
  (face : Face) (others : list Face) :
  float_sum [1] = 1 ->
  convert_RGB pil_img = Return rgb ->
  fa (np_array rgb) = Return (face :: others) ->
  Forall (fun x => SpecFloat.valid_binary F32.prec F32.emax x = true) (embedding face) ->
  exists r,
    analyze_face [(name, fa)] pil_img = Return r
    /\ embeddings r = [(name, map F32.to_float (embedding face))]
    /\ aggregated r =
         map F32.to_float
           (map (fun x => match x with S754_zero _ => S754_zero false | _ => x end)
                (embedding face))
    /\ models_used r = [name].
Proof.
  intros Hone Hrgb Hfaces Hvalid. unfold analyze_face, analyze_face_try.
  rewrite Hrgb. cbn [mbind outcome_bind Py.bind].
  rewrite (contributions.get_embeddings_found [(name, fa)] (np_array rgb))
    by (apply NoDup_singleton).
  rewrite contributions.detections_cons, Hfaces.
  change (detections [] (np_array rgb)) with (@nil (string * list F32.f32)).
  cbn [mbind outcome_bind Py.bind].
  rewrite (fusion.single_model_float32 name (embedding face) Hone Hvalid).
  cbn [Py.bind]. destruct (fold_left _ _ _) as [landmarks confidence].
  eexists. split; [reflexivity|]. cbn. repeat split; reflexivity.
Qed.

(** X19. [create_profile] answers an upload that is not declared an image
    with the status 400, and an image in which no model detects a face with
    the status 500: the 422 of [analyze_face] reaches the client only inside
    the detail of the 500. *)
Theorem faceless_upload_is_500 (apps : dict FaceAnalysis) (file other : UploadFile)
  (address address' : Z) (img rgb : Image) :
  wf apps ->
  is_image file = true ->
  Image_open address (content file) = Return img ->
  convert_RGB img = Return rgb ->
  detections apps (np_array rgb) = [] ->
  is_image other = false ->
  create_profile apps file address =
    Raise (HTTPException 500
             "Processing failed: 422: Face analysis failed: No face detected by any available model")
  /\ create_profile apps other address' =
       Raise (HTTPException 400 "File must be an image").
Proof.
  intros Hwf Himage Hopen Hrgb Hnone Hother. unfold create_profile.
  rewrite Himage, Hother, Hopen. cbn [negb mbind outcome_bind Py.bind].
  unfold analyze_face, analyze_face_try. rewrite Hrgb.
  cbn [mbind outcome_bind Py.bind].
  rewrite (contributions.get_embeddings_found apps (np_array rgb) Hwf), Hnone.
  split; reflexivity.
Qed.

(** X20. Comparing an image with itself, wherever the two buffers lie: when
    the analysis returns a profile whose aggregated embedding has a squared
    norm that neither overflows nor underflows, [compare_faces] returns, the
    aggregated score is within 2^-20 of one, and the two faces are reported
    as likely the same person. *)
Theorem same_image_same_person (apps : dict FaceAnalysis) (file : UploadFile)
  (address1 address2 : Z) (img : Image) (profile : Profile) :
  Image_open address1 (content file) = Return img ->
  analyze_face apps img = Return profile ->
  classify (np.ddot (aggregated profile) (aggregated profile)) = PNormal ->
  exists r s,
    compare_faces apps file file address1 address2 = Return r
    /\ same_person_likely r = true
    /\ models_compared r = models_used profile
    /\ get (similarities r) "aggregated" = Some s
    /\ (below_one <=? s) = true /\ (s <=? above_one) = true.
Proof.
  intros Hopen Hprofile Hnormal. unfold compare_faces, compare_faces_try.
  rewrite Hopen. apply Image_open_loaded in Hopen.
  rewrite (proj2 (Image_open_loaded address2 _ _) Hopen).
  cbn [mbind outcome_bind Py.bind]. rewrite Hprofile.
  cbn [mbind outcome_bind Py.bind].
  rewrite similarity.cosine_similarity_same_length by reflexivity.
  cbn [mbind outcome_bind Py.bind].
  set (s := cosine (aggregated profile) (aggregated profile)).
  destruct (compare_models_same (embeddings profile) (keys (embeddings profile))
              (setitem [] "aggregated" s)) as [similarities' [Hrun Hget]];
    [auto|].
  rewrite Hrun. cbn [mbind outcome_bind Py.bind]. unfold getitem. rewrite Hget.
  rewrite detection.get_setitem_same. cbn [mbind outcome_bind Py.bind].
  destruct (binary64.self_ratio_near_one _ Hnormal) as [Hlo Hhi].
  fold (np.linalg_norm (aggregated profile)) in Hlo, Hhi.
  fold (cosine (aggregated profile) (aggregated profile)) in Hlo, Hhi. fold s in Hlo, Hhi.
  eexists _, s. split; [reflexivity|]. cbn.
  rewrite detection.get_setitem_same in Hget.
  repeat split; try assumption.
  apply (ltb_leb_trans 0.6 below_one s); [reflexivity|exact Hlo].
Qed.

End Endpoints.

Lemma analyze_face_models_witness :
  exists r,
    @analyze_face fixtures.stub_vision stubs.plain_runtime running_sum
      stubs.one_model fixtures.photo = Return r
    /\ exists rgb,
         @convert_RGB fixtures.stub_vision stubs.plain_runtime fixtures.photo = Return rgb
         /\ embeddings r =
              map (fun entry => (entry.1, map F32.to_float entry.2))
                  (@detections fixtures.stub_vision stubs.one_model
                     (@np_array fixtures.stub_vision rgb))
         /\ models_used r =
              keys (@detections fixtures.stub_vision stubs.one_model
                      (@np_array fixtures.stub_vision rgb))
         /\ models_used r = keys (embeddings r)
         /\ models_used r <> [].
Proof.
  eexists. split; [vm_compute; reflexivity|].
  apply (@analyze_face_models fixtures.stub_vision stubs.plain_runtime running_sum
           stubs.one_model fixtures.photo).
  - apply NoDup_singleton.
  - vm_compute. reflexivity.
Defined.

Lemma one_model_aggregated_witness :
  exists r,
    @analyze_face fixtures.stub_vision stubs.plain_runtime running_sum
      stubs.one_model fixtures.photo = Return r
    /\ embeddings r = [("buffalo_l"%string, map F32.to_float (embedding fixtures.alice))]
    /\ aggregated r =
         map F32.to_float
           (map (fun x => match x with S754_zero _ => S754_zero false | _ => x end)
                (embedding fixtures.alice))
    /\ models_used r = ["buffalo_l"%string].
Proof.
  apply (@one_model_aggregated fixtures.stub_vision stubs.plain_runtime running_sum
           "buffalo_l" (fixtures.finds [fixtures.alice]) fixtures.photo fixtures.photo
           fixtures.alice []).
  - reflexivity.
  - reflexivity.
  - reflexivity.
  - repeat constructor.
Defined.

Lemma faceless_upload_is_500_witness :
  @create_profile fixtures.stub_vision stubs.plain_runtime running_sum
    stubs.blind (stubs.png fixtures.photo) 4096 =
    Raise (HTTPException 500
             "Processing failed: 422: Face analysis failed: No face detected by any available model")
  /\ @create_profile fixtures.stub_vision stubs.plain_runtime running_sum
       stubs.blind {| content_type := Some "text/plain"%string; content := fixtures.photo |}
       8192
     = Raise (HTTPException 400 "File must be an image").
Proof.
  apply (@faceless_upload_is_500 fixtures.stub_vision stubs.plain_runtime running_sum
           stubs.blind (stubs.png fixtures.photo)
           {| content_type := Some "text/plain"%string; content := fixtures.photo |}
           4096 8192 fixtures.photo fixtures.photo).
  - apply NoDup_singleton.
  - reflexivity.
  - reflexivity.
  - reflexivity.
  - reflexivity.
  - reflexivity.
Defined.

Lemma same_image_same_person_witness :
  exists profile,
    @analyze_face fixtures.stub_vision stubs.plain_runtime running_sum
      stubs.one_model fixtures.photo = Return profile
    /\ exists r s,
         @compare_faces fixtures.stub_vision stubs.plain_runtime running_sum
           np.index_order stubs.one_model (stubs.png fixtures.photo)
           (stubs.png fixtures.photo) 4096 8192
         = Return r
         /\ same_person_likely r = true
         /\ models_compared r = models_used profile
         /\ get (similarities r) "aggregated" = Some s
         /\ (below_one <=? s) = true /\ (s <=? above_one) = true.
Proof.
  eexists. split; [vm_compute; reflexivity|].
  apply (@same_image_same_person fixtures.stub_vision stubs.plain_runtime running_sum
           np.index_order stubs.one_model (stubs.png fixtures.photo) 4096 8192
           fixtures.photo).
  - reflexivity.
  - vm_compute. reflexivity.
  - vm_compute. reflexivity.
Defined.

End endpoints.
